(** * MasiSocketManager: a shallow embedding of
      [http_oled_sajib/main/control_modules/socket_manager.py]

    The development follows the Python class method by method.  Python's
    [struct] module, the socket layer, the clock and the log file are the
    only parts that are not code of the class; each of them is modelled
    explicitly and as small as the class needs it:

    - a byte is an integer in [0, 256) and a [bytes] object is a list of them;
    - a Python [int] is a [Z]; a Python [float] is the 64-bit pattern of its
      IEEE-754 binary64 representation (what [struct.pack('d', x)] writes);
    - an exception that leaves a method is the outcome [Raised];
    - sockets are handles, and every call on a socket is logged in a trace. *)

From Stdlib Require Import ZArith String Bool Lia Arith List Permutation.
Import ListNotations.

Local Open Scope Z_scope.

(* ================================================================== *)
(** ** The [struct] module, as far as the class uses it *)
(* ================================================================== *)

Module Struct.

Definition byte := Z.
Definition bytes := list byte.

Definition is_byte (b : byte) : Prop := 0 <= b < 256.

(** [endian_specifier]: ['<'] (the default of the class) or ['>']. *)
Inductive endian := Little | Big.

(** The two data formats of the class: [int_format = 'b'] (signed 1-byte
    integer) and [double_format = 'd'] (8-byte double). *)
Inductive format := fmt_b | fmt_d.

(** [struct.calcsize(endian + f)] *)
Definition calcsize (f : format) : nat :=
  match f with fmt_b => 1%nat | fmt_d => 8%nat end.

(** Numeric Python values. [VFloat bits] is the float whose binary64
    representation is the 64-bit word [bits]. *)
Inductive value :=
| VInt (n : Z)
| VFloat (bits : Z).

(** Little-endian base-256 digits. *)
Fixpoint le_bytes (n : nat) (x : Z) : bytes :=
  match n with
  | O => []
  | S k => (x mod 256) :: le_bytes k (x / 256)
  end.

Fixpoint le_value (bs : bytes) : Z :=
  match bs with
  | [] => 0
  | b :: rest => b + 256 * le_value rest
  end.

Definition in_order (e : endian) (bs : bytes) : bytes :=
  match e with Little => bs | Big => rev bs end.

(** [float(n)] for a Python int: the nearest binary64, ties to even;
    [None] stands for [OverflowError]. The result is the bit pattern. *)
Definition float_of_int (n : Z) : option Z :=
  if n =? 0 then Some 0
  else
    let sign := if n <? 0 then 2 ^ 63 else 0 in
    let a := Z.abs n in
    let e := Z.log2 a in
    if e <=? 52 then
      Some (sign + (e + 1023) * 2 ^ 52 + (a * 2 ^ (52 - e) - 2 ^ 52))
    else
      let sh := e - 52 in
      let q := a / 2 ^ sh in
      let r := a mod 2 ^ sh in
      let half := 2 ^ (sh - 1) in
      let up := (half <? r) || ((r =? half) && Z.odd q) in
      let q' := if up then q + 1 else q in
      let '(m, e') := if q' =? 2 ^ 53 then (2 ^ 52, e + 1) else (q', e) in
      if 1023 <? e' then None
      else Some (sign + (e' + 1023) * 2 ^ 52 + (m - 2 ^ 52)).

(** [float(v)] on a numeric value. *)
Definition to_float (v : value) : option Z :=
  match v with
  | VInt n => float_of_int n
  | VFloat bits => Some bits
  end.

(** [struct.pack(endian + f, v)]; [None] stands for [struct.error]. *)
Definition pack_one (e : endian) (f : format) (v : value) : option bytes :=
  match f, v with
  | fmt_b, VInt n =>
      if (-128 <=? n) && (n <=? 127) then Some [n mod 256] else None
  | fmt_b, VFloat _ => None
  | fmt_d, _ =>
      match to_float v with
      | Some bits => Some (in_order e (le_bytes 8 bits))
      | None => None
      end
  end.

(** [struct.pack(endian + f * len(data), *data)] *)
Fixpoint pack (e : endian) (f : format) (data : list value) : option bytes :=
  match data with
  | [] => Some []
  | v :: rest =>
      match pack_one e f v, pack e f rest with
      | Some b, Some bs => Some (b ++ bs)
      | _, _ => None
      end
  end.

(** [struct.unpack(endian + f, chunk)[0]]; [None] stands for
    [struct.error] (the chunk has not the size of the format). *)
Definition unpack_one (e : endian) (f : format) (chunk : bytes) : option value :=
  match f with
  | fmt_b =>
      match chunk with
      | [b] => Some (VInt (if b <? 128 then b else b - 256))
      | _ => None
      end
  | fmt_d =>
      if (length chunk =? 8)%nat
      then Some (VFloat (le_value (in_order e chunk)))
      else None
  end.

(** [checksum_format = 'B']: one unsigned byte. *)
Definition pack_B (c : Z) : option bytes :=
  if (0 <=? c) && (c <=? 255) then Some [c] else None.

Definition unpack_B (chunk : bytes) : option Z :=
  match chunk with
  | [b] => Some b
  | _ => None
  end.

(** [handshake_format = 'i']: a signed 32-bit integer. The handshake is
    modelled on the level of these integers; a value that is missing
    ([None]) or out of range makes [struct.pack] fail. *)
Definition fits_i (n : Z) : bool := (- 2 ^ 31 <=? n) && (n <? 2 ^ 31).

Fixpoint pack_i (vals : list (option Z)) : option (list Z) :=
  match vals with
  | [] => Some []
  | Some n :: rest =>
      if fits_i n then
        match pack_i rest with
        | Some ns => Some (n :: ns)
        | None => None
        end
      else None
  | None :: _ => None
  end.

End Struct.

Import Struct.

(** Python slices [l[i:j]], [l[-k:]] and [l[:-k]] for [k > 0]. *)
Definition slice {A} (i j : nat) (l : list A) : list A :=
  firstn (j - i) (skipn i l).

Definition slice_last {A} (k : nat) (l : list A) : list A :=
  skipn (length l - k) l.

Definition slice_but_last {A} (k : nat) (l : list A) : list A :=
  firstn (length l - k) l.

(** [range(0, stop, step)] for [step > 0]. *)
Definition range_step (stop step : nat) : list nat :=
  map (fun k => (k * step)%nat) (seq 0 ((stop + step - 1) / step)).


(* ================================================================== *)
(** ** The environment: sockets, the peer and the log file *)
(* ================================================================== *)

(** [socket_type]: ['server'] or ['client']. *)
Inductive role := Server | Client.

(** [network_protocol]: ['tcp'] or ['udp']. *)
Inductive protocol := TCP | UDP.

(** An [(addr, port)] pair. *)
Definition address := (string * Z)%type.

(** A socket object is a handle; two names for one object hold the same
    handle ([connected_socket = local_socket] in the client). *)
Definition sock := nat.

Inductive sock_kind := SOCK_STREAM | SOCK_DGRAM.

(** The calls the class makes on the socket layer. *)
Inductive sock_call :=
| Socket (s : sock) (k : sock_kind)
| Setsockopt (s : sock) (opt : string) (v : Z)
| Connect (s : sock) (a : address)
| Bind (s : sock) (a : address)
| Listen (s : sock) (backlog : Z)
| Accept (s conn : sock) (peer : address)
| SendInts (s : sock) (msg : list Z)
| Send (s : sock) (data : bytes)
| SendTo (s : sock) (data : bytes) (a : address)
| Close (s : sock).

(** One [open(filepath, 'ab')] block: the byte strings handed to
    [writelines]. The log file is the sequence of these blocks. *)
Definition append_block := list bytes.

Record world := mkWorld {
  trace : list sock_call;        (* socket calls so far, oldest first *)
  next_sock : sock;              (* the next fresh handle *)
  peer : address;                (* the endpoint [accept] returns *)
  inbox : list Z;                (* handshake integers sent by the peer *)
  log_file : list append_block
}.

Definition file_content (w : world) : bytes := concat (concat (log_file w)).

Definition set_inbox (x : list Z) (w : world) : world :=
  mkWorld (trace w) (next_sock w) (peer w) x (log_file w).

Definition set_log_file (x : list append_block) (w : world) : world :=
  mkWorld (trace w) (next_sock w) (peer w) (inbox w) x.

Definition log_call (c : sock_call) (w : world) : world :=
  mkWorld (trace w ++ [c]) (next_sock w) (peer w) (inbox w) (log_file w).

Definition fresh_sock (w : world) : world :=
  mkWorld (trace w) (S (next_sock w)) (peer w) (inbox w) (log_file w).

(** What one [recv]/[recvfrom] call of the data path gives back: the
    bytes and their source address, or an exception of the socket. *)
Inductive recv_result :=
| RecvData (full_data : bytes) (addr : address)
| RecvError.

(* ================================================================== *)
(** ** The object *)
(* ================================================================== *)

(** An element of [data_buffer]: [(microsecond_timestamp, unpacked_data)]. *)
Definition entry := (Z * list value)%type.

Record manager := mkManager {
  endian_specifier : endian;
  socket_type : option role;
  network_protocol : option protocol;
  local_id_number : option Z;
  local_num_inputs : option Z;
  local_num_outputs : option Z;
  local_socket : option sock;
  local_addr : option address;
  local_output_datatype : option format;
  local_datatype_size : option nat;
  recvd_id_number : option Z;
  recvd_num_inputs : option Z;
  recvd_num_outputs : option Z;
  connected_socket : option sock;
  connected_addr : option address;
  connected_output_datatype : option format;
  connected_datatype_size : option nat;
  buffer_size : nat;
  data_buffer : list entry;
  saving_running : bool;
  send_bytes : option Z;
  recv_bytes : option Z;
  latest_recvd : option bytes
}.

Definition set_socket_type (x : option role) (m : manager) : manager :=
  mkManager (endian_specifier m) x (network_protocol m) (local_id_number m)
    (local_num_inputs m) (local_num_outputs m) (local_socket m) (local_addr m)
    (local_output_datatype m) (local_datatype_size m) (recvd_id_number m)
    (recvd_num_inputs m) (recvd_num_outputs m) (connected_socket m)
    (connected_addr m) (connected_output_datatype m) (connected_datatype_size
    m) (buffer_size m) (data_buffer m) (saving_running m) (send_bytes m)
    (recv_bytes m) (latest_recvd m).

Definition set_network_protocol (x : option protocol) (m : manager) : manager :=
  mkManager (endian_specifier m) (socket_type m) x (local_id_number m)
    (local_num_inputs m) (local_num_outputs m) (local_socket m) (local_addr m)
    (local_output_datatype m) (local_datatype_size m) (recvd_id_number m)
    (recvd_num_inputs m) (recvd_num_outputs m) (connected_socket m)
    (connected_addr m) (connected_output_datatype m) (connected_datatype_size
    m) (buffer_size m) (data_buffer m) (saving_running m) (send_bytes m)
    (recv_bytes m) (latest_recvd m).

Definition set_local_id_number (x : option Z) (m : manager) : manager :=
  mkManager (endian_specifier m) (socket_type m) (network_protocol m) x
    (local_num_inputs m) (local_num_outputs m) (local_socket m) (local_addr m)
    (local_output_datatype m) (local_datatype_size m) (recvd_id_number m)
    (recvd_num_inputs m) (recvd_num_outputs m) (connected_socket m)
    (connected_addr m) (connected_output_datatype m) (connected_datatype_size
    m) (buffer_size m) (data_buffer m) (saving_running m) (send_bytes m)
    (recv_bytes m) (latest_recvd m).

Definition set_local_num_inputs (x : option Z) (m : manager) : manager :=
  mkManager (endian_specifier m) (socket_type m) (network_protocol m)
    (local_id_number m) x (local_num_outputs m) (local_socket m) (local_addr
    m) (local_output_datatype m) (local_datatype_size m) (recvd_id_number m)
    (recvd_num_inputs m) (recvd_num_outputs m) (connected_socket m)
    (connected_addr m) (connected_output_datatype m) (connected_datatype_size
    m) (buffer_size m) (data_buffer m) (saving_running m) (send_bytes m)
    (recv_bytes m) (latest_recvd m).

Definition set_local_num_outputs (x : option Z) (m : manager) : manager :=
  mkManager (endian_specifier m) (socket_type m) (network_protocol m)
    (local_id_number m) (local_num_inputs m) x (local_socket m) (local_addr m)
    (local_output_datatype m) (local_datatype_size m) (recvd_id_number m)
    (recvd_num_inputs m) (recvd_num_outputs m) (connected_socket m)
    (connected_addr m) (connected_output_datatype m) (connected_datatype_size
    m) (buffer_size m) (data_buffer m) (saving_running m) (send_bytes m)
    (recv_bytes m) (latest_recvd m).

Definition set_local_socket (x : option sock) (m : manager) : manager :=
  mkManager (endian_specifier m) (socket_type m) (network_protocol m)
    (local_id_number m) (local_num_inputs m) (local_num_outputs m) x
    (local_addr m) (local_output_datatype m) (local_datatype_size m)
    (recvd_id_number m) (recvd_num_inputs m) (recvd_num_outputs m)
    (connected_socket m) (connected_addr m) (connected_output_datatype m)
    (connected_datatype_size m) (buffer_size m) (data_buffer m)
    (saving_running m) (send_bytes m) (recv_bytes m) (latest_recvd m).

Definition set_local_addr (x : option address) (m : manager) : manager :=
  mkManager (endian_specifier m) (socket_type m) (network_protocol m)
    (local_id_number m) (local_num_inputs m) (local_num_outputs m)
    (local_socket m) x (local_output_datatype m) (local_datatype_size m)
    (recvd_id_number m) (recvd_num_inputs m) (recvd_num_outputs m)
    (connected_socket m) (connected_addr m) (connected_output_datatype m)
    (connected_datatype_size m) (buffer_size m) (data_buffer m)
    (saving_running m) (send_bytes m) (recv_bytes m) (latest_recvd m).

Definition set_local_output_datatype (x : option format) (m : manager) : manager :=
  mkManager (endian_specifier m) (socket_type m) (network_protocol m)
    (local_id_number m) (local_num_inputs m) (local_num_outputs m)
    (local_socket m) (local_addr m) x (local_datatype_size m) (recvd_id_number
    m) (recvd_num_inputs m) (recvd_num_outputs m) (connected_socket m)
    (connected_addr m) (connected_output_datatype m) (connected_datatype_size
    m) (buffer_size m) (data_buffer m) (saving_running m) (send_bytes m)
    (recv_bytes m) (latest_recvd m).

Definition set_local_datatype_size (x : option nat) (m : manager) : manager :=
  mkManager (endian_specifier m) (socket_type m) (network_protocol m)
    (local_id_number m) (local_num_inputs m) (local_num_outputs m)
    (local_socket m) (local_addr m) (local_output_datatype m) x
    (recvd_id_number m) (recvd_num_inputs m) (recvd_num_outputs m)
    (connected_socket m) (connected_addr m) (connected_output_datatype m)
    (connected_datatype_size m) (buffer_size m) (data_buffer m)
    (saving_running m) (send_bytes m) (recv_bytes m) (latest_recvd m).

Definition set_recvd_id_number (x : option Z) (m : manager) : manager :=
  mkManager (endian_specifier m) (socket_type m) (network_protocol m)
    (local_id_number m) (local_num_inputs m) (local_num_outputs m)
    (local_socket m) (local_addr m) (local_output_datatype m)
    (local_datatype_size m) x (recvd_num_inputs m) (recvd_num_outputs m)
    (connected_socket m) (connected_addr m) (connected_output_datatype m)
    (connected_datatype_size m) (buffer_size m) (data_buffer m)
    (saving_running m) (send_bytes m) (recv_bytes m) (latest_recvd m).

Definition set_recvd_num_inputs (x : option Z) (m : manager) : manager :=
  mkManager (endian_specifier m) (socket_type m) (network_protocol m)
    (local_id_number m) (local_num_inputs m) (local_num_outputs m)
    (local_socket m) (local_addr m) (local_output_datatype m)
    (local_datatype_size m) (recvd_id_number m) x (recvd_num_outputs m)
    (connected_socket m) (connected_addr m) (connected_output_datatype m)
    (connected_datatype_size m) (buffer_size m) (data_buffer m)
    (saving_running m) (send_bytes m) (recv_bytes m) (latest_recvd m).

Definition set_recvd_num_outputs (x : option Z) (m : manager) : manager :=
  mkManager (endian_specifier m) (socket_type m) (network_protocol m)
    (local_id_number m) (local_num_inputs m) (local_num_outputs m)
    (local_socket m) (local_addr m) (local_output_datatype m)
    (local_datatype_size m) (recvd_id_number m) (recvd_num_inputs m) x
    (connected_socket m) (connected_addr m) (connected_output_datatype m)
    (connected_datatype_size m) (buffer_size m) (data_buffer m)
    (saving_running m) (send_bytes m) (recv_bytes m) (latest_recvd m).

Definition set_connected_socket (x : option sock) (m : manager) : manager :=
  mkManager (endian_specifier m) (socket_type m) (network_protocol m)
    (local_id_number m) (local_num_inputs m) (local_num_outputs m)
    (local_socket m) (local_addr m) (local_output_datatype m)
    (local_datatype_size m) (recvd_id_number m) (recvd_num_inputs m)
    (recvd_num_outputs m) x (connected_addr m) (connected_output_datatype m)
    (connected_datatype_size m) (buffer_size m) (data_buffer m)
    (saving_running m) (send_bytes m) (recv_bytes m) (latest_recvd m).

Definition set_connected_addr (x : option address) (m : manager) : manager :=
  mkManager (endian_specifier m) (socket_type m) (network_protocol m)
    (local_id_number m) (local_num_inputs m) (local_num_outputs m)
    (local_socket m) (local_addr m) (local_output_datatype m)
    (local_datatype_size m) (recvd_id_number m) (recvd_num_inputs m)
    (recvd_num_outputs m) (connected_socket m) x (connected_output_datatype m)
    (connected_datatype_size m) (buffer_size m) (data_buffer m)
    (saving_running m) (send_bytes m) (recv_bytes m) (latest_recvd m).

Definition set_connected_output_datatype (x : option format) (m : manager) : manager :=
  mkManager (endian_specifier m) (socket_type m) (network_protocol m)
    (local_id_number m) (local_num_inputs m) (local_num_outputs m)
    (local_socket m) (local_addr m) (local_output_datatype m)
    (local_datatype_size m) (recvd_id_number m) (recvd_num_inputs m)
    (recvd_num_outputs m) (connected_socket m) (connected_addr m) x
    (connected_datatype_size m) (buffer_size m) (data_buffer m)
    (saving_running m) (send_bytes m) (recv_bytes m) (latest_recvd m).

Definition set_connected_datatype_size (x : option nat) (m : manager) : manager :=
  mkManager (endian_specifier m) (socket_type m) (network_protocol m)
    (local_id_number m) (local_num_inputs m) (local_num_outputs m)
    (local_socket m) (local_addr m) (local_output_datatype m)
    (local_datatype_size m) (recvd_id_number m) (recvd_num_inputs m)
    (recvd_num_outputs m) (connected_socket m) (connected_addr m)
    (connected_output_datatype m) x (buffer_size m) (data_buffer m)
    (saving_running m) (send_bytes m) (recv_bytes m) (latest_recvd m).

Definition set_data_buffer (x : list entry) (m : manager) : manager :=
  mkManager (endian_specifier m) (socket_type m) (network_protocol m)
    (local_id_number m) (local_num_inputs m) (local_num_outputs m)
    (local_socket m) (local_addr m) (local_output_datatype m)
    (local_datatype_size m) (recvd_id_number m) (recvd_num_inputs m)
    (recvd_num_outputs m) (connected_socket m) (connected_addr m)
    (connected_output_datatype m) (connected_datatype_size m) (buffer_size m)
    x (saving_running m) (send_bytes m) (recv_bytes m) (latest_recvd m).

Definition set_saving_running (x : bool) (m : manager) : manager :=
  mkManager (endian_specifier m) (socket_type m) (network_protocol m)
    (local_id_number m) (local_num_inputs m) (local_num_outputs m)
    (local_socket m) (local_addr m) (local_output_datatype m)
    (local_datatype_size m) (recvd_id_number m) (recvd_num_inputs m)
    (recvd_num_outputs m) (connected_socket m) (connected_addr m)
    (connected_output_datatype m) (connected_datatype_size m) (buffer_size m)
    (data_buffer m) x (send_bytes m) (recv_bytes m) (latest_recvd m).

Definition set_send_bytes (x : option Z) (m : manager) : manager :=
  mkManager (endian_specifier m) (socket_type m) (network_protocol m)
    (local_id_number m) (local_num_inputs m) (local_num_outputs m)
    (local_socket m) (local_addr m) (local_output_datatype m)
    (local_datatype_size m) (recvd_id_number m) (recvd_num_inputs m)
    (recvd_num_outputs m) (connected_socket m) (connected_addr m)
    (connected_output_datatype m) (connected_datatype_size m) (buffer_size m)
    (data_buffer m) (saving_running m) x (recv_bytes m) (latest_recvd m).

Definition set_recv_bytes (x : option Z) (m : manager) : manager :=
  mkManager (endian_specifier m) (socket_type m) (network_protocol m)
    (local_id_number m) (local_num_inputs m) (local_num_outputs m)
    (local_socket m) (local_addr m) (local_output_datatype m)
    (local_datatype_size m) (recvd_id_number m) (recvd_num_inputs m)
    (recvd_num_outputs m) (connected_socket m) (connected_addr m)
    (connected_output_datatype m) (connected_datatype_size m) (buffer_size m)
    (data_buffer m) (saving_running m) (send_bytes m) x (latest_recvd m).

Definition set_latest_recvd (x : option bytes) (m : manager) : manager :=
  mkManager (endian_specifier m) (socket_type m) (network_protocol m)
    (local_id_number m) (local_num_inputs m) (local_num_outputs m)
    (local_socket m) (local_addr m) (local_output_datatype m)
    (local_datatype_size m) (recvd_id_number m) (recvd_num_inputs m)
    (recvd_num_outputs m) (connected_socket m) (connected_addr m)
    (connected_output_datatype m) (connected_datatype_size m) (buffer_size m)
    (data_buffer m) (saving_running m) (send_bytes m) (recv_bytes m) x.

(** [MasiSocketManager()] with the default arguments. *)
Definition init : manager :=
  mkManager Little None None None None None None None None None None None
    None None None None None 100 [] false None None None.

(* ================================================================== *)
(** ** Methods that call the environment: a state and exception monad *)
(* ================================================================== *)

Inductive outcome (A : Type) :=
| Returned (a : A) (m : manager) (w : world)
| Raised (m : manager) (w : world).

Arguments Returned {A} a m w.
Arguments Raised {A} m w.

Definition action (A : Type) := manager -> world -> outcome A.

Definition ret {A} (a : A) : action A := fun m w => Returned a m w.

Definition raise {A} : action A := fun m w => Raised m w.

Definition bind {A B} (c : action A) (k : A -> action B) : action B :=
  fun m w =>
    match c m w with
    | Returned a m' w' => k a m' w'
    | Raised m' w' => Raised m' w'
    end.

Declare Scope action_scope.
Delimit Scope action_scope with action.
Notation "x <- c ;; k" := (bind c (fun x => k))
  (at level 61, c at next level, right associativity) : action_scope.
Notation "c ;; k" := (bind c (fun _ => k))
  (at level 61, right associativity) : action_scope.
Local Open Scope action_scope.

Definition self : action manager := fun m w => Returned m m w.

Definition assign (f : manager -> manager) : action unit :=
  fun m w => Returned tt (f m) w.

Definition env (f : world -> world) : action unit :=
  fun m w => Returned tt m (f w).

(** Use of an attribute that may still be [None]: [TypeError] or
    [AttributeError] when it is. *)
Definition the {A} (x : option A) : action A :=
  match x with
  | Some a => ret a
  | None => raise
  end.

(** [socket.socket(AF_INET, kind)] *)
Definition new_socket (k : sock_kind) : action sock :=
  fun m w =>
    let s := next_sock w in
    Returned s m (log_call (Socket s k) (fresh_sock w)).

(** [sock.recv(4 * k)] followed by [struct.unpack] of [k] integers: the
    next [k] integers of the peer; [struct.error] when the peer has not
    sent that many. *)
Definition recv_ints (s : option sock) (k : nat) : action (list Z) :=
  _ <- the s ;;
  fun m w =>
    if (k <=? length (inbox w))%nat
    then Returned (firstn k (inbox w)) m (set_inbox (skipn k (inbox w)) w)
    else Raised m (set_inbox [] w).

(** [sock.send(struct.pack(format, *values))] for handshake integers. *)
Definition send_ints (s : option sock) (values : list (option Z)) : action unit :=
  match pack_i values with
  | None => raise
  | Some msg => h <- the s ;; env (log_call (SendInts h msg))
  end.

(* ================================================================== *)
(** ** Module-level tables *)
(* ================================================================== *)

Definition id_numbers : list (Z * string) :=
  [(0, "Excavator"); (1, "Mevea"); (2, "Motion Platform"); (3, "Digicenter")]%string.

Definition datatype_encoding : list (string * Z) :=
  [("int", 0); ("double", 1)]%string.

(** [id_numbers.get(k, default)] *)
Fixpoint id_numbers_get (d : list (Z * string)) (k : Z) (default : string) : string :=
  match d with
  | [] => default
  | (k', v) :: rest => if k' =? k then v else id_numbers_get rest k default
  end.

(** [datatype_encoding.get(k, default)] *)
Fixpoint datatype_encoding_get (d : list (string * Z)) (k : string) (default : Z) : Z :=
  match d with
  | [] => default
  | (k', v) :: rest =>
      if String.eqb k' k then v else datatype_encoding_get rest k default
  end.

(* ================================================================== *)
(** ** ConnectionSetup *)
(* ================================================================== *)

(** [__setup_socket_client] *)
Definition setup_socket_client (addr : string) (port : Z) : action unit :=
  m <- self ;;
  match local_socket m with
  | None =>
      s <- new_socket SOCK_STREAM ;;
      assign (set_local_socket (Some s)) ;;
      env (log_call (Setsockopt s "TCP_NODELAY" 1)) ;;
      env (log_call (Connect s (addr, port))) ;;
      assign (set_socket_type (Some Client)) ;;
      assign (set_connected_addr (Some (addr, port))) ;;
      assign (set_connected_socket (Some s)) ;;
      assign (set_network_protocol (Some TCP))
  | Some _ =>
      (* print("socket already made!") *)
      ret tt
  end.

(** [__setup_socket_server] *)
Definition setup_socket_server (addr : string) (port : Z) : action unit :=
  m <- self ;;
  match local_socket m with
  | None =>
      s <- new_socket SOCK_STREAM ;;
      assign (set_local_socket (Some s)) ;;
      env (log_call (Setsockopt s "SO_REUSEADDR" 1)) ;;
      env (log_call (Bind s (addr, port))) ;;
      env (log_call (Listen s 1)) ;;
      conn <- (fun m w =>
                 let c := next_sock w in
                 Returned (c, peer w) m
                   (log_call (Accept s c (peer w)) (fresh_sock w))) ;;
      assign (set_connected_socket (Some (fst conn))) ;;
      assign (set_connected_addr (Some (snd conn))) ;;
      assign (set_socket_type (Some Server)) ;;
      assign (set_local_addr (Some (addr, port))) ;;
      assign (set_network_protocol (Some TCP))
  | Some _ =>
      (* print("socket already made!") *)
      ret tt
  end.

(** [setup_socket] *)
Definition setup_socket (addr : string) (port : Z)
    (identification_number inputs outputs : Z) (socket_type : string) : action bool :=
  assign (set_local_id_number (Some identification_number)) ;;
  assign (set_local_num_inputs (Some inputs)) ;;
  assign (set_local_num_outputs (Some outputs)) ;;
  if String.eqb socket_type "client" then
    setup_socket_client addr port ;; ret true
  else if String.eqb socket_type "server" then
    setup_socket_server addr port ;; ret true
  else
    ret false.

(* ================================================================== *)
(** ** HandshakeProtocol *)
(* ================================================================== *)

(** What [handshake] returns: [False], [None], or the pair
    [(connected_output_datatype, recvd_extra_args)]. *)
Inductive handshake_result :=
| HsFalse
| HsNone
| HsDone (connected_datatype : format) (recvd_extra_args : option (list Z)).

(** [calcsize(endian + checksum_format)] *)
Definition checksum_format_size : nat := 1.

(** Python's [==] between attributes that may be [None]. *)
Definition py_eq (a b : option Z) : bool :=
  match a, b with
  | Some x, Some y => x =? y
  | None, None => true
  | _, _ => false
  end.

(** [_prepare_extra_args] *)
Definition prepare_extra_args (kwargs : list (string * Z)) (num_extra_args : nat)
    : list Z :=
  let extra_args_to_send := firstn num_extra_args (map snd kwargs) in
  extra_args_to_send ++ repeat 0 (num_extra_args - length extra_args_to_send)%nat.

(** [__receive_extra_args] *)
Fixpoint receive_extra_args (num_args : nat) : action (list Z) :=
  match num_args with
  | O => ret []
  | S k =>
      m <- self ;;
      arg <- recv_ints (connected_socket m) 1 ;;
      rest <- receive_extra_args k ;;
      ret (arg ++ rest)
  end.

(** The part of the two branches that is the same: receive the peer's
    datatype code and its extra arguments. *)
Definition receive_datatype_and_extra_args (num_extra_args : nat) : action (list Z) :=
  m <- self ;;
  packed_datatype <- recv_ints (connected_socket m) 1 ;;
  match packed_datatype with
  | [connected_datatype_code] =>
      assign (set_connected_output_datatype
                (Some (if connected_datatype_code =? 0 then fmt_b else fmt_d))) ;;
      receive_extra_args num_extra_args
  | _ => raise
  end.

(** [handshake], the branch [socket_type == 'server']. [None] is the
    early [return False]; otherwise the device name and the received
    extra arguments go on to the common tail. *)
Definition handshake_server (local_datatype_code : Z) (num_extra_args : nat)
    (kwargs : list (string * Z)) : action (option (string * option (list Z))) :=
  m <- self ;;
  packed_handshake <- recv_ints (connected_socket m) 3 ;;
  match packed_handshake with
  | [id; outs; ins] =>
      assign (set_recvd_id_number (Some id)) ;;
      assign (set_recvd_num_outputs (Some outs)) ;;
      assign (set_recvd_num_inputs (Some ins)) ;;
      let connected_device_name := id_numbers_get id_numbers id "Undefined" in
      m <- self ;;
      let inputs_match := py_eq (recvd_num_inputs m) (local_num_outputs m) in
      let outputs_match := py_eq (recvd_num_outputs m) (local_num_inputs m) in
      if negb (inputs_match && outputs_match) then
        ret None
      else
        resp <-
          (if String.eqb connected_device_name "Mevea" then
             assign (set_local_output_datatype (Some fmt_d)) ;;
             assign (set_connected_output_datatype (Some fmt_d)) ;;
             m <- self ;;
             ret ([local_id_number m; local_num_inputs m; local_num_outputs m],
                  None)
           else
             recvd_extra_args <- receive_datatype_and_extra_args num_extra_args ;;
             let extra_args_to_send := prepare_extra_args kwargs num_extra_args in
             m <- self ;;
             ret ([local_id_number m; local_num_inputs m; local_num_outputs m;
                   Some local_datatype_code] ++ map Some extra_args_to_send,
                  Some recvd_extra_args)) ;;
        m <- self ;;
        send_ints (connected_socket m) (fst resp) ;;
        ret (Some (connected_device_name, snd resp))
  | _ => raise
  end.

(** [handshake], the branch [socket_type == 'client']. *)
Definition handshake_client (local_datatype_code : Z) (num_extra_args : nat)
    (kwargs : list (string * Z)) : action (string * option (list Z)) :=
  let extra_args_to_send := prepare_extra_args kwargs num_extra_args in
  m <- self ;;
  send_ints (local_socket m)
    ([local_id_number m; local_num_outputs m; local_num_inputs m;
      Some local_datatype_code] ++ map Some extra_args_to_send) ;;
  packed_handshake <- recv_ints (connected_socket m) 3 ;;
  match packed_handshake with
  | [id; ins; outs] =>
      assign (set_recvd_id_number (Some id)) ;;
      assign (set_recvd_num_inputs (Some ins)) ;;
      assign (set_recvd_num_outputs (Some outs)) ;;
      let connected_device_name := id_numbers_get id_numbers id "Undefined" in
      if String.eqb connected_device_name "Mevea" then
        assign (set_local_output_datatype (Some fmt_d)) ;;
        assign (set_connected_output_datatype (Some fmt_d)) ;;
        ret (connected_device_name, None)
      else
        recvd_extra_args <- receive_datatype_and_extra_args num_extra_args ;;
        ret (connected_device_name, Some recvd_extra_args)
  | _ => raise
  end.

(** [handshake], from "calculate dt sizer for further use" on. *)
Definition handshake_sizes (recvd_extra_args : option (list Z))
    : action handshake_result :=
  m <- self ;;
  local_dt <- the (local_output_datatype m) ;;
  assign (set_local_datatype_size (Some (calcsize local_dt))) ;;
  connected_dt <- the (connected_output_datatype m) ;;
  assign (set_connected_datatype_size (Some (calcsize connected_dt))) ;;
  outputs <- the (local_num_outputs m) ;;
  assign (set_send_bytes
            (Some (Z.of_nat (calcsize local_dt) * outputs
                   + Z.of_nat checksum_format_size))) ;;
  recvd_outputs <- the (recvd_num_outputs m) ;;
  assign (set_recv_bytes
            (Some (Z.of_nat (calcsize connected_dt) * recvd_outputs
                   + Z.of_nat checksum_format_size))) ;;
  (* __identify only prints *)
  ret (HsDone connected_dt recvd_extra_args).

(** [handshake(local_datatype, num_extra_args, **kwargs)] *)
Definition handshake (local_datatype : string) (num_extra_args : nat)
    (kwargs : list (string * Z)) : action handshake_result :=
  let local_datatype_code := datatype_encoding_get datatype_encoding local_datatype 1 in
  assign (set_local_output_datatype
            (Some (if local_datatype_code =? 0 then fmt_b else fmt_d))) ;;
  m <- self ;;
  match socket_type m with
  | Some Server =>
      r <- handshake_server local_datatype_code num_extra_args kwargs ;;
      match r with
      | None => ret HsFalse
      | Some (_, recvd_extra_args) => handshake_sizes recvd_extra_args
      end
  | Some Client =>
      r <- handshake_client local_datatype_code num_extra_args kwargs ;;
      handshake_sizes (snd r)
  | None =>
      ret HsNone
  end.

(* ================================================================== *)
(** ** ProtocolSwitcher *)
(* ================================================================== *)

(** [tcp_to_udp(socket_buffer_size)] *)
Definition tcp_to_udp (socket_buffer_size : Z) : action bool :=
  m <- self ;;
  let tcp_addr :=
    match socket_type m with
    | Some Client => connected_addr m
    | _ => local_addr m
    end in
  match connected_socket m with
  | Some c => env (log_call (Close c))
  | None => ret tt
  end ;;
  match local_socket m with
  | Some l => env (log_call (Close l))
  | None => ret tt
  end ;;
  s <- new_socket SOCK_DGRAM ;;
  assign (set_local_socket (Some s)) ;;
  env (log_call (Setsockopt s "SO_RCVBUF" socket_buffer_size)) ;;
  match socket_type m with
  | Some Server => a <- the tcp_addr ;; env (log_call (Bind s a))
  | Some Client => assign (set_connected_addr tcp_addr)
  | None => ret tt
  end ;;
  assign (set_network_protocol (Some UDP)) ;;
  ret true.

(* ================================================================== *)
(** ** FrameCodec *)
(* ================================================================== *)

(** [_compute_checksum] *)
Definition compute_checksum (packed_data : bytes) : Z :=
  fold_left Z.lxor packed_data 0.

(** [_add_checksum]; [None] is the [struct.error] of packing the
    checksum. *)
Definition add_checksum (packed_data : bytes) : option bytes :=
  let checksum := compute_checksum packed_data in
  match pack_B checksum with
  | Some c => Some (packed_data ++ c)
  | None => None
  end.

(** The bytes [send_data] builds from [data]. *)
Definition encode_frame (e : endian) (f : format) (data : list value) : option bytes :=
  match pack e f data with
  | Some packed_data => add_checksum packed_data
  | None => None
  end.

(** [send_data] *)
Definition send_data (data : list value) : action bytes :=
  m <- self ;;
  local_dt <- the (local_output_datatype m) ;;
  final_data <- the (encode_frame (endian_specifier m) local_dt data) ;;
  match network_protocol m with
  | Some TCP =>
      c <- the (connected_socket m) ;;
      env (log_call (Send c final_data))
  | _ =>
      l <- the (local_socket m) ;;
      a <- the (connected_addr m) ;;
      env (log_call (SendTo l final_data a))
  end ;;
  ret final_data.

(** The list comprehension of [get_latest_received]; [None] when it
    raises: an [unpack] of a chunk fails, or there is a chunk to unpack
    and [connected_output_datatype] is still [None]. *)
Fixpoint unpack_chunks (e : endian) (dt : option format) (size : nat)
    (full_data : bytes) (starts : list nat) : option (list value) :=
  match starts with
  | [] => Some []
  | i :: rest =>
      match dt with
      | None => None
      | Some f =>
          match unpack_one e f (slice i (i + size) full_data),
                unpack_chunks e dt size full_data rest with
          | Some v, Some vs => Some (v :: vs)
          | _, _ => None
          end
      end
  end.

(** [get_latest_received]: the returned value and the object afterwards.
    Every [return None] of the method, and the [except] clause, leave the
    object as it was. *)
Definition get_latest_received (m : manager) : option (list value) * manager :=
  match latest_recvd m with
  | None => (None, m)
  | Some full_data =>
      match unpack_B (slice_last checksum_format_size full_data) with
      | None => (None, m)
      | Some received_checksum =>
          let computed_checksum :=
            compute_checksum (slice_but_last checksum_format_size full_data) in
          if negb (received_checksum =? computed_checksum) then (None, m)
          else
            let expected_length := (length full_data - checksum_format_size)%nat in
            match connected_datatype_size m with
            | None => (None, m)
            | Some size =>
                if (size =? 0)%nat then (None, m)
                else if negb (expected_length mod size =? 0)%nat then (None, m)
                else
                  match unpack_chunks (endian_specifier m)
                          (connected_output_datatype m) size full_data
                          (range_step expected_length size) with
                  | Some decoded_values =>
                      (Some decoded_values, set_latest_recvd None m)
                  | None => (None, m)
                  end
            end
      end
  end.

(* ================================================================== *)
(** ** ReceiverLoop and LatestValueCache *)
(* ================================================================== *)

(** [__receive_data] on what the socket call gave back. *)
Definition receive_data (m : manager) (r : recv_result) : option bytes * manager :=
  let sock_used :=
    match network_protocol m with
    | Some TCP => connected_socket m
    | _ => local_socket m
    end in
  match sock_used, recv_bytes m, r with
  | Some _, Some n, RecvData full_data addr =>
      if n <? 0 then (None, m)
      else
        let m' :=
          match network_protocol m, socket_type m with
          | Some TCP, _ => m
          | _, Some Server => set_connected_addr (Some addr) m
          | _, _ => m
          end in
        if (length full_data =? 0)%nat || negb (Z.of_nat (length full_data) =? n)
        then (None, m')
        else (Some full_data, m')
  | _, _, _ => (None, m)
  end.

(** One turn of the loop of [__continuous_data_receiver]. *)
Definition receiver_turn (m : manager) (r : recv_result) : manager :=
  match receive_data m r with
  | (Some data, m') =>
      match data with
      | [] => m'
      | _ :: _ => set_latest_recvd (Some data) m'
      end
  | (None, m') => m'
  end.

(** [__continuous_data_receiver] over the results of its socket calls. *)
Definition continuous_data_receiver (m : manager) (rs : list recv_result) : manager :=
  fold_left receiver_turn rs m.

(* ================================================================== *)
(** ** RecordBuffer and SaverLoop *)
(* ================================================================== *)

(** [add_data_to_buffer]: the object afterwards and whether
    [buffer_not_empty] was notified. [microsecond_timestamp] is the clock
    reading. *)
Definition add_data_to_buffer (microsecond_timestamp : Z) (unpacked_data : list value)
    (m : manager) : manager * bool :=
  let timestamped_data := (microsecond_timestamp, unpacked_data) in
  let m' := set_data_buffer (data_buffer m ++ [timestamped_data]) m in
  let ready_to_save := (buffer_size m' <=? length (data_buffer m'))%nat in
  (m', ready_to_save).

(** [[float(d) for d in data[1]]]; [None] is an [OverflowError]. *)
Fixpoint floats (vals : list value) : option (list Z) :=
  match vals with
  | [] => Some []
  | d :: rest =>
      match to_float d, floats rest with
      | Some x, Some xs => Some (x :: xs)
      | _, _ => None
      end
  end.

(** The [while self.data_buffer] loop of [__save_buffer]: the packed
    records (in reverse order of [append]), the buffer that is left and
    whether an exception left the loop. *)
Fixpoint save_loop (e : endian) (buf : list entry) (packed_data_list : list bytes)
    : list bytes * list entry * bool :=
  match buf with
  | [] => (packed_data_list, [], false)
  | (timestamp, vals) :: rest =>
      match floats vals with
      | None => (packed_data_list, rest, true)
      | Some sensor_values =>
          (* unix_format = 'd', pack_datatype = 'd' *)
          match pack e fmt_d (VInt timestamp :: map VFloat sensor_values) with
          | Some packed_data => save_loop e rest (packed_data_list ++ [packed_data])
          | None => save_loop e rest packed_data_list
          end
      end
  end.

(** [__save_buffer] *)
Definition save_buffer : action unit :=
  m <- self ;;
  let '(packed_data_list, remaining, raised) :=
    save_loop (endian_specifier m) (data_buffer m) [] in
  assign (set_data_buffer remaining) ;;
  if raised then raise
  else
    fun m w => Returned tt m (set_log_file (log_file w ++ [packed_data_list]) w).

(** One turn of the outer loop of [_run_saving_thread]. *)
Inductive saver_turn := Waiting | Stopped | Saved.

Definition run_saving_thread_turn : action saver_turn :=
  m <- self ;;
  if negb (saving_running m) then ret Stopped
  else if (length (data_buffer m) <? buffer_size m)%nat then ret Waiting
  else save_buffer ;; ret Saved.

(** Flipping bit [k] of a frame (bit [k mod 8] of byte [k / 8]): the
    corruption the integrity check is tested against. *)
Fixpoint flip_at (i : nat) (bit : Z) (frame : bytes) : bytes :=
  match frame, i with
  | [], _ => []
  | b :: rest, O => Z.lxor b (2 ^ bit) :: rest
  | b :: rest, S j => b :: flip_at j bit rest
  end.

Definition flip_bit (k : nat) (frame : bytes) : bytes :=
  flip_at (k / 8) (Z.of_nat (k mod 8)) frame.

(** A value the format can carry without conversion: an integer in
    [-128, 127] for ['b'], a binary64 for ['d']. *)
Definition fits (f : format) (v : value) : Prop :=
  match f, v with
  | fmt_b, VInt n => -128 <= n <= 127
  | fmt_d, VFloat bits => 0 <= bits < 2 ^ 64
  | _, _ => False
  end.


(** [carries f v v']: packed under [f], the value [v] is unpacked as [v'].
    Under ['d'] an integer comes back as the float nearest to it. *)
Definition carries (f : format) (v v' : value) : Prop :=
  match f, v' with
  | fmt_b, VInt n' => v = VInt n' /\ -128 <= n' <= 127
  | fmt_d, VFloat bits => to_float v = Some bits /\ 0 <= bits < 2 ^ 64
  | _, _ => False
  end.

(** What the consumer and the receiver thread do to the slot, one after
    the other: a frame arrives ([receiver_turn]) or the consumer polls
    ([get_latest_received]). *)
Inductive cache_op :=
| Arrive (r : recv_result)
| Poll.

(** The arrays handed to the consumer, in order. *)
Fixpoint delivered (m : manager) (ops : list cache_op) : list (list value) :=
  match ops with
  | [] => []
  | Arrive r :: rest => delivered (receiver_turn m r) rest
  | Poll :: rest =>
      match get_latest_received m with
      | (Some vs, m') => vs :: delivered m' rest
      | (None, m') => delivered m' rest
      end
  end.

(** The number of arrivals that were written into the slot. *)
Fixpoint stored (m : manager) (ops : list cache_op) : nat :=
  match ops with
  | [] => 0%nat
  | Arrive r :: rest =>
      ((match fst (receive_data m r) with Some (_ :: _) => 1%nat | _ => 0%nat end)
       + stored (receiver_turn m r) rest)%nat
  | Poll :: rest => stored (snd (get_latest_received m)) rest
  end.

(** Whether the slot holds something. *)
Definition occupied (m : manager) : nat :=
  match latest_recvd m with Some _ => 1%nat | None => 0%nat end.

(** The ways in which decoding the slot can fail. *)
Inductive decode_failure (m : manager) (full_data : bytes) : Prop :=
| ChecksumMismatch (c : Z) :
    unpack_B (slice_last checksum_format_size full_data) = Some c ->
    c <> compute_checksum (slice_but_last checksum_format_size full_data) ->
    decode_failure m full_data
| LengthNotMultiple (size : nat) :
    connected_datatype_size m = Some size ->
    ((length full_data - checksum_format_size) mod size <> 0)%nat ->
    decode_failure m full_data
| UnpackRaises :
    unpack_B (slice_last checksum_format_size full_data) = None
    \/ connected_datatype_size m = None
    \/ connected_datatype_size m = Some 0%nat
    \/ (exists size,
          connected_datatype_size m = Some size
          /\ unpack_chunks (endian_specifier m) (connected_output_datatype m)
               size full_data
               (range_step (length full_data - checksum_format_size) size)
             = None) ->
    decode_failure m full_data.

Definition manager_of {A} (o : outcome A) : manager :=
  match o with
  | Returned _ m _ => m
  | Raised m _ => m
  end.

Definition world_of {A} (o : outcome A) : world :=
  match o with
  | Returned _ _ w => w
  | Raised _ w => w
  end.

(** The integers the client branch of [handshake] packs and sends. *)
Definition client_hello (lid lin lout code : Z) (kwargs : list (string * Z))
    (n : nat) : list Z :=
  [lid; lout; lin; code] ++ prepare_extra_args kwargs n.

(** "The encoding-selector and auxiliary-argument exchange is skipped
    entirely" between two states of the environment: three integers were
    taken from the peer and every handshake message sent in between has
    three integers. *)
Definition exchange_skipped (w w' : world) : Prop :=
  length (inbox w) = (3 + length (inbox w'))%nat
  /\ forall s msg,
       In (SendInts s msg) (skipn (length (trace w)) (trace w')) ->
       length msg = 3%nat.

(** A number [float] converts: any float, and an integer that is not
    beyond the range of a double. *)
Definition numeric (v : value) : Prop :=
  match v with
  | VInt n => Z.abs n < 2 ^ 1023
  | VFloat bits => 0 <= bits < 2 ^ 64
  end.

(** A buffer entry as [add_data_to_buffer] makes it from a clock reading
    and a decoded array. *)
Definition loggable (e : entry) : Prop :=
  Z.abs (fst e) < 2 ^ 1023 /\ Forall numeric (snd e).

(** The log record of an entry: the timestamp and then the values, each
    as an 8-byte double. *)
Definition is_record (e : endian) (entry_ : entry) (record : bytes) : Prop :=
  pack e fmt_d (VInt (fst entry_) :: snd entry_) = Some record
  /\ length record = (8 + 8 * length (snd entry_))%nat.

(** [k] calls of [add_data_to_buffer] with the clock readings
    [t, t + 1, ...] and the same array. *)
Fixpoint feed (k : nat) (t : Z) (data : list value) (m : manager) : manager :=
  match k with
  | O => m
  | S k' => feed k' (t + 1) data (fst (add_data_to_buffer t data m))
  end.

(** *** A session to compute with

    An excavator server (2 inputs, 3 outputs, doubles) and a motion
    platform client (3 inputs, 2 outputs, 1-byte integers). Each side's
    [inbox] holds what the other side sends. *)

Definition server_world : world :=
  mkWorld [] 0%nat ("10.0.0.2", 40000)%string [2; 2; 3; 0; 50; 100; 0] [].

Definition client_world : world :=
  mkWorld [] 0%nat ("10.0.0.1", 5111)%string [0; 2; 3; 1; 20; 0; 0] [].

Definition server_session : outcome handshake_result :=
  (setup_socket "10.0.0.1" 5111 0 2 3 "server" ;;
   handshake "double" 3 [("loop_frequency", 20)])%string init server_world.

Definition client_session : outcome handshake_result :=
  (setup_socket "10.0.0.1" 5111 2 3 2 "client" ;;
   handshake "int" 3 [("loop_frequency", 50); ("int_scale", 100)])%string
    init client_world.

Definition server_ready : manager := manager_of server_session.
Definition client_ready : manager := manager_of client_session.

(** A client that meets the peer "Mevea" (identity 1). *)
Definition mevea_client_world : world :=
  mkWorld [] 0%nat ("10.0.0.1", 5111)%string [1; 2; 3] [].

Definition mevea_client_setup : outcome bool :=
  setup_socket "10.0.0.1" 5111 2 3 2 "client" init mevea_client_world.

Definition mevea_client_session : outcome handshake_result :=
  handshake "int" 3 [("loop_frequency", 50); ("int_scale", 100)]%string
    (manager_of mevea_client_setup) (world_of mevea_client_setup).

(** A client whose peer declares 7 inputs and 9 outputs, where the client
    has 2 outputs and 3 inputs. *)
Definition mismatch_client_world : world :=
  mkWorld [] 0%nat ("10.0.0.1", 5111)%string [0; 7; 9; 1; 20; 0; 0] [].

Definition mismatch_client_setup : outcome bool :=
  setup_socket "10.0.0.1" 5111 2 3 2 "client" init mismatch_client_world.

Definition mismatch_client_session : outcome handshake_result :=
  handshake "int" 3 [("loop_frequency", 50); ("int_scale", 100)]%string
    (manager_of mismatch_client_setup) (world_of mismatch_client_setup).

(** The server of the first session against a peer that declares the same
    mismatching counts. *)
Definition mismatch_server_world : world :=
  mkWorld [] 0%nat ("10.0.0.2", 40000)%string [2; 9; 7; 0; 50; 100; 0] [].

Definition mismatch_server_setup : outcome bool :=
  setup_socket "10.0.0.1" 5111 0 2 3 "server" init mismatch_server_world.

Definition mismatch_server_session : outcome handshake_result :=
  handshake "double" 3 [("loop_frequency", 20)]%string
    (manager_of mismatch_server_setup) (world_of mismatch_server_setup).

(* ================================================================== *)
(** ** Further methods: shutdown and the log file reader *)
(* ================================================================== *)

(** [close_socket] *)
Definition close_socket : action unit :=
  m <- self ;;
  match local_socket m with
  | Some l =>
      (* print("Socket closed successfully!") *)
      env (log_call (Close l))
  | None =>
      (* print("something wrong has happened somewhere") *)
      ret tt
  end.

(** [clear_file]: [open(filepath, 'wb')] leaves an empty file. *)
Definition clear_file : action unit := env (set_log_file []).

(** [struct.unpack(endian + 'd' * count, packed_data)]; [None] stands for
    [struct.error]: the buffer has not exactly [8 * count] bytes. *)
Definition unpack_doubles (e : endian) (count : nat) (packed_data : bytes)
    : option (list value) :=
  if (length packed_data =? count * calcsize fmt_d)%nat then
    unpack_chunks e (Some fmt_d) (calcsize fmt_d) packed_data
      (range_step (length packed_data) (calcsize fmt_d))
  else None.

(** The [while True] loop of [print_bin_file] on what is left of the
    file: the tuples printed, and whether [struct.unpack] raised. Every
    turn that goes on takes [data_size > 0] bytes, so [fuel] above the
    length of the content is never used up. *)
Fixpoint read_loop (fuel : nat) (e : endian) (count : nat) (content : bytes)
    : list (list value) * bool :=
  match fuel with
  | O => ([], false)
  | S k =>
      let data_size := (count * calcsize fmt_d)%nat in
      match firstn data_size content with
      | [] => ([], false)
      | (_ :: _) as packed_data =>
          match unpack_doubles e count packed_data with
          | None => ([], true)
          | Some data =>
              let '(printed, raised) :=
                read_loop k e count (skipn data_size content) in
              (data :: printed, raised)
          end
      end
  end.

(** [print_bin_file(num_values)] on the file as it is found ([None]: the
    path does not exist): the tuples printed, and whether the method
    raised. [pack_datatype] is ['d']. *)
Definition print_bin_file (m : manager) (num_values : nat) (file : option bytes)
    : list (list value) * bool :=
  match file with
  | None => ([], false)
  | Some content =>
      read_loop (S (length content)) (endian_specifier m) (num_values + 1) content
  end.

(** The record [__save_buffer] packs for an entry whose values convert;
    [None] when [struct.pack] refuses the timestamp. *)
Definition record_of (e : endian) (entry_ : entry) : option bytes :=
  pack e fmt_d (VInt (fst entry_) :: snd entry_).

(** The records of a queue, entries without a record left out. *)
Definition records_of (e : endian) (buf : list entry) : list bytes :=
  flat_map (fun entry_ =>
              match record_of e entry_ with
              | Some record => [record]
              | None => []
              end) buf.

(* ================================================================== *)
(** ** The caller: [drive_around_combined_controls.py] *)
(* ================================================================== *)

(** How the start of the script ends, from [socket = MasiSocketManager()]
    to [socket.tcp_to_udp()]. The [PWM_controller] module is not part of
    the sources; the calls on [pwm] between these lines are left out. *)
Inductive script_end :=
| BroughtUp (loop_frequency int_scale : Z)
| CouldNotSetUpSocket
| CouldNotMakeHandshake
| UnpackTypeError
| SubscriptTypeError
| IndexError
| MethodRaised.

(** Python's truth value of a format string (['b'] or ['d']). *)
Definition format_truth (f : format) : bool := true.

(** The module level of the script from [socket = MasiSocketManager()]
    to [socket.tcp_to_udp()]: how it ends, and the object and the
    environment then. *)
Definition bring_up (w : world) : script_end * manager * world :=
  match setup_socket "192.168.0.136" 5111 0 20 0 "server" init w with
  | Raised m1 w1 => (MethodRaised, m1, w1)
  | Returned false m1 w1 => (CouldNotSetUpSocket, m1, w1)
  | Returned true m1 w1 =>
      match handshake "double" 3
              [("example_arg_you_could_send_here", 69)]%string m1 w1 with
      | Raised m2 w2 => (MethodRaised, m2, w2)
      | Returned HsFalse m2 w2 => (UnpackTypeError, m2, w2)
      | Returned HsNone m2 w2 => (UnpackTypeError, m2, w2)
      | Returned (HsDone handshake_result extra_args) m2 w2 =>
          if negb (format_truth handshake_result) then
            (CouldNotMakeHandshake, m2, w2)
          else
            match extra_args with
            | None => (SubscriptTypeError, m2, w2)
            | Some (loop_frequency :: int_scale :: _) =>
                match tcp_to_udp 64 m2 w2 with
                | Returned _ m3 w3 => (BroughtUp loop_frequency int_scale, m3, w3)
                | Raised m3 w3 => (MethodRaised, m3, w3)
                end
            | Some _ => (IndexError, m2, w2)
            end
      end
  end.

(** [a > b] on Python floats given by their bit patterns: [False] when
    one of them is a NaN, otherwise the order of sign and magnitude, with
    [-0.0] equal to [0.0]. *)
Definition float_is_nan (bits : Z) : bool :=
  0x7FF0000000000000 <? bits mod 2 ^ 63.

Definition float_key (bits : Z) : Z :=
  if bits <? 2 ^ 63 then bits else - (bits - 2 ^ 63).

Definition float_gt (a b : Z) : bool :=
  negb (float_is_nan a) && negb (float_is_nan b) && (float_key b <? float_key a).

(** [ButtonState.states]: a dict from button index to the last state,
    in insertion order. *)
Definition button_states := list (Z * bool).

(** [states.get(button_index, default)] *)
Fixpoint states_get (states : button_states) (button_index : Z) (default : bool)
    : bool :=
  match states with
  | [] => default
  | (k, v) :: rest =>
      if k =? button_index then v else states_get rest button_index default
  end.

(** [states[button_index] = current_state] *)
Fixpoint states_set (states : button_states) (button_index : Z)
    (current_state : bool) : button_states :=
  match states with
  | [] => [(button_index, current_state)]
  | (k, v) :: rest =>
      if k =? button_index then (k, current_state) :: rest
      else (k, v) :: states_set rest button_index current_state
  end.

(** [ButtonState.check_button]: the answer and the states afterwards. *)
Definition check_button (button_index : Z) (value threshold : Z)
    (states : button_states) : bool * button_states :=
  let current_state := float_gt value threshold in
  let previous_state := states_get states button_index false in
  (current_state && negb previous_state,
   states_set states button_index current_state).

(** The default [threshold=0.8]. *)
Definition threshold_default : Z := 0x3FE999999999999A.

(** A run of [check_button] calls, each with its button and value. *)
Fixpoint check_buttons (calls : list (Z * Z)) (threshold : Z)
    (states : button_states) : list bool * button_states :=
  match calls with
  | [] => ([], states)
  | (button_index, value) :: rest =>
      let '(answer, states') := check_button button_index value threshold states in
      let '(answers, states'') := check_buttons rest threshold states' in
      (answer :: answers, states'')
  end.

(* ================================================================== *)
(** * Properties *)
(* ================================================================== *)

Example float_of_int_1 : float_of_int 1 = Some 0x3FF0000000000000.
Proof. reflexivity. Qed.

Example float_of_int_m3 : float_of_int (-3) = Some 0xC008000000000000.
Proof. reflexivity. Qed.

Example float_of_int_tie_even : float_of_int (2 ^ 53 + 1) = float_of_int (2 ^ 53).
Proof. reflexivity. Qed.

Example float_of_int_tie_up : float_of_int (2 ^ 53 + 3) = float_of_int (2 ^ 53 + 4).
Proof. reflexivity. Qed.

Example float_of_int_max :
  float_of_int (2 ^ 1024 - 2 ^ 970 - 1) = Some 0x7FEFFFFFFFFFFFFF.
Proof. vm_compute. reflexivity. Qed.

Example float_of_int_overflow : float_of_int (2 ^ 1024 - 2 ^ 970) = None.
Proof. vm_compute. reflexivity. Qed.

Example range_step_16_8 : range_step 16 8 = [0; 8]%nat.
Proof. reflexivity. Qed.

(** ** Bytes and the checksum *)

Section Checksum.

Lemma lxor_is_byte a b : is_byte a -> is_byte b -> is_byte (Z.lxor a b).
Proof.
  unfold is_byte. intros [Ha Ha'] [Hb Hb']. split.
  - apply Z.lxor_nonneg. lia.
  - destruct (Z.eq_dec (Z.lxor a b) 0) as [->|Hne]; [lia|].
    assert (Hpos : 0 < Z.lxor a b) by (pose proof (proj2 (Z.lxor_nonneg a b)); lia).
    change 256 with (2 ^ 8). apply Z.log2_lt_pow2; [assumption|].
    pose proof (Z.log2_lxor a b Ha Hb) as Hl.
    assert (Z.log2 a < 8).
    { destruct (Z.eq_dec a 0) as [->|]; [cbn; lia|].
      apply Z.log2_lt_pow2; [lia|]. exact Ha'. }
    assert (Z.log2 b < 8).
    { destruct (Z.eq_dec b 0) as [->|]; [cbn; lia|].
      apply Z.log2_lt_pow2; [lia|]. exact Hb'. }
    lia.
Qed.

Lemma fold_lxor_acc l : forall a,
  fold_left Z.lxor l a = Z.lxor a (compute_checksum l).
Proof.
  unfold compute_checksum.
  induction l as [|b l IH]; intros a; cbn [fold_left].
  - now rewrite Z.lxor_0_r.
  - rewrite (IH (Z.lxor a b)), (IH (Z.lxor 0 b)).
    rewrite Z.lxor_0_l. now rewrite Z.lxor_assoc.
Qed.

Lemma compute_checksum_cons b l :
  compute_checksum (b :: l) = Z.lxor b (compute_checksum l).
Proof.
  unfold compute_checksum at 1. cbn [fold_left].
  rewrite fold_lxor_acc. now rewrite Z.lxor_0_l.
Qed.

Lemma compute_checksum_nil : compute_checksum [] = 0.
Proof. reflexivity. Qed.

Lemma compute_checksum_is_byte l :
  Forall is_byte l -> is_byte (compute_checksum l).
Proof.
  induction 1 as [|b l Hb _ IH].
  - cbv; split; [discriminate|reflexivity].
  - rewrite compute_checksum_cons. now apply lxor_is_byte.
Qed.

Lemma lxor_pow2_neq c bit : 0 <= bit -> Z.lxor c (2 ^ bit) <> c.
Proof.
  intros Hbit Heq.
  assert (H0 : 2 ^ bit = Z.lxor c (Z.lxor c (2 ^ bit))).
  { now rewrite <- Z.lxor_assoc, Z.lxor_nilpotent, Z.lxor_0_l. }
  rewrite Heq, Z.lxor_nilpotent in H0.
  pose proof (Z.pow_pos_nonneg 2 bit ltac:(lia) Hbit). lia.
Qed.

Lemma compute_checksum_flip_at l : forall i bit,
  (i < length l)%nat ->
  compute_checksum (flip_at i bit l) = Z.lxor (compute_checksum l) (2 ^ bit).
Proof.
  induction l as [|b l IH]; intros i bit Hi; cbn [length] in Hi; [lia|].
  destruct i as [|j]; cbn [flip_at]; rewrite !compute_checksum_cons.
  - rewrite !Z.lxor_assoc. f_equal. apply Z.lxor_comm.
  - rewrite IH by lia. now rewrite Z.lxor_assoc.
Qed.

End Checksum.

(** ** Slices of a frame *)

Section Slices.

Context {A : Type}.

Lemma slice_last_app (p : list A) (c : A) :
  slice_last checksum_format_size (p ++ [c]) = [c].
Proof.
  unfold slice_last, checksum_format_size.
  rewrite length_app. cbn [length].
  replace (length p + 1 - 1)%nat with (length p + 0)%nat by lia.
  rewrite skipn_app, Nat.add_0_r, skipn_all.
  replace (length p - length p)%nat with 0%nat by lia. reflexivity.
Qed.

Lemma slice_but_last_app (p : list A) (c : A) :
  slice_but_last checksum_format_size (p ++ [c]) = p.
Proof.
  unfold slice_but_last, checksum_format_size.
  rewrite length_app. cbn [length].
  replace (length p + 1 - 1)%nat with (length p) by lia.
  rewrite firstn_app, firstn_all.
  replace (length p - length p)%nat with 0%nat by lia.
  cbn. now rewrite app_nil_r.
Qed.

Lemma slice_middle (pre b post : list A) :
  slice (length pre) (length pre + length b) (pre ++ b ++ post) = b.
Proof.
  unfold slice.
  replace (length pre + length b - length pre)%nat with (length b) by lia.
  rewrite skipn_app, skipn_all, Nat.sub_diag. cbn [skipn app].
  rewrite firstn_app, firstn_all, Nat.sub_diag. cbn. now rewrite app_nil_r.
Qed.

End Slices.

(** ** Conversion of integers to doubles *)

Section FloatOfInt.

Lemma mantissa_small a e :
  0 < a -> e = Z.log2 a -> e <= 52 ->
  2 ^ 52 <= a * 2 ^ (52 - e) < 2 ^ 53.
Proof.
  intros Ha -> He.
  pose proof (Z.log2_spec a Ha) as [Hlo Hhi].
  pose proof (Z.log2_nonneg a) as Hnn.
  assert (Hp : 0 < 2 ^ (52 - Z.log2 a)) by (apply Z.pow_pos_nonneg; lia).
  replace (2 ^ 52) with (2 ^ Z.log2 a * 2 ^ (52 - Z.log2 a))
    by (rewrite <- Z.pow_add_r by lia; f_equal; lia).
  replace (2 ^ 53) with (2 ^ Z.succ (Z.log2 a) * 2 ^ (52 - Z.log2 a))
    by (rewrite <- Z.pow_add_r by lia; f_equal; lia).
  split.
  - apply Z.mul_le_mono_nonneg_r; lia.
  - apply Z.mul_lt_mono_pos_r; lia.
Qed.

Lemma mantissa_large a e :
  0 < a -> e = Z.log2 a -> 52 < e ->
  2 ^ 52 <= a / 2 ^ (e - 52) < 2 ^ 53.
Proof.
  intros Ha -> He.
  pose proof (Z.log2_spec a Ha) as [Hlo Hhi].
  assert (Hp : 0 < 2 ^ (Z.log2 a - 52)) by (apply Z.pow_pos_nonneg; lia).
  split.
  - apply Z.div_le_lower_bound; [assumption|].
    rewrite <- Z.pow_add_r by lia.
    replace (Z.log2 a - 52 + 52) with (Z.log2 a) by lia. assumption.
  - apply Z.div_lt_upper_bound; [assumption|].
    rewrite <- Z.pow_add_r by lia.
    replace (Z.log2 a - 52 + 53) with (Z.succ (Z.log2 a)) by lia. assumption.
Qed.

(** [float_of_int] gives a 64-bit pattern. *)
Lemma float_of_int_range n bits :
  float_of_int n = Some bits -> 0 <= bits < 2 ^ 64.
Proof.
  unfold float_of_int.
  destruct (Z.eqb_spec n 0) as [->|Hnz]; [intros [= <-]; lia|].
  assert (Hinj : forall x : Z, Some x = Some bits -> bits = x)
    by (intros x Hx; congruence).
  assert (Ha : 0 < Z.abs n) by lia.
  pose proof (Z.log2_nonneg (Z.abs n)) as Hnn.
  set (e := Z.log2 (Z.abs n)) in *.
  assert (Hsign : (if n <? 0 then 2 ^ 63 else 0) = 0
                  \/ (if n <? 0 then 2 ^ 63 else 0) = 2 ^ 63)
    by (destruct (n <? 0); auto).
  set (sign := if n <? 0 then 2 ^ 63 else 0) in *.
  assert (E52 : 2 ^ 52 = 4503599627370496) by reflexivity.
  assert (E53 : 2 ^ 53 = 9007199254740992) by reflexivity.
  assert (E63 : 2 ^ 63 = 9223372036854775808) by reflexivity.
  assert (E64 : 2 ^ 64 = 18446744073709551616) by reflexivity.
  destruct (Z.leb_spec e 52) as [Hsmall|Hlarge].
  - pose proof (mantissa_small (Z.abs n) e Ha eq_refl Hsmall) as Hm.
    intros Heq. rewrite (Hinj _ Heq). lia.
  - pose proof (mantissa_large (Z.abs n) e Ha eq_refl Hlarge) as Hq.
    set (q := Z.abs n / 2 ^ (e - 52)) in *.
    set (up := _ || _).
    destruct (Z.eqb_spec (if up then q + 1 else q) (2 ^ 53)) as [Hcarry|Hno].
    + destruct (Z.ltb_spec 1023 (e + 1)); [discriminate|].
      intros Heq. rewrite (Hinj _ Heq). lia.
    + destruct (Z.ltb_spec 1023 e); [discriminate|].
      intros Heq. rewrite (Hinj _ Heq). destruct up; lia.
Qed.

End FloatOfInt.

(** Under ['d'] an integer within the range of a double is carried as
    [float(n)]. *)
Lemma carries_d_int n bits :
  float_of_int n = Some bits -> carries fmt_d (VInt n) (VFloat bits).
Proof.
  intros Hf. split; [exact Hf | now apply float_of_int_range with n].
Qed.

(** ** [struct.pack] and [struct.unpack] *)

Section PackUnpack.

Lemma le_bytes_length n : forall x, length (le_bytes n x) = n.
Proof. induction n as [|n IH]; intros x; cbn; [reflexivity | now rewrite IH]. Qed.

Lemma le_bytes_is_byte n : forall x, Forall is_byte (le_bytes n x).
Proof.
  induction n as [|n IH]; intros x; cbn [le_bytes]; constructor.
  - unfold is_byte. apply Z.mod_pos_bound. lia.
  - apply IH.
Qed.

Lemma le_value_le_bytes n : forall x,
  0 <= x < 256 ^ Z.of_nat n -> le_value (le_bytes n x) = x.
Proof.
  induction n as [|n IH]; intros x Hx.
  - cbn in *. lia.
  - cbn [le_bytes le_value].
    rewrite Nat2Z.inj_succ, Z.pow_succ_r in Hx by lia.
    rewrite IH.
    + pose proof (Z.div_mod x 256). lia.
    + split.
      * apply Z.div_pos; lia.
      * apply Z.div_lt_upper_bound; lia.
Qed.

Lemma in_order_length e bs : length (in_order e bs) = length bs.
Proof. destruct e; cbn; [reflexivity | apply length_rev]. Qed.

Lemma in_order_is_byte e bs : Forall is_byte bs -> Forall is_byte (in_order e bs).
Proof.
  destruct e; cbn; [trivial|]. intros H.
  apply Forall_forall. intros b Hb. apply in_rev in Hb.
  revert b Hb. now apply Forall_forall.
Qed.

Lemma in_order_involutive e bs : in_order e (in_order e bs) = bs.
Proof. destruct e; cbn; [reflexivity | apply rev_involutive]. Qed.

(** A value that fits is carried unchanged. *)
Lemma fits_carries f v : fits f v -> carries f v v.
Proof.
  destruct f, v as [n|bits]; cbn [fits carries to_float]; intros H;
    try contradiction; split; auto.
Qed.

Lemma Forall_fits_carries f vs :
  Forall (fits f) vs -> Forall2 (carries f) vs vs.
Proof.
  induction 1 as [|v vs Hv _ IH]; constructor; [now apply fits_carries | exact IH].
Qed.

(** One value through [pack] and back. *)
Lemma pack_one_carries e f v v' :
  carries f v v' ->
  exists b, pack_one e f v = Some b
            /\ length b = calcsize f
            /\ Forall is_byte b
            /\ unpack_one e f b = Some v'.
Proof.
  destruct f, v' as [n|bits]; cbn [carries]; intros Hc; try contradiction.
  - destruct Hc as [-> Hrange].
    exists [n mod 256]. cbn [pack_one].
    replace ((-128 <=? n) && (n <=? 127)) with true
      by (symmetry; apply andb_true_intro; split; apply Z.leb_le; lia).
    repeat split.
    + constructor; [|constructor]. unfold is_byte. apply Z.mod_pos_bound. lia.
    + cbn [unpack_one]. do 2 f_equal.
      destruct (Z.ltb_spec (n mod 256) 128) as [Hlt|Hge].
      * destruct (Z_lt_dec n 0) as [Hneg|Hpos].
        -- rewrite <- (Z.mod_add n 1 256) in Hlt by lia.
           rewrite Z.mod_small in Hlt by lia. lia.
        -- apply Z.mod_small. lia.
      * destruct (Z_lt_dec n 0) as [Hneg|Hpos].
        -- rewrite <- (Z.mod_add n 1 256) by lia.
           rewrite Z.mod_small by lia. lia.
        -- rewrite Z.mod_small in Hge by lia. lia.
  - destruct Hc as [Hfloat Hrange].
    exists (in_order e (le_bytes 8 bits)).
    assert (Hp : pack_one e fmt_d v = Some (in_order e (le_bytes 8 bits)))
      by (destruct v; cbn [pack_one]; now rewrite Hfloat).
    repeat split; try assumption.
    + now rewrite in_order_length, le_bytes_length.
    + apply in_order_is_byte, le_bytes_is_byte.
    + cbn [unpack_one]. rewrite in_order_length, le_bytes_length. cbn [Nat.eqb].
      rewrite in_order_involutive, le_value_le_bytes; [reflexivity|].
      change (256 ^ Z.of_nat 8) with (2 ^ 64). exact Hrange.
Qed.

(** An array through [pack] and the list comprehension of the decoder,
    wherever the packed bytes sit in the received data. *)
Lemma pack_carries e f vs vs' :
  Forall2 (carries f) vs vs' ->
  exists packed,
    pack e f vs = Some packed
    /\ length packed = (length vs * calcsize f)%nat
    /\ Forall is_byte packed
    /\ forall pre post j,
         length pre = (j * calcsize f)%nat ->
         unpack_chunks e (Some f) (calcsize f) (pre ++ packed ++ post)
           (map (fun k => (k * calcsize f)%nat) (seq j (length vs))) = Some vs'.
Proof.
  induction 1 as [|v v' vs vs' Hv _ (packed & Hp & Hlen & Hbytes & Hchunks)].
  - exists []. cbn. repeat split; constructor.
  - destruct (pack_one_carries e f v v' Hv) as (b & Hb & Hblen & Hbbytes & Hub).
    exists (b ++ packed). cbn [pack]. rewrite Hb, Hp.
    repeat split.
    + rewrite length_app, Hblen, Hlen. cbn [length]. lia.
    + now apply Forall_app.
    + intros pre post j Hpre. cbn [length seq map unpack_chunks].
      rewrite <- app_assoc.
      replace (j * calcsize f)%nat with (length pre) by assumption.
      rewrite <- Hblen at 1. rewrite slice_middle, Hub.
      specialize (Hchunks (pre ++ b) post (S j)).
      rewrite <- app_assoc in Hchunks.
      rewrite Hchunks; [reflexivity|].
      rewrite length_app, Hpre, Hblen. lia.
Qed.

Lemma range_step_exact n size :
  (0 < size)%nat ->
  range_step (n * size) size = map (fun k => (k * size)%nat) (seq 0 n).
Proof.
  intros Hsize. unfold range_step. do 2 f_equal.
  replace (n * size + size - 1)%nat with (n * size + (size - 1))%nat by lia.
  rewrite Nat.div_add_l by lia. rewrite Nat.div_small by lia. lia.
Qed.

Lemma calcsize_pos f : (0 < calcsize f)%nat.
Proof. destruct f; cbn; lia. Qed.

(** A frame is the packed values followed by their checksum. *)
Lemma encode_frame_carries e f vs vs' :
  Forall2 (carries f) vs vs' ->
  exists packed,
    pack e f vs = Some packed
    /\ encode_frame e f vs = Some (packed ++ [compute_checksum packed])
    /\ length packed = (length vs * calcsize f)%nat.
Proof.
  intros Hcar.
  destruct (pack_carries e f vs vs' Hcar) as (packed & Hp & Hlen & Hbytes & _).
  exists packed. repeat split; try assumption.
  unfold encode_frame, add_checksum, pack_B. rewrite Hp.
  destruct (compute_checksum_is_byte packed Hbytes) as [H0 H1].
  replace ((0 <=? compute_checksum packed) && (compute_checksum packed <=? 255))
    with true; [reflexivity|].
  symmetry. apply andb_true_intro; split; apply Z.leb_le; lia.
Qed.

(** Whatever was encoded ends in the checksum of what comes before. *)
Lemma encode_frame_shape e f data frame :
  encode_frame e f data = Some frame ->
  exists packed, frame = packed ++ [compute_checksum packed].
Proof.
  unfold encode_frame, add_checksum, pack_B.
  destruct (pack e f data) as [packed|]; [|discriminate].
  destruct ((0 <=? compute_checksum packed) && (compute_checksum packed <=? 255));
    [|discriminate].
  intros [= <-]. now exists packed.
Qed.

End PackUnpack.

(** ** The decoder on a slot that holds a frame *)

Section Decoder.

Variable m : manager.

(** The frame of an array decodes to what the encoding carries of it, and
    the slot is cleared. *)
Lemma get_latest_received_encoded f vs vs' frame :
  Forall2 (carries f) vs vs' ->
  encode_frame (endian_specifier m) f vs = Some frame ->
  connected_output_datatype m = Some f ->
  connected_datatype_size m = Some (calcsize f) ->
  latest_recvd m = Some frame ->
  get_latest_received m = (Some vs', set_latest_recvd None m).
Proof.
  intros Hcar Henc Hdt Hsize Hslot.
  destruct (pack_carries (endian_specifier m) f vs vs' Hcar)
    as (packed & Hp & Hlen & Hbytes & Hchunks).
  destruct (encode_frame_carries (endian_specifier m) f vs vs' Hcar)
    as (packed' & Hp' & Henc' & _).
  rewrite Hp in Hp'. injection Hp' as <-.
  rewrite Henc in Henc'. injection Henc' as ->.
  unfold get_latest_received. rewrite Hslot.
  rewrite slice_last_app, slice_but_last_app. cbn [unpack_B].
  rewrite Z.eqb_refl. cbn [negb].
  rewrite Hsize, Hdt.
  pose proof (calcsize_pos f) as Hpos.
  destruct (Nat.eqb_spec (calcsize f) 0) as [H0|_]; [lia|].
  rewrite length_app. cbn [length]. unfold checksum_format_size.
  replace (length packed + 1 - 1)%nat with (length vs * calcsize f)%nat by lia.
  rewrite Nat.Div0.mod_mul. cbn [Nat.eqb negb].
  rewrite range_step_exact by assumption.
  specialize (Hchunks [] [compute_checksum packed] 0%nat eq_refl).
  cbn [app] in Hchunks. now rewrite Hchunks.
Qed.

(** A slot whose last byte is not the checksum of the rest. *)
Lemma get_latest_received_mismatch p c :
  latest_recvd m = Some (p ++ [c]) ->
  c <> compute_checksum p ->
  get_latest_received m = (None, m).
Proof.
  intros Hslot Hne. unfold get_latest_received. rewrite Hslot.
  rewrite slice_last_app, slice_but_last_app. cbn [unpack_B].
  destruct (Z.eqb_spec c (compute_checksum p)); [contradiction | reflexivity].
Qed.

(** The method either fails and changes nothing, or succeeds and clears
    the slot. *)
Lemma get_latest_received_cases :
  get_latest_received m = (None, m)
  \/ exists vs, get_latest_received m = (Some vs, set_latest_recvd None m).
Proof.
  unfold get_latest_received.
  destruct (latest_recvd m) as [full_data|]; [|now left].
  destruct (unpack_B _) as [c|]; [|now left].
  destruct (negb _); [now left|].
  destruct (connected_datatype_size m) as [size|]; [|now left].
  destruct (size =? 0)%nat; [now left|].
  destruct (negb _); [now left|].
  destruct (unpack_chunks _ _ _ _ _) as [vs|]; [|now left].
  right. now exists vs.
Qed.

End Decoder.

(** ** The receiver *)

Section Receiver.

Variable m : manager.

(** A turn of the receiver touches the slot and the peer address only. *)
Lemma receiver_turn_frame r :
  endian_specifier (receiver_turn m r) = endian_specifier m
  /\ connected_output_datatype (receiver_turn m r) = connected_output_datatype m
  /\ connected_datatype_size (receiver_turn m r) = connected_datatype_size m
  /\ send_bytes (receiver_turn m r) = send_bytes m
  /\ recv_bytes (receiver_turn m r) = recv_bytes m.
Proof.
  unfold receiver_turn, receive_data.
  destruct (network_protocol m) as [[|]|], (socket_type m) as [[|]|],
    (connected_socket m), (local_socket m), (recv_bytes m) as [n|] eqn:Hn, r
    as [[|b d] a|];
    cbn; try rewrite Hn; try (destruct (n <? 0)); cbn;
    try (destruct (negb _)); cbn; try rewrite Hn; auto.
Qed.

(** What is not of the negotiated size does not reach the slot. *)
Lemma receive_data_wrong_size n full_data addr :
  recv_bytes m = Some n ->
  Z.of_nat (length full_data) <> n ->
  fst (receive_data m (RecvData full_data addr)) = None.
Proof.
  intros Hn Hlen. unfold receive_data. rewrite Hn.
  destruct (match network_protocol m with Some TCP => _ | _ => _ end); [|reflexivity].
  destruct (n <? 0); [reflexivity|].
  destruct (Z.eqb_spec (Z.of_nat (length full_data)) n); [contradiction|].
  cbn [negb]. now rewrite orb_true_r.
Qed.

Lemma receiver_turn_rejected r :
  fst (receive_data m r) = None ->
  latest_recvd (receiver_turn m r) = latest_recvd m.
Proof.
  unfold receiver_turn. destruct (receive_data m r) as [[data|] m'] eqn:Hr;
    cbn [fst]; [discriminate|]. intros _.
  unfold receive_data in Hr.
  destruct (match network_protocol m with Some TCP => _ | _ => _ end);
    [|now injection Hr as <-].
  destruct (recv_bytes m) as [n|]; [|now injection Hr as <-].
  destruct r as [full_data addr|]; [|now injection Hr as <-].
  destruct (n <? 0); [now injection Hr as <-|].
  destruct (_ || _); [|discriminate].
  injection Hr as <-.
  destruct (network_protocol m) as [[|]|], (socket_type m) as [[|]|]; reflexivity.
Qed.

(** Bytes that [__receive_data] returns have the negotiated size and
    are written into the slot. *)
Lemma receiver_turn_accepted r data :
  fst (receive_data m r) = Some data ->
  exists addr,
    r = RecvData data addr
    /\ recv_bytes m = Some (Z.of_nat (length data))
    /\ data <> []
    /\ latest_recvd (receiver_turn m r) = Some data.
Proof.
  intros Hfst. unfold receiver_turn. unfold receive_data in *.
  destruct (match network_protocol m with Some TCP => _ | _ => _ end);
    [|discriminate].
  destruct (recv_bytes m) as [n|]; [|discriminate].
  destruct r as [full_data addr|]; [|discriminate].
  destruct (n <? 0); [discriminate|].
  destruct (length full_data =? 0)%nat eqn:Hz; [discriminate|].
  destruct (Z.eqb_spec (Z.of_nat (length full_data)) n) as [<-|]; [|discriminate].
  cbn in Hfst |- *. injection Hfst as <-.
  exists addr.
  destruct full_data as [|b d]; [discriminate|].
  repeat split; discriminate.
Qed.

(** The slot after a turn: the old content, or the bytes just received. *)
Lemma receiver_turn_slot r :
  latest_recvd (receiver_turn m r) = latest_recvd m
  \/ exists full_data addr,
       r = RecvData full_data addr
       /\ fst (receive_data m r) = Some full_data
       /\ recv_bytes m = Some (Z.of_nat (length full_data))
       /\ full_data <> []
       /\ latest_recvd (receiver_turn m r) = Some full_data.
Proof.
  destruct (fst (receive_data m r)) as [data|] eqn:Hfst;
    [|left; now apply receiver_turn_rejected].
  right. destruct (receiver_turn_accepted r data Hfst) as (addr & H1 & H2 & H3 & H4).
  now exists data, addr.
Qed.

(** Bytes of the negotiated size are written over whatever the slot
    holds. *)
Lemma receiver_turn_put full_data addr s :
  (match network_protocol m with
   | Some TCP => connected_socket m
   | _ => local_socket m
   end) = Some s ->
  recv_bytes m = Some (Z.of_nat (length full_data)) ->
  full_data <> [] ->
  fst (receive_data m (RecvData full_data addr)) = Some full_data
  /\ latest_recvd (receiver_turn m (RecvData full_data addr)) = Some full_data.
Proof.
  intros Hs Hn Hne. unfold receiver_turn, receive_data. rewrite Hs, Hn.
  destruct (Z.ltb_spec (Z.of_nat (length full_data)) 0); [lia|].
  rewrite Z.eqb_refl.
  destruct full_data as [|b d]; [contradiction|]. cbn.
  destruct (network_protocol m) as [[|]|], (socket_type m) as [[|]|]; auto.
Qed.

End Receiver.

Lemma continuous_data_receiver_recv_bytes rs : forall m,
  recv_bytes (continuous_data_receiver m rs) = recv_bytes m.
Proof.
  unfold continuous_data_receiver.
  induction rs as [|r rs IH]; intros m; cbn [fold_left]; [reflexivity|].
  rewrite IH. apply receiver_turn_frame.
Qed.

(** Whatever the receiver loop leaves in the slot was there before or is
    one of the received byte strings, of the negotiated size. *)
Lemma continuous_data_receiver_slot rs : forall m,
  latest_recvd (continuous_data_receiver m rs) = latest_recvd m
  \/ exists full_data addr,
       In (RecvData full_data addr) rs
       /\ recv_bytes m = Some (Z.of_nat (length full_data))
       /\ latest_recvd (continuous_data_receiver m rs) = Some full_data.
Proof.
  unfold continuous_data_receiver.
  induction rs as [|r rs IH]; intros m; cbn [fold_left]; [now left|].
  destruct (IH (receiver_turn m r)) as [Hsame | (d & a & Hin & Hn & Hslot)].
  - rewrite Hsame.
    destruct (receiver_turn_slot m r) as [Hold | (d & a & -> & _ & Hn & _ & Hnew)].
    + now left.
    + right. exists d, a. repeat split; [now left | assumption | assumption].
  - right. exists d, a. repeat split; [now right | | assumption].
    rewrite <- Hn. symmetry. apply receiver_turn_frame.
Qed.

Lemma flip_at_app p c : forall i bit,
  flip_at i bit (p ++ [c]) =
    if (i <? length p)%nat then flip_at i bit p ++ [c]
    else if (i =? length p)%nat then p ++ [Z.lxor c (2 ^ bit)]
    else p ++ [c].
Proof.
  induction p as [|b p IH]; intros i bit.
  - destruct i as [|[|j]]; reflexivity.
  - destruct i as [|j]; [reflexivity|].
    cbn [app flip_at length]. rewrite IH.
    change (S j <? S (length p))%nat with (j <? length p)%nat.
    change (S j =? S (length p))%nat with (j =? length p)%nat.
    destruct (j <? length p)%nat; [reflexivity|].
    destruct (j =? length p)%nat; reflexivity.
Qed.

Lemma flip_at_length l : forall i bit, length (flip_at i bit l) = length l.
Proof.
  induction l as [|b l IH]; intros [|j] bit; cbn; try reflexivity.
  now rewrite IH.
Qed.

(** ** FrameCodec: round trip and integrity *)

(** A frame sent by [send_data] and taken by the receiver of a peer that
    negotiated the same encoding and count is decoded to what the encoding
    carries of the array. *)
Lemma send_then_receive
    (s r : manager) (w : world) (f : format) (vs vs' : list value) (n : Z)
    (c l c' l' : sock) (dest src : address) :
  local_output_datatype s = Some f ->
  local_num_outputs s = Some n ->
  connected_socket s = Some c ->
  local_socket s = Some l ->
  connected_addr s = Some dest ->
  endian_specifier r = endian_specifier s ->
  connected_output_datatype r = Some f ->
  connected_datatype_size r = Some (calcsize f) ->
  recv_bytes r = Some (Z.of_nat (calcsize f) * n + Z.of_nat checksum_format_size) ->
  connected_socket r = Some c' ->
  local_socket r = Some l' ->
  Z.of_nat (length vs) = n ->
  Forall2 (carries f) vs vs' ->
  exists frame w',
    send_data vs s w = Returned frame s w'
    /\ encode_frame (endian_specifier s) f vs = Some frame
    /\ let r' := receiver_turn r (RecvData frame src) in
       get_latest_received r' = (Some vs', set_latest_recvd None r').
Proof.
  intros Hldt Hout Hc Hl Hdest Hend Hcdt Hsize Hrecv Hc' Hl' Hlen Hcar.
  destruct (encode_frame_carries (endian_specifier s) f vs vs' Hcar)
    as (packed & Hp & Henc & Hplen).
  set (frame := packed ++ [compute_checksum packed]) in *.
  assert (Hflen : Z.of_nat (length frame)
                  = Z.of_nat (calcsize f) * n + Z.of_nat checksum_format_size).
  { unfold frame. rewrite length_app, Hplen. cbn [length].
    unfold checksum_format_size. lia. }
  assert (Hsend : exists w', send_data vs s w = Returned frame s w').
  { unfold send_data, bind, self, the, ret, env.
    rewrite Hldt, Henc, Hc, Hl, Hdest.
    destruct (network_protocol s) as [[|]|]; eexists; reflexivity. }
  destruct Hsend as (w' & Hsend).
  exists frame, w'. repeat split; try assumption.
  cbv zeta.
  assert (Hne : frame <> []) by (unfold frame; destruct packed; discriminate).
  assert (Hsock : exists x,
             match network_protocol r with
             | Some TCP => connected_socket r
             | _ => local_socket r
             end = Some x).
  { rewrite Hc', Hl'. destruct (network_protocol r) as [[|]|]; eexists; reflexivity. }
  destruct Hsock as (x & Hx).
  rewrite <- Hflen in Hrecv.
  destruct (receiver_turn_put r frame src x Hx Hrecv Hne) as [_ Hslot].
  destruct (receiver_turn_frame r (RecvData frame src)) as (He & Hd & Hs & _).
  apply get_latest_received_encoded with (f := f) (vs := vs) (frame := frame);
    try assumption.
  - now rewrite He, Hend.
  - now rewrite Hd.
  - now rewrite Hs.
Qed.

(** C2. A frame built by [send_data] from an array of the negotiated
    outbound length whose values fit the negotiated encoding, received by a
    peer that negotiated the same encoding and count, is decoded by
    [get_latest_received] to the same array, value for value. *)
Theorem frame_roundtrip :
  forall (s r : manager) (w : world) (f : format) (vs : list value) (n : Z)
         (c l c' l' : sock) (dest src : address),
    local_output_datatype s = Some f ->
    local_num_outputs s = Some n ->
    connected_socket s = Some c ->
    local_socket s = Some l ->
    connected_addr s = Some dest ->
    endian_specifier r = endian_specifier s ->
    connected_output_datatype r = Some f ->
    connected_datatype_size r = Some (calcsize f) ->
    recv_bytes r = Some (Z.of_nat (calcsize f) * n + Z.of_nat checksum_format_size) ->
    connected_socket r = Some c' ->
    local_socket r = Some l' ->
    Z.of_nat (length vs) = n ->
    Forall (fits f) vs ->
    exists frame w',
      send_data vs s w = Returned frame s w'
      /\ encode_frame (endian_specifier s) f vs = Some frame
      /\ let r' := receiver_turn r (RecvData frame src) in
         get_latest_received r' = (Some vs, set_latest_recvd None r').
Proof.
  intros s r w f vs n c l c' l' dest src
         Hldt Hout Hc Hl Hdest Hend Hcdt Hsize Hrecv Hc' Hl' Hlen Hfits.
  apply send_then_receive with (n := n) (c := c) (l := l) (c' := c') (l' := l')
                               (dest := dest); try assumption.
  now apply Forall_fits_carries.
Qed.

Lemma frame_roundtrip_witness :
  exists frame w',
    send_data [VInt 5; VInt (-7)] client_ready (world_of client_session)
      = Returned frame client_ready w'
    /\ encode_frame (endian_specifier client_ready) fmt_b [VInt 5; VInt (-7)]
       = Some frame
    /\ let r' := receiver_turn server_ready
                   (RecvData frame ("10.0.0.2", 40000)%string) in
       get_latest_received r' = (Some [VInt 5; VInt (-7)], set_latest_recvd None r').
Proof.
  apply (frame_roundtrip client_ready server_ready (world_of client_session)
           fmt_b [VInt 5; VInt (-7)] 2 0%nat 0%nat 1%nat 0%nat
           ("10.0.0.1", 5111)%string ("10.0.0.2", 40000)%string);
    try reflexivity.
  repeat constructor; cbn; lia.
Defined.

(** The server of the session sends doubles; the integers 2 and -7 in its
    array reach the client as the floats 2.0 and -7.0. *)
Example server_frame_reaches_client :
  exists frame w',
    send_data [VFloat 0x3FF0000000000000; VInt 2; VInt (-7)] server_ready
      (world_of server_session) = Returned frame server_ready w'
    /\ fst (get_latest_received
              (receiver_turn client_ready
                 (RecvData frame ("10.0.0.1", 5111)%string)))
       = Some [VFloat 0x3FF0000000000000; VFloat 0x4000000000000000;
               VFloat 0xC01C000000000000].
Proof.
  destruct (send_then_receive server_ready client_ready (world_of server_session)
              fmt_d [VFloat 0x3FF0000000000000; VInt 2; VInt (-7)]
              [VFloat 0x3FF0000000000000; VFloat 0x4000000000000000;
               VFloat 0xC01C000000000000]
              3 1%nat 0%nat 0%nat 0%nat
              ("10.0.0.2", 40000)%string ("10.0.0.1", 5111)%string)
    as (frame & w' & Hsend & _ & Hget); try reflexivity.
  - repeat constructor; try apply carries_d_int; try reflexivity;
      cbn; lia.
  - exists frame, w'. split; [exact Hsend|]. cbv zeta in Hget. now rewrite Hget.
Qed.

(** C3. Whichever single bit of an encoded frame is flipped, payload or
    checksum byte, [get_latest_received] on the flipped frame returns
    [None] and hands out no array. *)
Theorem single_bit_flip_rejected :
  forall (m : manager) (e : endian) (f : format) (data : list value)
         (frame : bytes) (k : nat),
    encode_frame e f data = Some frame ->
    (k < 8 * length frame)%nat ->
    latest_recvd m = Some (flip_bit k frame) ->
    get_latest_received m = (None, m).
Proof.
  intros m e f data frame k Henc Hk Hslot.
  destruct (encode_frame_shape e f data frame Henc) as (p & ->).
  unfold flip_bit in Hslot. rewrite flip_at_app in Hslot.
  rewrite length_app in Hk. cbn [length] in Hk.
  assert (Hi : (k / 8 < length p + 1)%nat)
    by (apply Nat.Div0.div_lt_upper_bound; lia).
  assert (Hbit : 0 <= Z.of_nat (k mod 8)) by lia.
  destruct (Nat.ltb_spec (k / 8) (length p)) as [Hin|Hout].
  - apply get_latest_received_mismatch with (1 := Hslot).
    rewrite compute_checksum_flip_at by assumption.
    intros Heq. symmetry in Heq. now apply lxor_pow2_neq in Heq.
  - destruct (Nat.eqb_spec (k / 8) (length p)) as [_|Hne]; [|lia].
    apply get_latest_received_mismatch with (1 := Hslot).
    now apply lxor_pow2_neq.
Qed.

Lemma single_bit_flip_rejected_witness :
  get_latest_received
    (set_latest_recvd (Some (flip_bit 9 [5; 249; 252])) server_ready)
  = (None, set_latest_recvd (Some (flip_bit 9 [5; 249; 252])) server_ready).
Proof.
  apply (single_bit_flip_rejected _ Little fmt_b [VInt 5; VInt (-7)]
           [5; 249; 252] 9%nat).
  - reflexivity.
  - cbn. lia.
  - reflexivity.
Defined.

(** ** LatestValueCache *)

Lemma get_latest_received_some m vs m' :
  get_latest_received m = (Some vs, m') ->
  latest_recvd m <> None /\ m' = set_latest_recvd None m.
Proof.
  intros Hget. split.
  - intros Hnone. unfold get_latest_received in Hget.
    rewrite Hnone in Hget. discriminate.
  - destruct (get_latest_received_cases m) as [Hn | (vs' & Hs)];
      rewrite Hget in *; congruence.
Qed.

(** Every delivery uses up one arrival that was stored, or what the slot
    held at the start. *)
Lemma delivered_bound ops : forall m,
  (length (delivered m ops) <= stored m ops + occupied m)%nat.
Proof.
  induction ops as [|[r|] ops IH]; intros m; cbn [delivered stored length].
  - lia.
  - specialize (IH (receiver_turn m r)).
    enough (occupied (receiver_turn m r)
            <= match fst (receive_data m r) with
               | Some (_ :: _) => 1
               | _ => 0
               end + occupied m)%nat by lia.
    unfold occupied.
    destruct (receiver_turn_slot m r) as [-> | (d & a & _ & -> & _ & Hne & ->)].
    + lia.
    + destruct d; [contradiction|]. destruct (latest_recvd m); lia.
  - destruct (get_latest_received m) as [[vs|] m'] eqn:Hget; cbn [snd length].
    + destruct (get_latest_received_some m vs m' Hget) as [Hocc ->].
      specialize (IH (set_latest_recvd None m)).
      unfold occupied in *. cbn [latest_recvd set_latest_recvd] in IH.
      destruct (latest_recvd m); [lia | contradiction].
    + destruct (get_latest_received_cases m) as [Hn | (vs' & Hs)];
        rewrite Hget in *; [|discriminate].
      injection Hn as ->. apply IH.
Qed.

(** C4. On an empty slot [get_latest_received] returns [None]. After a
    valid frame has arrived, the first call returns its decoded array and
    clears the slot, so that the next call returns [None]. An arrival
    overwrites the slot whatever it held. Over any interleaving of
    arrivals and polls, there are no more deliveries than stored
    arrivals (plus what the slot held at the start). *)
Theorem latest_value_cache :
  forall (m : manager),
    (latest_recvd m = None -> get_latest_received m = (None, m))
    /\ (forall (f : format) (vs : list value) (frame : bytes) (addr : address)
               (c l : sock),
          connected_socket m = Some c ->
          local_socket m = Some l ->
          connected_output_datatype m = Some f ->
          connected_datatype_size m = Some (calcsize f) ->
          recv_bytes m = Some (Z.of_nat (length frame)) ->
          Forall (fits f) vs ->
          encode_frame (endian_specifier m) f vs = Some frame ->
          let m1 := receiver_turn m (RecvData frame addr) in
          let m2 := snd (get_latest_received m1) in
          fst (get_latest_received m1) = Some vs
          /\ latest_recvd m2 = None
          /\ get_latest_received m2 = (None, m2))
    /\ (forall (full_data : bytes) (addr : address),
          fst (receive_data m (RecvData full_data addr)) = Some full_data ->
          latest_recvd (receiver_turn m (RecvData full_data addr))
          = Some full_data)
    /\ (forall ops : list cache_op,
          (length (delivered m ops) <= stored m ops + occupied m)%nat).
Proof.
  intros m. split; [|split; [|split]].
  - intros Hnone. unfold get_latest_received. now rewrite Hnone.
  - intros f vs frame addr c l Hc Hl Hdt Hsize Hrecv Hfits Henc m1 m2.
    assert (Hne : frame <> []).
    { destruct (encode_frame_shape _ _ _ _ Henc) as (p & ->).
      destruct p; discriminate. }
    assert (Hsock : exists x,
               match network_protocol m with
               | Some TCP => connected_socket m
               | _ => local_socket m
               end = Some x).
    { rewrite Hc, Hl. destruct (network_protocol m) as [[|]|]; eexists; reflexivity. }
    destruct Hsock as (x & Hx).
    destruct (receiver_turn_put m frame addr x Hx Hrecv Hne) as [_ Hslot].
    destruct (receiver_turn_frame m (RecvData frame addr)) as (He & Hd & Hs & _).
    fold m1 in Hslot, He, Hd, Hs.
    assert (Hget : get_latest_received m1 = (Some vs, set_latest_recvd None m1)).
    { apply get_latest_received_encoded with (f := f) (vs := vs) (frame := frame);
        try assumption; try congruence.
      now apply Forall_fits_carries. }
    subst m2. rewrite Hget. cbn [fst snd]. repeat split.
  - intros full_data addr Hacc.
    now destruct (receiver_turn_accepted m _ _ Hacc) as (a & _ & _ & _ & Hnew).
  - intros ops. apply delivered_bound.
Qed.

Lemma latest_value_cache_witness :
  get_latest_received server_ready = (None, server_ready)
  /\ let m1 := receiver_turn server_ready
                 (RecvData [5; 249; 252] ("10.0.0.2", 40000)%string) in
     let m2 := snd (get_latest_received m1) in
     fst (get_latest_received m1) = Some [VInt 5; VInt (-7)]
     /\ latest_recvd m2 = None
     /\ get_latest_received m2 = (None, m2).
Proof.
  destruct (latest_value_cache server_ready) as (Hempty & Hone & _).
  split.
  - apply Hempty. reflexivity.
  - apply (Hone fmt_b [VInt 5; VInt (-7)] [5; 249; 252]
             ("10.0.0.2", 40000)%string 1%nat 0%nat); try reflexivity.
    repeat constructor; cbn; lia.
Defined.

(** C5. Received bytes whose length is not the inbound frame size
    ([recv_bytes]) make [__receive_data] return [None] and do not reach
    the slot, so that decoding yields nothing from them; an array that
    [get_latest_received] returns after the receiver loop has run on an
    empty slot was decoded from received bytes of exactly that size. *)
Theorem wrong_size_is_no_value :
  forall (m : manager) (n : Z),
    recv_bytes m = Some n ->
    (forall (full_data : bytes) (addr : address),
        Z.of_nat (length full_data) <> n ->
        let m' := receiver_turn m (RecvData full_data addr) in
        fst (receive_data m (RecvData full_data addr)) = None
        /\ latest_recvd m' = latest_recvd m
        /\ (latest_recvd m = None -> get_latest_received m' = (None, m')))
    /\ (forall (rs : list recv_result) (vs : list value) (m' : manager),
          latest_recvd m = None ->
          get_latest_received (continuous_data_receiver m rs) = (Some vs, m') ->
          exists full_data addr,
            In (RecvData full_data addr) rs
            /\ Z.of_nat (length full_data) = n
            /\ latest_recvd (continuous_data_receiver m rs) = Some full_data).
Proof.
  intros m n Hn. split.
  - intros full_data addr Hlen m'.
    pose proof (receive_data_wrong_size m n full_data addr Hn Hlen) as Hrej.
    pose proof (receiver_turn_rejected m _ Hrej) as Hkeep.
    repeat split; try assumption.
    intros Hnone. subst m'. unfold get_latest_received.
    now rewrite Hkeep, Hnone.
  - intros rs vs m' Hnone Hget.
    destruct (get_latest_received_some _ _ _ Hget) as [Hocc _].
    destruct (continuous_data_receiver_slot rs m)
      as [Hsame | (d & a & Hin & Hsize & Hslot)].
    + rewrite Hsame, Hnone in Hocc. contradiction.
    + exists d, a. repeat split; try assumption.
      rewrite Hn in Hsize. now injection Hsize.
Qed.

Lemma wrong_size_is_no_value_witness :
  let m' := receiver_turn server_ready
              (RecvData [5; 249] ("10.0.0.2", 40000)%string) in
  fst (receive_data server_ready (RecvData [5; 249] ("10.0.0.2", 40000)%string))
  = None
  /\ latest_recvd m' = latest_recvd server_ready
  /\ (latest_recvd server_ready = None -> get_latest_received m' = (None, m')).
Proof.
  destruct (wrong_size_is_no_value server_ready 3 eq_refl) as [Hshort _].
  apply Hshort. cbn. lia.
Defined.

(** C10. With a frame in the slot, [get_latest_received] returns [None]
    exactly when decoding fails (checksum mismatch, payload length not a
    multiple of the element width, or an exception while unpacking), and
    then the object, the slot included, is as before; otherwise it returns
    the array and clears the slot. *)
Theorem failed_decode_keeps_slot :
  forall (m : manager) (full_data : bytes),
    latest_recvd m = Some full_data ->
    (decode_failure m full_data -> get_latest_received m = (None, m))
    /\ (fst (get_latest_received m) = None -> decode_failure m full_data)
    /\ (forall vs, fst (get_latest_received m) = Some vs ->
                   snd (get_latest_received m) = set_latest_recvd None m).
Proof.
  intros m full_data Hslot. split; [|split].
  - intros Hfail. unfold get_latest_received. rewrite Hslot.
    destruct Hfail as [c Hc Hne | size Hsize Hmod | Hraise].
    + rewrite Hc. now destruct (Z.eqb_spec c (compute_checksum
        (slice_but_last checksum_format_size full_data))).
    + destruct (unpack_B _); [|reflexivity].
      destruct (negb _); [reflexivity|].
      rewrite Hsize.
      destruct (size =? 0)%nat; [reflexivity|].
      now destruct (Nat.eqb_spec
        ((length full_data - checksum_format_size) mod size) 0).
    + destruct (unpack_B _) as [c|] eqn:Hc; [|reflexivity].
      destruct (negb _); [reflexivity|].
      destruct Hraise as [H | [H | [H | (size & Hs & Hu)]]].
      * discriminate.
      * now rewrite H.
      * now rewrite H.
      * rewrite Hs, Hu.
        destruct (size =? 0)%nat; [reflexivity|].
        now destruct (negb _).
  - unfold get_latest_received. rewrite Hslot.
    destruct (unpack_B _) as [c|] eqn:Hc;
      [|intros _; apply UnpackRaises; now left].
    destruct (Z.eqb_spec c (compute_checksum
                (slice_but_last checksum_format_size full_data))) as [Heq|Hne];
      cbn [negb]; [|intros _; now apply ChecksumMismatch with c].
    destruct (connected_datatype_size m) as [size|] eqn:Hs;
      [|intros _; apply UnpackRaises; right; now left].
    destruct (Nat.eqb_spec size 0) as [->|Hnz];
      [intros _; apply UnpackRaises; right; right; now left|].
    destruct (Nat.eqb_spec ((length full_data - checksum_format_size) mod size) 0)
      as [Hmod|Hmod]; cbn [negb];
      [|intros _; now apply LengthNotMultiple with size].
    destruct (unpack_chunks _ _ _ _ _) eqn:Hu; cbn [fst]; [discriminate|].
    intros _. apply UnpackRaises. do 3 right. now exists size.
  - intros vs Hsome.
    destruct (get_latest_received_cases m) as [Hn | (vs' & Hs)].
    + rewrite Hn in Hsome. discriminate.
    + now rewrite Hs.
Qed.

Lemma failed_decode_keeps_slot_witness :
  get_latest_received (set_latest_recvd (Some [5; 249; 0]) server_ready)
  = (None, set_latest_recvd (Some [5; 249; 0]) server_ready).
Proof.
  destruct (failed_decode_keeps_slot
              (set_latest_recvd (Some [5; 249; 0]) server_ready)
              [5; 249; 0] eq_refl) as (Hfail & _).
  apply Hfail. apply ChecksumMismatch with 0.
  - reflexivity.
  - cbn. discriminate.
Defined.

(** ** HandshakeProtocol *)

Section Handshake.

Lemma recv_ints_ok s c k m w :
  s = Some c ->
  (k <= length (inbox w))%nat ->
  recv_ints s k m w
  = Returned (firstn k (inbox w)) m (set_inbox (skipn k (inbox w)) w).
Proof.
  intros -> Hk. unfold recv_ints, bind, the, ret.
  destruct (Nat.leb_spec k (length (inbox w))); [reflexivity | lia].
Qed.

Lemma send_ints_ok s h values msg m w :
  pack_i values = Some msg ->
  s = Some h ->
  send_ints s values m w = Returned tt m (log_call (SendInts h msg) w).
Proof. intros Hp ->. unfold send_ints. now rewrite Hp. Qed.

Lemma pack_i_fits ns :
  Forall (fun n => fits_i n = true) ns -> pack_i (map Some ns) = Some ns.
Proof.
  induction 1 as [|n ns Hn _ IH]; cbn; [reflexivity|]. now rewrite Hn, IH.
Qed.

Lemma Forall_take {A} (P : A -> Prop) n : forall l,
  Forall P l -> Forall P (firstn n l).
Proof.
  induction n as [|n IH]; intros l Hl; [constructor|].
  destruct Hl as [|x l Hx Hl]; cbn [firstn]; constructor; auto.
Qed.

Lemma prepare_extra_args_fits kwargs n :
  Forall (fun kv => fits_i (snd kv) = true) kwargs ->
  Forall (fun x => fits_i x = true) (prepare_extra_args kwargs n).
Proof.
  intros Hkw. unfold prepare_extra_args. apply Forall_app. split.
  - apply Forall_take. apply Forall_map. exact Hkw.
  - apply Forall_forall. intros x Hx. apply repeat_spec in Hx. now subst.
Qed.

Lemma prepare_extra_args_length kwargs n :
  length (prepare_extra_args kwargs n) = n.
Proof.
  unfold prepare_extra_args.
  rewrite length_app, repeat_length, length_firstn. lia.
Qed.

(** [__receive_extra_args] takes the next [n] integers of the peer. *)
Lemma receive_extra_args_ok n : forall m w c,
  connected_socket m = Some c ->
  (n <= length (inbox w))%nat ->
  receive_extra_args n m w
  = Returned (firstn n (inbox w)) m (set_inbox (skipn n (inbox w)) w).
Proof.
  induction n as [|n IH]; intros m w c Hc Hn.
  - destruct w. reflexivity.
  - cbn [receive_extra_args]. unfold bind at 1, self.
    unfold bind at 1.
    rewrite (recv_ints_ok _ c 1 m w Hc) by lia.
    unfold bind at 1.
    destruct (inbox w) as [|x rest] eqn:Hin; cbn [length] in Hn; [lia|].
    rewrite (IH m _ c Hc) by (cbn; lia).
    reflexivity.
Qed.

End Handshake.

Section HandshakeRuns.

Variables (m : manager) (w : world).
Variables (lid lin lout : Z) (c : sock).

Hypothesis Hc : connected_socket m = Some c.
Hypothesis Hid : local_id_number m = Some lid.
Hypothesis Hin : local_num_inputs m = Some lin.
Hypothesis Hout : local_num_outputs m = Some lout.
Hypothesis Hfit : fits_i lid = true /\ fits_i lin = true /\ fits_i lout = true.

(** The common tail: the sizes of the session. *)
Lemma handshake_sizes_ok local_dt connected_dt ro extra :
  local_output_datatype m = Some local_dt ->
  connected_output_datatype m = Some connected_dt ->
  recvd_num_outputs m = Some ro ->
  handshake_sizes extra m w
  = Returned (HsDone connected_dt extra)
      (set_recv_bytes
         (Some (Z.of_nat (calcsize connected_dt) * ro
                + Z.of_nat checksum_format_size))
         (set_send_bytes
            (Some (Z.of_nat (calcsize local_dt) * lout
                   + Z.of_nat checksum_format_size))
            (set_connected_datatype_size (Some (calcsize connected_dt))
               (set_local_datatype_size (Some (calcsize local_dt)) m))))
      w.
Proof.
  intros Hl Hcd Hro. unfold handshake_sizes, bind, self, the, assign, ret.
  now rewrite Hl, Hcd, Hout, Hro.
Qed.

(** Server, counts that do not match: [return False] before anything is
    sent. *)
Lemma handshake_server_mismatch code n kwargs id outs ins rest :
  inbox w = id :: outs :: ins :: rest ->
  (ins =? lout) && (outs =? lin) = false ->
  handshake_server code n kwargs m w
  = Returned None
      (set_recvd_num_inputs (Some ins)
         (set_recvd_num_outputs (Some outs)
            (set_recvd_id_number (Some id) m)))
      (set_inbox rest w).
Proof.
  intros Hinbox Hmis. unfold handshake_server.
  unfold bind at 1, self. unfold bind at 1.
  rewrite (recv_ints_ok _ c 3 m w Hc) by (rewrite Hinbox; cbn; lia).
  rewrite Hinbox. cbn [firstn skipn].
  unfold bind, assign, self, ret.
  cbn [recvd_num_inputs recvd_num_outputs local_num_outputs local_num_inputs
       set_recvd_id_number set_recvd_num_outputs set_recvd_num_inputs].
  rewrite Hout, Hin. cbn [py_eq]. now rewrite Hmis.
Qed.

(** Server, matching counts, peer "Mevea": three integers in, three
    integers out. *)
Lemma handshake_server_mevea code n kwargs id rest :
  inbox w = id :: lin :: lout :: rest ->
  id_numbers_get id_numbers id "Undefined" = "Mevea"%string ->
  handshake_server code n kwargs m w
  = Returned (Some ("Mevea"%string, None))
      (set_connected_output_datatype (Some fmt_d)
         (set_local_output_datatype (Some fmt_d)
            (set_recvd_num_inputs (Some lout)
               (set_recvd_num_outputs (Some lin)
                  (set_recvd_id_number (Some id) m)))))
      (log_call (SendInts c [lid; lin; lout]) (set_inbox rest w)).
Proof.
  intros Hinbox Hname. unfold handshake_server.
  unfold bind at 1, self. unfold bind at 1.
  rewrite (recv_ints_ok _ c 3 m w Hc) by (rewrite Hinbox; cbn; lia).
  rewrite Hinbox. cbn [firstn skipn]. rewrite Hname.
  unfold bind, assign, self, ret.
  cbn [recvd_num_inputs recvd_num_outputs local_num_outputs local_num_inputs
       local_id_number connected_socket
       set_recvd_id_number set_recvd_num_outputs set_recvd_num_inputs
       set_local_output_datatype set_connected_output_datatype fst snd].
  rewrite Hout, Hin. cbn [py_eq]. rewrite !Z.eqb_refl.
  cbn [andb negb]. rewrite String.eqb_refl. cbv beta.
  cbn [local_id_number local_num_inputs local_num_outputs connected_socket
       set_recvd_id_number set_recvd_num_outputs set_recvd_num_inputs
       set_local_output_datatype set_connected_output_datatype fst snd].
  rewrite Hout, Hin, Hid, Hc.
  destruct Hfit as (F1 & F2 & F3).
  unfold send_ints. cbn [pack_i]. rewrite F1, F2, F3.
  reflexivity.
Qed.

(** Server, matching counts, another peer: the datatype code and [n]
    extra arguments in, the full response out. *)
Lemma handshake_server_other code n kwargs id peer_code extras rest :
  inbox w = id :: lin :: lout :: peer_code :: extras ++ rest ->
  length extras = n ->
  String.eqb (id_numbers_get id_numbers id "Undefined") "Mevea" = false ->
  fits_i code = true ->
  Forall (fun kv => fits_i (snd kv) = true) kwargs ->
  handshake_server code n kwargs m w
  = Returned (Some (id_numbers_get id_numbers id "Undefined", Some extras))
      (set_connected_output_datatype
         (Some (if peer_code =? 0 then fmt_b else fmt_d))
         (set_recvd_num_inputs (Some lout)
            (set_recvd_num_outputs (Some lin)
               (set_recvd_id_number (Some id) m))))
      (log_call
         (SendInts c ([lid; lin; lout; code] ++ prepare_extra_args kwargs n))
         (set_inbox rest w)).
Proof.
  intros Hinbox Hlen Hname Hcode Hkw. unfold handshake_server.
  unfold bind at 1, self. unfold bind at 1.
  rewrite (recv_ints_ok _ c 3 m w Hc) by (rewrite Hinbox; cbn; lia).
  rewrite Hinbox. cbn [firstn skipn]. rewrite Hname.
  unfold bind at 1, assign. unfold bind at 1. unfold bind at 1.
  unfold bind at 1, self.
  cbn [recvd_num_inputs recvd_num_outputs local_num_outputs local_num_inputs
       set_recvd_id_number set_recvd_num_outputs set_recvd_num_inputs].
  rewrite Hout, Hin. cbn [py_eq]. rewrite !Z.eqb_refl. cbn [andb negb].
  unfold bind at 1. unfold bind at 1.
  unfold receive_datatype_and_extra_args.
  unfold bind at 1, self. unfold bind at 1.
  match goal with
  | |- context [recv_ints ?s 1 ?m' ?w'] =>
      rewrite (recv_ints_ok s c 1 m' w') by (try exact Hc; cbn; lia)
  end.
  cbn [inbox set_inbox firstn skipn].
  unfold bind at 1, assign.
  match goal with
  | |- context [receive_extra_args n ?m' ?w'] =>
      rewrite (receive_extra_args_ok n m' w' c)
        by (try exact Hc; cbn [inbox set_inbox]; rewrite length_app; lia)
  end.
  cbn [inbox set_inbox]. rewrite <- Hlen.
  rewrite firstn_app, firstn_all, Nat.sub_diag, firstn_0, app_nil_r.
  rewrite skipn_app, skipn_all, Nat.sub_diag, skipn_0. cbn [app].
  unfold bind, self, ret.
  cbn [local_id_number local_num_inputs local_num_outputs connected_socket
       set_connected_output_datatype set_recvd_id_number set_recvd_num_outputs
       set_recvd_num_inputs fst snd].
  rewrite Hid, Hin, Hout, Hc.
  destruct Hfit as (F1 & F2 & F3).
  erewrite send_ints_ok; [reflexivity | | reflexivity].
  rewrite Hlen.
  apply (pack_i_fits (lid :: lin :: lout :: code :: prepare_extra_args kwargs n)).
  repeat (constructor; [assumption|]).
  now apply prepare_extra_args_fits.
Qed.

End HandshakeRuns.

Section ClientRuns.

Variables (m : manager) (w : world).
Variables (lid lin lout : Z) (c l : sock).

Hypothesis Hc : connected_socket m = Some c.
Hypothesis Hl : local_socket m = Some l.
Hypothesis Hid : local_id_number m = Some lid.
Hypothesis Hin : local_num_inputs m = Some lin.
Hypothesis Hout : local_num_outputs m = Some lout.
Hypothesis Hfit : fits_i lid = true /\ fits_i lin = true /\ fits_i lout = true.

Variables (code : Z) (n : nat) (kwargs : list (string * Z)).

Hypothesis Hcode : fits_i code = true.
Hypothesis Hkw : Forall (fun kv => fits_i (snd kv) = true) kwargs.


Lemma client_hello_packs :
  pack_i ([Some lid; Some lout; Some lin; Some code]
            ++ map Some (prepare_extra_args kwargs n))
  = Some (client_hello lid lin lout code kwargs n).
Proof.
  destruct Hfit as (F1 & F2 & F3).
  apply (pack_i_fits (lid :: lout :: lin :: code :: prepare_extra_args kwargs n)).
  repeat (constructor; [assumption|]).
  now apply prepare_extra_args_fits.
Qed.

(** Client, peer "Mevea": the hello goes out in full, three integers
    come in. *)
Lemma handshake_client_mevea id ins outs rest :
  inbox w = id :: ins :: outs :: rest ->
  id_numbers_get id_numbers id "Undefined" = "Mevea"%string ->
  handshake_client code n kwargs m w
  = Returned ("Mevea"%string, None)
      (set_connected_output_datatype (Some fmt_d)
         (set_local_output_datatype (Some fmt_d)
            (set_recvd_num_outputs (Some outs)
               (set_recvd_num_inputs (Some ins)
                  (set_recvd_id_number (Some id) m)))))
      (set_inbox rest
         (log_call (SendInts l (client_hello lid lin lout code kwargs n)) w)).
Proof.
  intros Hinbox Hname. unfold handshake_client.
  unfold bind at 1, self. unfold bind at 1.
  rewrite Hid, Hin, Hout.
  rewrite (send_ints_ok _ l _ _ m w client_hello_packs Hl).
  unfold bind at 1.
  rewrite (recv_ints_ok _ c 3 m _ Hc)
    by (cbn [inbox log_call]; rewrite Hinbox; cbn; lia).
  cbn [inbox log_call]. rewrite Hinbox. cbn [firstn skipn]. rewrite Hname.
  rewrite String.eqb_refl.
  unfold bind, assign, ret. reflexivity.
Qed.

(** Client, another peer: the datatype code and [n] extra arguments
    follow the three integers. *)
Lemma handshake_client_other id ins outs peer_code extras rest :
  inbox w = id :: ins :: outs :: peer_code :: extras ++ rest ->
  length extras = n ->
  String.eqb (id_numbers_get id_numbers id "Undefined") "Mevea" = false ->
  handshake_client code n kwargs m w
  = Returned (id_numbers_get id_numbers id "Undefined", Some extras)
      (set_connected_output_datatype
         (Some (if peer_code =? 0 then fmt_b else fmt_d))
         (set_recvd_num_outputs (Some outs)
            (set_recvd_num_inputs (Some ins)
               (set_recvd_id_number (Some id) m))))
      (set_inbox rest
         (log_call (SendInts l (client_hello lid lin lout code kwargs n)) w)).
Proof.
  intros Hinbox Hlen Hname. unfold handshake_client.
  unfold bind at 1, self. unfold bind at 1.
  rewrite Hid, Hin, Hout.
  rewrite (send_ints_ok _ l _ _ m w client_hello_packs Hl).
  unfold bind at 1.
  rewrite (recv_ints_ok _ c 3 m _ Hc)
    by (cbn [inbox log_call]; rewrite Hinbox; cbn; lia).
  cbn [inbox log_call]. rewrite Hinbox. cbn [firstn skipn]. rewrite Hname.
  unfold bind at 1, assign. unfold bind at 1. unfold bind at 1.
  unfold bind at 1.
  unfold receive_datatype_and_extra_args.
  unfold bind at 1, self. unfold bind at 1.
  match goal with
  | |- context [recv_ints ?s 1 ?m' ?w'] =>
      rewrite (recv_ints_ok s c 1 m' w') by (try exact Hc; cbn; lia)
  end.
  cbn [inbox set_inbox firstn skipn].
  unfold bind at 1, assign.
  match goal with
  | |- context [receive_extra_args n ?m' ?w'] =>
      rewrite (receive_extra_args_ok n m' w' c)
        by (try exact Hc; cbn [inbox set_inbox]; rewrite length_app; lia)
  end.
  cbn [inbox set_inbox]. rewrite <- Hlen.
  rewrite firstn_app, firstn_all, Nat.sub_diag, firstn_0, app_nil_r.
  rewrite skipn_app, skipn_all, Nat.sub_diag, skipn_0. cbn [app].
  reflexivity.
Qed.

End ClientRuns.

Lemma local_datatype_code_fits local_datatype :
  fits_i (datatype_encoding_get datatype_encoding local_datatype 1) = true.
Proof.
  unfold datatype_encoding, datatype_encoding_get.
  destruct (String.eqb "int" local_datatype); [reflexivity|].
  destruct (String.eqb "double" local_datatype); reflexivity.
Qed.

(** In the server role the counts decide: a peer whose declared counts do
    not mirror the local ones gets [False], before anything is sent and
    without frame sizes being set. *)
Lemma server_handshake_rejects_mismatch
    (m : manager) (w : world) (lin lout : Z) (c : sock)
    (local_datatype : string) (n : nat) (kwargs : list (string * Z))
    (id outs ins : Z) (rest : list Z) :
  socket_type m = Some Server ->
  connected_socket m = Some c ->
  local_num_inputs m = Some lin ->
  local_num_outputs m = Some lout ->
  inbox w = id :: outs :: ins :: rest ->
  ~ (ins = lout /\ outs = lin) ->
  exists m',
    handshake local_datatype n kwargs m w = Returned HsFalse m' (set_inbox rest w)
    /\ send_bytes m' = send_bytes m
    /\ recv_bytes m' = recv_bytes m.
Proof.
  intros Hrole Hc Hin Hout Hinbox Hmis.
  unfold handshake. unfold bind at 1, assign. unfold bind at 1, self.
  cbn [socket_type set_local_output_datatype]. rewrite Hrole.
  unfold bind at 1.
  erewrite (handshake_server_mismatch (set_local_output_datatype _ m) w
              lin lout c Hc Hin Hout).
  - eexists. split; [reflexivity|]. split; reflexivity.
  - exact Hinbox.
  - destruct (Z.eqb_spec ins lout), (Z.eqb_spec outs lin); cbn; tauto.
Qed.

(** In the server role matching counts from a peer other than "Mevea"
    complete the handshake. *)
Lemma server_handshake_accepts_match
    (m : manager) (w : world) (lid lin lout : Z) (c : sock)
    (local_datatype : string) (n : nat) (kwargs : list (string * Z))
    (id peer_code : Z) (extras rest : list Z) :
  socket_type m = Some Server ->
  connected_socket m = Some c ->
  local_id_number m = Some lid ->
  local_num_inputs m = Some lin ->
  local_num_outputs m = Some lout ->
  fits_i lid = true /\ fits_i lin = true /\ fits_i lout = true ->
  Forall (fun kv => fits_i (snd kv) = true) kwargs ->
  inbox w = id :: lin :: lout :: peer_code :: extras ++ rest ->
  length extras = n ->
  String.eqb (id_numbers_get id_numbers id "Undefined") "Mevea" = false ->
  exists m' w',
    handshake local_datatype n kwargs m w
    = Returned (HsDone (if peer_code =? 0 then fmt_b else fmt_d) (Some extras)) m' w'
    /\ recv_bytes m'
       = Some (Z.of_nat (calcsize (if peer_code =? 0 then fmt_b else fmt_d)) * lin
               + Z.of_nat checksum_format_size).
Proof.
  intros Hrole Hc Hid Hin Hout Hfit Hkw Hinbox Hlen Hname.
  unfold handshake. unfold bind at 1, assign. unfold bind at 1, self.
  cbn [socket_type set_local_output_datatype]. rewrite Hrole.
  unfold bind at 1.
  erewrite (handshake_server_other (set_local_output_datatype _ m) w
              lid lin lout c Hc Hid Hin Hout Hfit);
    [| exact Hinbox | exact Hlen | exact Hname
     | apply local_datatype_code_fits | exact Hkw].
  erewrite handshake_sizes_ok; [| exact Hout | reflexivity | reflexivity | reflexivity].
  do 2 eexists. split; reflexivity.
Qed.

(** C1 (the part the code does not keep). In the client role the counts
    the peer declares are stored and never compared with the local ones:
    whatever they are, the handshake completes and the frame sizes are
    computed from them. *)
Theorem client_handshake_ignores_counts :
  forall (m : manager) (w : world) (lid lin lout : Z) (c l : sock)
         (local_datatype : string) (n : nat) (kwargs : list (string * Z))
         (id ins outs peer_code : Z) (extras rest : list Z),
    socket_type m = Some Client ->
    connected_socket m = Some c ->
    local_socket m = Some l ->
    local_id_number m = Some lid ->
    local_num_inputs m = Some lin ->
    local_num_outputs m = Some lout ->
    fits_i lid = true /\ fits_i lin = true /\ fits_i lout = true ->
    Forall (fun kv => fits_i (snd kv) = true) kwargs ->
    inbox w = id :: ins :: outs :: peer_code :: extras ++ rest ->
    length extras = n ->
    String.eqb (id_numbers_get id_numbers id "Undefined") "Mevea" = false ->
    exists m' w',
      handshake local_datatype n kwargs m w
      = Returned (HsDone (if peer_code =? 0 then fmt_b else fmt_d) (Some extras))
          m' w'
      /\ recvd_num_inputs m' = Some ins
      /\ recvd_num_outputs m' = Some outs
      /\ recv_bytes m'
         = Some (Z.of_nat (calcsize (if peer_code =? 0 then fmt_b else fmt_d)) * outs
                 + Z.of_nat checksum_format_size).
Proof.
  intros m w lid lin lout c l local_datatype n kwargs id ins outs peer_code
         extras rest Hrole Hc Hl Hid Hin Hout Hfit Hkw Hinbox Hlen Hname.
  unfold handshake. unfold bind at 1, assign. unfold bind at 1, self.
  cbn [socket_type set_local_output_datatype]. rewrite Hrole.
  unfold bind at 1.
  erewrite (handshake_client_other (set_local_output_datatype _ m) w
              lid lin lout c l Hc Hl Hid Hin Hout Hfit);
    [| apply local_datatype_code_fits | exact Hkw
     | exact Hinbox | exact Hlen | exact Hname].
  cbn [snd].
  erewrite handshake_sizes_ok; [| exact Hout | reflexivity | reflexivity | reflexivity].
  do 2 eexists. repeat split; reflexivity.
Qed.

(** The failing input of C1: the client has 3 inputs and 2 outputs, the
    peer declares 7 inputs and 9 outputs, and the handshake completes. *)
Lemma client_handshake_ignores_counts_witness :
  exists m' w',
    mismatch_client_session = Returned (HsDone fmt_d (Some [20; 0; 0])) m' w'
    /\ recvd_num_inputs m' = Some 7
    /\ recvd_num_outputs m' = Some 9
    /\ recv_bytes m' = Some (Z.of_nat (calcsize fmt_d) * 9
                             + Z.of_nat checksum_format_size).
Proof.
  apply (client_handshake_ignores_counts
           (manager_of mismatch_client_setup) (world_of mismatch_client_setup)
           2 3 2 0%nat 0%nat "int"%string 3%nat
           [("loop_frequency", 50); ("int_scale", 100)]%string
           0 7 9 1 [20; 0; 0] []);
    try reflexivity.
  - repeat split.
  - repeat constructor.
Defined.

(** The same counts sent to the server are refused. *)
Example mismatch_server_session_false :
  exists m' w', mismatch_server_session = Returned HsFalse m' w'
                /\ recv_bytes m' = None.
Proof.
  exists (manager_of mismatch_server_session), (world_of mismatch_server_session).
  split; vm_compute; reflexivity.
Qed.

(** Spec scenario: a server with (id=0, outputs=0, inputs=20) and a peer
    that declares (id=1, outputs=20, inputs=0), then a peer that declares
    5 outputs. *)
Example scenario_server_20 :
  let server := manager_of (setup_socket "192.168.0.136" 5111 0 20 0 "server" init
                              (mkWorld [] 0%nat ("192.168.0.10", 50000)%string [] [])) in
  let peer_ok := mkWorld [] 2%nat ("192.168.0.10", 50000)%string [1; 20; 0] [] in
  let peer_5 := mkWorld [] 2%nat ("192.168.0.10", 50000)%string [1; 5; 0] [] in
  (exists m' w',
      handshake "double" 3 [] server peer_ok = Returned (HsDone fmt_d None) m' w'
      /\ recv_bytes m' = Some 161)
  /\ (exists m' w',
         handshake "double" 3 [] server peer_5 = Returned HsFalse m' w').
Proof.
  intros server peer_ok peer_5. split.
  - exists (manager_of (handshake "double" 3 [] server peer_ok)),
           (world_of (handshake "double" 3 [] server peer_ok)).
    split; vm_compute; reflexivity.
  - exists (manager_of (handshake "double" 3 [] server peer_5)),
           (world_of (handshake "double" 3 [] server peer_5)).
    vm_compute; reflexivity.
Qed.

(** C6, as stated, fails in the client role: the client has sent its
    datatype code and its extra arguments before it learns who the peer
    is, so with the peer "Mevea" the exchange is not skipped entirely. *)
Lemma mevea_client_exchange_not_skipped :
  id_numbers_get id_numbers 1 "Undefined" = "Mevea"%string
  /\ hd 0 (inbox (world_of mevea_client_setup)) = 1
  /\ ~ exchange_skipped (world_of mevea_client_setup)
         (world_of mevea_client_session).
Proof.
  split; [reflexivity|]. split; [reflexivity|].
  intros [_ Hsent].
  specialize (Hsent 0%nat [2; 2; 3; 0; 50; 100; 0]).
  assert (Hin : In (SendInts 0%nat [2; 2; 3; 0; 50; 100; 0])
                   (skipn (length (trace (world_of mevea_client_setup)))
                      (trace (world_of mevea_client_session)))).
  { vm_compute. left. reflexivity. }
  specialize (Hsent Hin). cbn in Hsent. discriminate.
Qed.

(** C6, amended. With a peer whose identity maps to "Mevea", a handshake
    that gets past the count check returns with both encodings set to
    double, whatever encoding the caller asked for, and takes exactly the
    three integers from the peer. The server answers with its three
    integers only. The client has by then sent its three integers, its
    datatype code and its extra arguments. *)
Theorem mevea_handshake :
  forall (m : manager) (w : world) (lid lin lout : Z) (c l : sock)
         (local_datatype : string) (n : nat) (kwargs : list (string * Z))
         (id a b : Z) (rest : list Z),
    id_numbers_get id_numbers id "Undefined" = "Mevea"%string ->
    inbox w = id :: a :: b :: rest ->
    connected_socket m = Some c ->
    local_socket m = Some l ->
    local_id_number m = Some lid ->
    local_num_inputs m = Some lin ->
    local_num_outputs m = Some lout ->
    fits_i lid = true /\ fits_i lin = true /\ fits_i lout = true ->
    Forall (fun kv => fits_i (snd kv) = true) kwargs ->
    (socket_type m = Some Server -> a = lin -> b = lout ->
     exists m',
       handshake local_datatype n kwargs m w
       = Returned (HsDone fmt_d None) m'
           (log_call (SendInts c [lid; lin; lout]) (set_inbox rest w))
       /\ local_output_datatype m' = Some fmt_d
       /\ connected_output_datatype m' = Some fmt_d)
    /\ (socket_type m = Some Client ->
        exists m',
          handshake local_datatype n kwargs m w
          = Returned (HsDone fmt_d None) m'
              (set_inbox rest
                 (log_call
                    (SendInts l
                       (client_hello lid lin lout
                          (datatype_encoding_get datatype_encoding local_datatype 1)
                          kwargs n))
                    w))
          /\ local_output_datatype m' = Some fmt_d
          /\ connected_output_datatype m' = Some fmt_d).
Proof.
  intros m w lid lin lout c l local_datatype n kwargs id a b rest
         Hname Hinbox Hc Hl Hid Hin Hout Hfit Hkw.
  split.
  - intros Hrole -> ->.
    unfold handshake. unfold bind at 1, assign. unfold bind at 1, self.
    cbn [socket_type set_local_output_datatype]. rewrite Hrole.
    unfold bind at 1.
    erewrite (handshake_server_mevea (set_local_output_datatype _ m) w
                lid lin lout c Hc Hid Hin Hout Hfit);
      [| exact Hinbox | exact Hname].
    erewrite handshake_sizes_ok;
      [| exact Hout | reflexivity | reflexivity | reflexivity].
    eexists. repeat split; reflexivity.
  - intros Hrole.
    unfold handshake. unfold bind at 1, assign. unfold bind at 1, self.
    cbn [socket_type set_local_output_datatype]. rewrite Hrole.
    unfold bind at 1.
    erewrite (handshake_client_mevea (set_local_output_datatype _ m) w
                lid lin lout c l Hc Hl Hid Hin Hout Hfit);
      [| apply local_datatype_code_fits | exact Hkw | exact Hinbox | exact Hname].
    cbn [snd].
    erewrite handshake_sizes_ok;
      [| exact Hout | reflexivity | reflexivity | reflexivity].
    eexists. repeat split; reflexivity.
Qed.

Lemma mevea_handshake_witness :
  exists m',
    mevea_client_session
    = Returned (HsDone fmt_d None) m'
        (set_inbox []
           (log_call (SendInts 0%nat [2; 2; 3; 0; 50; 100; 0])
              (world_of mevea_client_setup)))
    /\ local_output_datatype m' = Some fmt_d
    /\ connected_output_datatype m' = Some fmt_d.
Proof.
  destruct (mevea_handshake
              (manager_of mevea_client_setup) (world_of mevea_client_setup)
              2 3 2 0%nat 0%nat "int"%string 3%nat
              [("loop_frequency", 50); ("int_scale", 100)]%string
              1 2 3 [])
    as [_ Hclient]; try reflexivity.
  - repeat split.
  - repeat constructor.
  - apply Hclient. reflexivity.
Defined.

(** A "Mevea" peer whose counts do not match is refused like any other,
    and the local encoding stays the one the caller asked for. *)
Example mevea_server_mismatch_keeps_encoding :
  let server := manager_of mismatch_server_setup in
  let w := mkWorld [] 2%nat ("10.0.0.2", 40000)%string [1; 9; 7] [] in
  exists m' w',
    handshake "int" 3 [] server w = Returned HsFalse m' w'
    /\ local_output_datatype m' = Some fmt_b
    /\ connected_output_datatype m' = None.
Proof.
  intros server w.
  exists (manager_of (handshake "int" 3 [] server w)),
         (world_of (handshake "int" 3 [] server w)).
  repeat split; vm_compute; reflexivity.
Qed.

(** ** ProtocolSwitcher *)

Section Connection.

(** The receiver leaves the connection descriptor alone, the peer
    address apart. *)
Lemma receiver_turn_connection m r :
  network_protocol (receiver_turn m r) = network_protocol m
  /\ socket_type (receiver_turn m r) = socket_type m
  /\ local_socket (receiver_turn m r) = local_socket m
  /\ local_addr (receiver_turn m r) = local_addr m.
Proof.
  unfold receiver_turn, receive_data.
  destruct m as [e st np ? ? ? ls ? ? ? ? ? ? cs ? ? ? ? ? ? ? rb ?].
  cbn.
  destruct np as [[|]|], st as [[|]|], cs, ls, rb as [n|], r as [[|b d] a|];
    cbn; try (destruct (n <? 0)); cbn;
    try (destruct (negb _)); cbn; repeat split; reflexivity.
Qed.

Lemma continuous_data_receiver_connection rs : forall m,
  network_protocol (continuous_data_receiver m rs) = network_protocol m
  /\ socket_type (continuous_data_receiver m rs) = socket_type m
  /\ local_socket (continuous_data_receiver m rs) = local_socket m
  /\ local_addr (continuous_data_receiver m rs) = local_addr m.
Proof.
  unfold continuous_data_receiver.
  induction rs as [|r rs IH]; intros m; cbn [fold_left]; [auto|].
  destruct (IH (receiver_turn m r)) as (H1 & H2 & H3 & H4).
  destruct (receiver_turn_connection m r) as (G1 & G2 & G3 & G4).
  repeat split; congruence.
Qed.

(** A datagram server takes the source of what it receives as the peer
    address, whatever the datagram holds. *)
Lemma receiver_turn_refreshes_peer m n s full_data addr :
  network_protocol m = Some UDP ->
  socket_type m = Some Server ->
  local_socket m = Some s ->
  recv_bytes m = Some n ->
  0 <= n ->
  connected_addr (receiver_turn m (RecvData full_data addr)) = Some addr.
Proof.
  intros Hp Hs Hl Hn Hpos. unfold receiver_turn, receive_data.
  rewrite Hp, Hs, Hl, Hn.
  destruct (Z.ltb_spec n 0); [lia|].
  destruct (_ || _); [reflexivity|].
  destruct full_data; reflexivity.
Qed.

(** A client never changes the peer address when it receives. *)
Lemma receiver_turn_client_keeps_peer m r :
  socket_type m = Some Client ->
  connected_addr (receiver_turn m r) = connected_addr m.
Proof.
  intros Hs. unfold receiver_turn, receive_data. rewrite Hs.
  destruct (network_protocol m) as [[|]|],
    (connected_socket m), (local_socket m), (recv_bytes m) as [n|], r
    as [[|b d] a|];
    cbn; try (destruct (n <? 0)); cbn;
    try (destruct (negb _)); cbn; auto.
Qed.

Lemma continuous_data_receiver_client_keeps_peer rs : forall m,
  socket_type m = Some Client ->
  connected_addr (continuous_data_receiver m rs) = connected_addr m.
Proof.
  unfold continuous_data_receiver.
  induction rs as [|r rs IH]; intros m Hs; cbn [fold_left]; [reflexivity|].
  rewrite IH.
  - now apply receiver_turn_client_keeps_peer.
  - rewrite <- Hs. apply receiver_turn_connection.
Qed.

End Connection.


(** C8. [tcp_to_udp] closes the stream sockets and opens a datagram
    socket. A server binds it to the local address of the setup; a client
    keeps the peer address of the setup. The transport becomes ['udp'] and
    the frame sizes stay as negotiated. Afterwards a server takes the
    source of every datagram it receives as the peer address; a client
    never changes it. *)
Theorem tcp_to_udp_switch :
  forall (m : manager) (w : world) (socket_buffer_size : Z),
    let closes :=
      (match connected_socket m with Some c => [Close c] | None => [] end)
      ++ (match local_socket m with Some l => [Close l] | None => [] end) in
    let s := next_sock w in
    (forall a : address,
        socket_type m = Some Server ->
        local_addr m = Some a ->
        exists m' w',
          tcp_to_udp socket_buffer_size m w = Returned true m' w'
          /\ trace w' = trace w ++ closes
                        ++ [Socket s SOCK_DGRAM;
                            Setsockopt s "SO_RCVBUF" socket_buffer_size;
                            Bind s a]
          /\ local_socket m' = Some s
          /\ network_protocol m' = Some UDP
          /\ send_bytes m' = send_bytes m
          /\ recv_bytes m' = recv_bytes m
          /\ local_addr m' = Some a
          /\ (forall (n : Z) (rs : list recv_result) (full_data : bytes)
                     (src : address),
                 recv_bytes m = Some n ->
                 0 <= n ->
                 connected_addr
                   (receiver_turn (continuous_data_receiver m' rs)
                      (RecvData full_data src))
                 = Some src))
    /\ (socket_type m = Some Client ->
        exists m' w',
          tcp_to_udp socket_buffer_size m w = Returned true m' w'
          /\ trace w' = trace w ++ closes
                        ++ [Socket s SOCK_DGRAM;
                            Setsockopt s "SO_RCVBUF" socket_buffer_size]
          /\ local_socket m' = Some s
          /\ network_protocol m' = Some UDP
          /\ send_bytes m' = send_bytes m
          /\ recv_bytes m' = recv_bytes m
          /\ connected_addr m' = connected_addr m
          /\ (forall rs : list recv_result,
                 connected_addr (continuous_data_receiver m' rs)
                 = connected_addr m)).
Proof.
  intros m w sz closes s. split.
  - intros a Hrole Haddr.
    set (m' := set_network_protocol (Some UDP) (set_local_socket (Some s) m)).
    exists m', (world_of (tcp_to_udp sz m w)).
    assert (Hrun : tcp_to_udp sz m w
                   = Returned true m' (world_of (tcp_to_udp sz m w))).
    { unfold tcp_to_udp, bind, self, env, assign, new_socket, the, ret.
      rewrite Hrole, Haddr.
      destruct (connected_socket m), (local_socket m); reflexivity. }
    split; [exact Hrun|]. split.
    + subst closes s.
      unfold tcp_to_udp, bind, self, env, assign, new_socket, the, ret.
      rewrite Hrole, Haddr.
      destruct (connected_socket m), (local_socket m);
        cbn [world_of trace log_call fresh_sock next_sock app];
        rewrite <- ?app_assoc; reflexivity.
    + repeat split; try assumption.
      intros n rs full_data src Hn Hpos.
      destruct (continuous_data_receiver_connection rs m') as (H1 & H2 & H3 & _).
      apply receiver_turn_refreshes_peer with (n := n) (s := s).
      * now rewrite H1.
      * now rewrite H2.
      * now rewrite H3.
      * now rewrite continuous_data_receiver_recv_bytes.
      * assumption.
  - intros Hrole.
    set (m' := set_network_protocol (Some UDP)
                 (set_connected_addr (connected_addr m)
                    (set_local_socket (Some s) m))).
    exists m', (world_of (tcp_to_udp sz m w)).
    assert (Hrun : tcp_to_udp sz m w
                   = Returned true m' (world_of (tcp_to_udp sz m w))).
    { unfold tcp_to_udp, bind, self, env, assign, new_socket, the, ret.
      rewrite Hrole.
      destruct (connected_socket m), (local_socket m); reflexivity. }
    split; [exact Hrun|]. split.
    + subst closes s.
      unfold tcp_to_udp, bind, self, env, assign, new_socket, the, ret.
      rewrite Hrole.
      destruct (connected_socket m), (local_socket m);
        cbn [world_of trace log_call fresh_sock next_sock app];
        rewrite <- ?app_assoc; reflexivity.
    + repeat split.
      intros rs.
      now rewrite continuous_data_receiver_client_keeps_peer.
Qed.

(** The spec's scenario: the server of the session, bound to port 5111,
    switches to datagrams and then hears from a new source address. *)
Lemma tcp_to_udp_switch_witness :
  exists m' w',
    tcp_to_udp 64 server_ready (world_of server_session) = Returned true m' w'
    /\ trace w' = trace (world_of server_session)
                  ++ [Close 1%nat; Close 0%nat;
                      Socket 2%nat SOCK_DGRAM;
                      Setsockopt 2%nat "SO_RCVBUF" 64;
                      Bind 2%nat ("10.0.0.1", 5111)%string]
    /\ network_protocol m' = Some UDP
    /\ send_bytes m' = Some 25
    /\ recv_bytes m' = Some 3
    /\ connected_addr
         (receiver_turn m' (RecvData [5; 249; 252] ("10.0.0.77", 6000)%string))
       = Some ("10.0.0.77", 6000)%string.
Proof.
  destruct (tcp_to_udp_switch server_ready (world_of server_session) 64)
    as [Hserver _].
  destruct (Hserver ("10.0.0.1", 5111)%string eq_refl eq_refl)
    as (m' & w' & Hrun & Htrace & _ & Hudp & Hsend & Hrecv & _ & Hpeer).
  exists m', w'. repeat split; try assumption.
  apply (Hpeer 3 [] [5; 249; 252] ("10.0.0.77", 6000)%string eq_refl).
  lia.
Defined.

(** ** ConnectionSetup *)

(** C9, as stated, fails: on an object that already has a socket
    [setup_socket] prints "socket already made!" and returns [True]. *)
Lemma setup_socket_twice_returns_true :
  local_socket server_ready = Some 0%nat
  /\ exists m',
       setup_socket "10.0.0.1" 5111 0 2 3 "server" server_ready
         (world_of server_session)
       = Returned true m' (world_of server_session).
Proof.
  split; [reflexivity|].
  exists (manager_of (setup_socket "10.0.0.1" 5111 0 2 3 "server" server_ready
                        (world_of server_session))).
  vm_compute. reflexivity.
Qed.

(** C9, amended. [setup_socket] returns [False] exactly when the role is
    neither ['client'] nor ['server'], and then makes no socket call. With
    a valid role and no socket yet it returns [True] after establishing
    one stream connection (client: socket, connect; server: socket, bind,
    listen with backlog 1, accept). With a valid role and a socket already
    there it returns [True] as well, makes no socket call and leaves the
    sockets and the connection descriptor as they are. *)
Theorem setup_socket_outcome :
  forall (m : manager) (w : world) (addr : string) (port id ins outs : Z)
         (role_name : string),
    let s := next_sock w in
    (String.eqb role_name "client" = false ->
     String.eqb role_name "server" = false ->
     exists m',
       setup_socket addr port id ins outs role_name m w = Returned false m' w
       /\ local_socket m' = local_socket m
       /\ connected_socket m' = connected_socket m)
    /\ (forall old : sock,
           role_name = "client"%string \/ role_name = "server"%string ->
           local_socket m = Some old ->
           exists m',
             setup_socket addr port id ins outs role_name m w = Returned true m' w
             /\ local_socket m' = Some old
             /\ connected_socket m' = connected_socket m
             /\ socket_type m' = socket_type m
             /\ network_protocol m' = network_protocol m
             /\ local_addr m' = local_addr m
             /\ connected_addr m' = connected_addr m)
    /\ (role_name = "client"%string ->
        local_socket m = None ->
        exists m' w',
          setup_socket addr port id ins outs role_name m w = Returned true m' w'
          /\ trace w' = trace w ++ [Socket s SOCK_STREAM;
                                    Setsockopt s "TCP_NODELAY" 1;
                                    Connect s (addr, port)]
          /\ local_socket m' = Some s
          /\ connected_socket m' = Some s
          /\ socket_type m' = Some Client
          /\ network_protocol m' = Some TCP
          /\ connected_addr m' = Some (addr, port))
    /\ (role_name = "server"%string ->
        local_socket m = None ->
        exists m' w',
          setup_socket addr port id ins outs role_name m w = Returned true m' w'
          /\ trace w' = trace w ++ [Socket s SOCK_STREAM;
                                    Setsockopt s "SO_REUSEADDR" 1;
                                    Bind s (addr, port);
                                    Listen s 1;
                                    Accept s (S s) (peer w)]
          /\ local_socket m' = Some s
          /\ connected_socket m' = Some (S s)
          /\ socket_type m' = Some Server
          /\ network_protocol m' = Some TCP
          /\ local_addr m' = Some (addr, port)
          /\ connected_addr m' = Some (peer w)).
Proof.
  intros m w addr port id ins outs role_name s.
  split; [|split; [|split]].
  - intros Hc Hs. eexists.
    unfold setup_socket, bind, assign, ret. rewrite Hc, Hs.
    repeat split; reflexivity.
  - intros old [-> | ->] Hold; eexists;
      unfold setup_socket, setup_socket_client, setup_socket_server,
             bind, assign, self, ret;
      cbn [String.eqb Ascii.eqb Bool.eqb local_socket set_local_id_number
           set_local_num_inputs set_local_num_outputs];
      rewrite Hold; repeat split; try reflexivity; exact Hold.
  - intros -> Hnone. do 2 eexists.
    unfold setup_socket, setup_socket_client, bind, assign, self, ret,
           new_socket, env.
    cbn [String.eqb Ascii.eqb Bool.eqb local_socket set_local_id_number
         set_local_num_inputs set_local_num_outputs].
    rewrite Hnone. split; [reflexivity|].
    cbn [trace log_call fresh_sock]. rewrite <- !app_assoc.
    repeat split; reflexivity.
  - intros -> Hnone. do 2 eexists.
    unfold setup_socket, setup_socket_server, bind, assign, self, ret,
           new_socket, env.
    cbn [String.eqb Ascii.eqb Bool.eqb local_socket set_local_id_number
         set_local_num_inputs set_local_num_outputs].
    rewrite Hnone. split; [reflexivity|].
    cbn [trace log_call fresh_sock next_sock peer fst snd].
    rewrite <- !app_assoc.
    repeat split; reflexivity.
Qed.

Lemma setup_socket_outcome_witness :
  exists m',
    setup_socket "10.0.0.1" 5111 0 2 3 "server" server_ready
      (world_of server_session)
    = Returned true m' (world_of server_session)
    /\ local_socket m' = Some 0%nat
    /\ connected_socket m' = connected_socket server_ready
    /\ socket_type m' = socket_type server_ready
    /\ network_protocol m' = network_protocol server_ready
    /\ local_addr m' = local_addr server_ready
    /\ connected_addr m' = connected_addr server_ready.
Proof.
  destruct (setup_socket_outcome server_ready (world_of server_session)
              "10.0.0.1" 5111 0 2 3 "server") as (_ & Hagain & _).
  apply (Hagain 0%nat); [now right | reflexivity].
Defined.

(** ** RecordBuffer and SaverLoop *)

Section Saver.

Lemma float_of_int_finite n :
  Z.abs n < 2 ^ 1023 -> exists bits, float_of_int n = Some bits.
Proof.
  intros Hn. unfold float_of_int.
  destruct (n =? 0) eqn:Hz; [eauto|].
  apply Z.eqb_neq in Hz.
  destruct (Z.log2 (Z.abs n) <=? 52); [eauto|].
  assert (Hlog : Z.log2 (Z.abs n) < 1023)
    by (apply Z.log2_lt_pow2; lia).
  destruct (_ =? 2 ^ 53).
  - destruct (Z.ltb_spec 1023 (Z.log2 (Z.abs n) + 1)); [lia | eauto].
  - destruct (Z.ltb_spec 1023 (Z.log2 (Z.abs n))); [lia | eauto].
Qed.

Lemma to_float_numeric v : numeric v -> exists bits, to_float v = Some bits.
Proof.
  destruct v as [n|bits]; cbn [numeric to_float]; intros H.
  - now apply float_of_int_finite.
  - eauto.
Qed.

Lemma floats_numeric vals :
  Forall numeric vals ->
  exists fs, floats vals = Some fs
             /\ Forall2 (fun v x => to_float v = Some x) vals fs.
Proof.
  induction 1 as [|v vals Hv _ (fs & Hfs & Hall)].
  - exists []. split; [reflexivity | constructor].
  - destruct (to_float_numeric v Hv) as (x & Hx).
    exists (x :: fs). cbn [floats]. rewrite Hx, Hfs.
    split; [reflexivity | now constructor].
Qed.

(** Packing the converted values is packing the values. *)
Lemma pack_d_floats e vals fs :
  Forall2 (fun v x => to_float v = Some x) vals fs ->
  pack e fmt_d (map VFloat fs) = pack e fmt_d vals.
Proof.
  induction 1 as [|v x vals fs Hx _ IH]; [reflexivity|].
  cbn [map pack pack_one to_float]. now rewrite Hx, IH.
Qed.

Lemma pack_d_total e vals :
  Forall numeric vals ->
  exists packed, pack e fmt_d vals = Some packed
                 /\ length packed = (8 * length vals)%nat.
Proof.
  induction 1 as [|v vals Hv _ (packed & Hp & Hlen)].
  - exists []. split; reflexivity.
  - destruct (to_float_numeric v Hv) as (x & Hx).
    exists (in_order e (le_bytes 8 x) ++ packed).
    cbn [pack]. rewrite Hp.
    destruct v; cbn [pack_one]; rewrite Hx;
      (split; [reflexivity|]);
      rewrite length_app, in_order_length, le_bytes_length, Hlen;
      cbn [length]; lia.
Qed.

(** The record of a loggable entry exists. *)
Lemma record_of_loggable e entry_ :
  loggable entry_ -> exists record, is_record e entry_ record.
Proof.
  intros [Hts Hvals]. unfold is_record.
  destruct (pack_d_total e (VInt (fst entry_) :: snd entry_))
    as (record & Hp & Hlen).
  - constructor; assumption.
  - exists record. split; [assumption|]. rewrite Hlen. cbn [length]. lia.
Qed.

(** The drain loop on loggable entries: every entry gives its record,
    in the order of the queue, and the queue ends empty. *)
Lemma save_loop_loggable e buf : forall acc,
  Forall loggable buf ->
  exists records,
    save_loop e buf acc = (acc ++ records, [], false)
    /\ Forall2 (is_record e) buf records.
Proof.
  induction buf as [|[ts vals] buf IH]; intros acc Hall.
  - exists []. cbn. rewrite app_nil_r. split; [reflexivity | constructor].
  - inversion Hall as [|x l Hentry Hrest]; subst.
    destruct Hentry as [Hts Hvals]. cbn [fst snd] in Hts, Hvals.
    destruct (floats_numeric vals Hvals) as (fs & Hfs & Hconv).
    destruct (record_of_loggable e (ts, vals)) as (record & Hrec & Hlen);
      [split; assumption|].
    cbn [fst snd] in Hrec, Hlen.
    cbn [save_loop]. rewrite Hfs.
    assert (Hpack : pack e fmt_d (VInt ts :: map VFloat fs) = Some record).
    { cbn [pack] in Hrec |- *. now rewrite (pack_d_floats e vals fs Hconv). }
    rewrite Hpack.
    destruct (IH (acc ++ [record]) Hrest) as (records & Hloop & Hall2).
    exists (record :: records). rewrite Hloop, <- app_assoc.
    split; [reflexivity|]. constructor; [|assumption].
    split; assumption.
Qed.

End Saver.

(** The producer notifies the saver exactly when the queue has reached
    the threshold. *)
Lemma add_data_to_buffer_notifies t data m :
  data_buffer (fst (add_data_to_buffer t data m)) = data_buffer m ++ [(t, data)]
  /\ (snd (add_data_to_buffer t data m) = true
      <-> (buffer_size m <= S (length (data_buffer m)))%nat).
Proof.
  unfold add_data_to_buffer. cbn [fst snd data_buffer buffer_size set_data_buffer].
  split; [reflexivity|].
  rewrite length_app. cbn [length]. rewrite Nat.leb_le. lia.
Qed.

(** Entries fed from a clock in range and a numeric array are loggable. *)
Lemma feed_loggable data : forall k t m,
  Forall numeric data ->
  Forall loggable (data_buffer m) ->
  0 <= t ->
  t + Z.of_nat k < 2 ^ 1023 ->
  Forall loggable (data_buffer (feed k t data m)).
Proof.
  induction k as [|k IH]; intros t m Hdata Hm Ht Hk; [exact Hm|].
  cbn [feed]. apply IH; [assumption | | lia | lia].
  cbn [add_data_to_buffer fst data_buffer set_data_buffer].
  apply Forall_app. split; [exact Hm|].
  constructor; [|constructor]. split; cbn [fst snd]; [lia | assumption].
Qed.

Lemma feed_length data : forall k t m,
  length (data_buffer (feed k t data m)) = (length (data_buffer m) + k)%nat.
Proof.
  induction k as [|k IH]; intros t m; cbn [feed]; [lia|].
  rewrite IH. cbn [add_data_to_buffer fst data_buffer set_data_buffer].
  rewrite length_app. cbn [length]. lia.
Qed.

(** C7. When the queue holds at least [buffer_size] entries and the saver
    is running, its turn flushes: the whole queue is drained in arrival
    order, every entry gives exactly one record (the timestamp and the
    values, 8 bytes each), the records are appended to the log in one
    [writelines] block, and the queue is empty afterwards. *)
Theorem saver_flush_drains_buffer :
  forall (m : manager) (w : world),
    saving_running m = true ->
    (buffer_size m <= length (data_buffer m))%nat ->
    Forall loggable (data_buffer m) ->
    exists records : list bytes,
      run_saving_thread_turn m w
      = Returned Saved (set_data_buffer [] m)
          (set_log_file (log_file w ++ [records]) w)
      /\ Forall2 (is_record (endian_specifier m)) (data_buffer m) records
      /\ length records = length (data_buffer m)
      /\ file_content (set_log_file (log_file w ++ [records]) w)
         = file_content w ++ concat records.
Proof.
  intros m w Hrun Hfull Hall.
  destruct (save_loop_loggable (endian_specifier m) (data_buffer m) [] Hall)
    as (records & Hloop & Hrecs).
  exists records. split; [|split; [|split]].
  - unfold run_saving_thread_turn, bind, self, ret. rewrite Hrun. cbn [negb].
    destruct (Nat.ltb_spec (length (data_buffer m)) (buffer_size m)); [lia|].
    unfold save_buffer, bind, self, assign. rewrite Hloop. reflexivity.
  - exact Hrecs.
  - symmetry. eapply Forall2_length. exact Hrecs.
  - unfold file_content. cbn [log_file set_log_file].
    rewrite !concat_app. cbn [concat]. now rewrite !app_nil_r.
Qed.

Lemma saver_flush_drains_buffer_witness :
  let m := feed 100 1700000000000000 [VInt 5; VInt (-7)]
             (set_saving_running true server_ready) in
  exists records : list bytes,
    run_saving_thread_turn m (world_of server_session)
    = Returned Saved (set_data_buffer [] m)
        (set_log_file (log_file (world_of server_session) ++ [records])
           (world_of server_session))
    /\ Forall2 (is_record (endian_specifier m)) (data_buffer m) records
    /\ length records = length (data_buffer m)
    /\ file_content
         (set_log_file (log_file (world_of server_session) ++ [records])
            (world_of server_session))
       = file_content (world_of server_session) ++ concat records.
Proof.
  intros m.
  apply (saver_flush_drains_buffer m (world_of server_session)).
  - reflexivity.
  - subst m. rewrite feed_length. cbn. lia.
  - subst m. apply feed_loggable.
    + repeat constructor; vm_compute; reflexivity.
    + constructor.
    + lia.
    + vm_compute. reflexivity.
Defined.

(* ================================================================== *)
(** * Further properties of the code *)
(* ================================================================== *)

(** ** What the decoder accepts *)

Lemma slice_length {A} (l : list A) i k :
  (i + k <= length l)%nat -> length (slice i (i + k) l) = k.
Proof.
  intros H. unfold slice.
  rewrite length_firstn, length_skipn. lia.
Qed.

Lemma unpack_one_total e f chunk :
  length chunk = calcsize f -> exists v, unpack_one e f chunk = Some v.
Proof.
  destruct f; cbn [calcsize unpack_one]; intros Hlen.
  - destruct chunk as [|b [|b' rest]]; try discriminate. eauto.
  - rewrite Hlen. cbn. eauto.
Qed.

Lemma le_bytes_le_value l :
  Forall is_byte l -> le_bytes (length l) (le_value l) = l.
Proof.
  induction 1 as [|b l Hb _ IH]; [reflexivity|].
  cbn [length le_bytes le_value]. unfold is_byte in Hb.
  replace ((b + 256 * le_value l) mod 256) with b.
  - replace ((b + 256 * le_value l) / 256) with (le_value l);
      [now rewrite IH|].
    rewrite Z.mul_comm, Z.div_add by lia. rewrite Z.div_small by lia. lia.
  - rewrite Z.mul_comm, Z.mod_add by lia. now rewrite Z.mod_small by lia.
Qed.

Lemma le_value_range l :
  Forall is_byte l -> 0 <= le_value l < 256 ^ Z.of_nat (length l).
Proof.
  induction 1 as [|b l Hb _ IH]; [cbn; lia|].
  cbn [length le_value]. rewrite Nat2Z.inj_succ, Z.pow_succ_r by lia.
  unfold is_byte in Hb. lia.
Qed.

(** A chunk of bytes of the size of the format is the packing of the
    value it unpacks to, and that value fits the format. *)
Lemma unpack_one_canonical e f chunk :
  length chunk = calcsize f ->
  Forall is_byte chunk ->
  exists v, unpack_one e f chunk = Some v
            /\ fits f v
            /\ pack_one e f v = Some chunk.
Proof.
  destruct f; cbn [calcsize unpack_one]; intros Hlen Hbytes.
  - destruct chunk as [|b [|b' rest]]; try discriminate.
    inversion Hbytes as [|x l Hb _]; subst. unfold is_byte in Hb.
    eexists. split; [reflexivity|].
    destruct (Z.ltb_spec b 128) as [Hlt|Hge]; cbn [fits pack_one].
    + split; [lia|].
      replace ((-128 <=? b) && (b <=? 127)) with true
        by (symmetry; apply andb_true_intro; split; apply Z.leb_le; lia).
      now rewrite Z.mod_small by lia.
    + split; [lia|].
      replace ((-128 <=? b - 256) && (b - 256 <=? 127)) with true
        by (symmetry; apply andb_true_intro; split; apply Z.leb_le; lia).
      rewrite <- (Z.mod_add (b - 256) 1 256) by lia.
      replace (b - 256 + 1 * 256) with b by lia.
      now rewrite Z.mod_small by lia.
  - rewrite Hlen. cbn [Nat.eqb].
    eexists. split; [reflexivity|].
    assert (Hb' : Forall is_byte (in_order e chunk)) by now apply in_order_is_byte.
    pose proof (le_value_range _ Hb') as Hrange.
    rewrite in_order_length, Hlen in Hrange.
    change (256 ^ Z.of_nat 8) with (2 ^ 64) in Hrange.
    split; [exact Hrange|].
    cbn [pack_one to_float].
    replace 8%nat with (length (in_order e chunk))
      by (now rewrite in_order_length).
    now rewrite le_bytes_le_value, in_order_involutive.
Qed.

(** The list comprehension of the decoder never fails on chunks of the
    element width; on bytes it gives fitting values that pack to the very
    chunks. *)
Lemma unpack_chunks_total e f : forall n p pre post j,
  length p = (n * calcsize f)%nat ->
  length pre = (j * calcsize f)%nat ->
  exists vs,
    unpack_chunks e (Some f) (calcsize f) (pre ++ p ++ post)
      (map (fun k => (k * calcsize f)%nat) (seq j n)) = Some vs
    /\ length vs = n
    /\ (Forall is_byte p -> Forall (fits f) vs /\ pack e f vs = Some p).
Proof.
  induction n as [|n IH]; intros p pre post j Hp Hpre.
  - exists []. destruct p; [|discriminate].
    repeat split; constructor.
  - set (size := calcsize f) in *.
    assert (Hsplit : p = firstn size p ++ skipn size p)
      by (symmetry; apply firstn_skipn).
    assert (Hhead : length (firstn size p) = size)
      by (rewrite length_firstn; lia).
    assert (Htail : length (skipn size p) = (n * size)%nat)
      by (rewrite length_skipn; lia).
    set (b := firstn size p) in *. set (rest := skipn size p) in *.
    clearbody b rest. subst p.
    destruct (IH rest (pre ++ b) post (S j) Htail) as (vs & Hvs & Hlen & Hcanon).
    { rewrite length_app, Hpre, Hhead. lia. }
    destruct (unpack_one_total e f b Hhead) as (v & Hv).
    exists (v :: vs). cbn [seq map unpack_chunks].
    rewrite <- !app_assoc in *.
    assert (Hslice : slice (j * size) (j * size + size) (pre ++ b ++ rest ++ post)
                     = b).
    { rewrite <- Hpre, <- Hhead. apply slice_middle. }
    rewrite Hslice, Hv, Hvs.
    split; [reflexivity|]. split; [cbn; lia|].
    intros Hbytes. apply Forall_app in Hbytes. destruct Hbytes as [Hb Hrest].
    destruct (Hcanon Hrest) as [Hfits Hpack].
    destruct (unpack_one_canonical e f b Hhead Hb) as (v' & Hv' & Hfit & Hpk).
    rewrite Hv in Hv'. injection Hv' as <-.
    split; [now constructor|].
    cbn [pack]. now rewrite Hpk, Hpack.
Qed.

Lemma unpack_chunks_length e dt size full_data : forall starts vs,
  unpack_chunks e dt size full_data starts = Some vs ->
  length vs = length starts.
Proof.
  induction starts as [|i starts IH]; intros vs; cbn [unpack_chunks].
  - now intros [= <-].
  - destruct dt as [f|]; [|discriminate].
    destruct (unpack_one e f _); [|discriminate].
    destruct (unpack_chunks e (Some f) size full_data starts) as [vs'|];
      [|discriminate].
    intros [= <-]. cbn [length]. now rewrite (IH vs' eq_refl).
Qed.

Section DecoderSpec.

Variables (m : manager) (f : format).

Hypothesis Hdt : connected_output_datatype m = Some f.
Hypothesis Hsize : connected_datatype_size m = Some (calcsize f).

(** What a successful call has checked. *)
Lemma get_latest_received_inv full_data vs m' :
  latest_recvd m = Some full_data ->
  get_latest_received m = (Some vs, m') ->
  exists p c,
    full_data = p ++ [c]
    /\ c = compute_checksum p
    /\ (length p mod calcsize f = 0)%nat
    /\ unpack_chunks (endian_specifier m) (Some f) (calcsize f) full_data
         (range_step (length p) (calcsize f)) = Some vs.
Proof.
  intros Hslot Hget.
  assert (Hne : full_data <> []).
  { intros ->. unfold get_latest_received in Hget. rewrite Hslot in Hget.
    discriminate. }
  destruct (exists_last Hne) as (p & c & ->).
  exists p, c.
  unfold get_latest_received in Hget. rewrite Hslot in Hget.
  rewrite slice_last_app, slice_but_last_app in Hget. cbn [unpack_B] in Hget.
  destruct (Z.eqb_spec c (compute_checksum p)) as [Hc|Hc];
    cbn [negb] in Hget; [|discriminate].
  rewrite Hsize, Hdt in Hget.
  destruct (calcsize f =? 0)%nat; [discriminate|].
  rewrite length_app in Hget. cbn [length] in Hget.
  unfold checksum_format_size in Hget.
  replace (length p + 1 - 1)%nat with (length p) in Hget by lia.
  destruct (Nat.eqb_spec (length p mod calcsize f) 0) as [Hmod|Hmod];
    cbn [negb] in Hget; [|discriminate].
  destruct (unpack_chunks _ _ _ _ _) as [vs'|] eqn:Hu; [|discriminate].
  injection Hget as <- _. auto.
Qed.

(** A slot whose trailer is the checksum of the rest, the rest being a
    whole number of elements, is decoded. *)
Lemma get_latest_received_valid p n :
  latest_recvd m = Some (p ++ [compute_checksum p]) ->
  length p = (n * calcsize f)%nat ->
  exists vs,
    get_latest_received m = (Some vs, set_latest_recvd None m)
    /\ length vs = n
    /\ (Forall is_byte p ->
        Forall (fits f) vs
        /\ encode_frame (endian_specifier m) f vs
           = Some (p ++ [compute_checksum p])).
Proof.
  intros Hslot Hlen.
  destruct (unpack_chunks_total (endian_specifier m) f n p []
              [compute_checksum p] 0%nat Hlen eq_refl)
    as (vs & Hvs & Hn & Hcanon).
  cbn [app] in Hvs. exists vs. split; [|split; [exact Hn|]].
  - unfold get_latest_received. rewrite Hslot.
    rewrite slice_last_app, slice_but_last_app. cbn [unpack_B].
    rewrite Z.eqb_refl. cbn [negb]. rewrite Hsize, Hdt.
    pose proof (calcsize_pos f) as Hpos.
    destruct (Nat.eqb_spec (calcsize f) 0); [lia|].
    rewrite length_app. cbn [length]. unfold checksum_format_size.
    replace (length p + 1 - 1)%nat with (n * calcsize f)%nat by lia.
    rewrite Nat.Div0.mod_mul. cbn [Nat.eqb negb].
    rewrite range_step_exact by assumption. now rewrite Hvs.
  - intros Hbytes. destruct (Hcanon Hbytes) as [Hfits Hpack].
    split; [exact Hfits|].
    unfold encode_frame, add_checksum, pack_B. rewrite Hpack.
    destruct (compute_checksum_is_byte p Hbytes) as [H0 H1].
    replace ((0 <=? compute_checksum p) && (compute_checksum p <=? 255))
      with true; [reflexivity|].
    symmetry. apply andb_true_intro; split; apply Z.leb_le; lia.
Qed.

End DecoderSpec.

(** X1. With the encoding negotiated, [get_latest_received] hands out an
    array exactly when the last byte of the slot is the XOR of the bytes
    before it and these are a whole number of elements; the array then has
    one value per element. Nothing else about the bytes is checked. *)
Theorem decode_succeeds_iff :
  forall (m : manager) (f : format) (p : bytes) (c : Z),
    latest_recvd m = Some (p ++ [c]) ->
    connected_output_datatype m = Some f ->
    connected_datatype_size m = Some (calcsize f) ->
    (exists vs,
        get_latest_received m = (Some vs, set_latest_recvd None m)
        /\ (length vs * calcsize f)%nat = length p)
    <-> (c = compute_checksum p /\ (length p mod calcsize f = 0)%nat).
Proof.
  intros m f p c Hslot Hdt Hsize. split.
  - intros (vs & Hget & _).
    destruct (get_latest_received_inv m f Hdt Hsize _ _ _ Hslot Hget)
      as (p' & c' & Heq & Hc & Hmod & _).
    apply app_inj_tail in Heq. destruct Heq as [<- <-]. auto.
  - intros [-> Hmod].
    pose proof (calcsize_pos f) as Hpos.
    assert (Hlen : length p = (length p / calcsize f * calcsize f)%nat).
    { pose proof (Nat.div_mod_eq (length p) (calcsize f)). lia. }
    destruct (get_latest_received_valid m f Hdt Hsize p _ Hslot Hlen)
      as (vs & Hget & Hn & _).
    exists vs. split; [exact Hget|]. rewrite Hn. lia.
Qed.

Lemma decode_succeeds_iff_witness :
  (exists vs,
      get_latest_received (set_latest_recvd (Some [5; 249; 252]) server_ready)
      = (Some vs, set_latest_recvd None
                    (set_latest_recvd (Some [5; 249; 252]) server_ready))
      /\ (length vs * calcsize fmt_b)%nat = length [5; 249])
  <-> (252 = compute_checksum [5; 249]
       /\ (length [5; 249] mod calcsize fmt_b = 0)%nat).
Proof.
  apply (decode_succeeds_iff
           (set_latest_recvd (Some [5; 249; 252]) server_ready)
           fmt_b [5; 249] 252); reflexivity.
Defined.

(** X2. Whatever [get_latest_received] decodes from received bytes is
    within the range of the encoding, and encoding it again gives the
    received frame byte for byte: the decoder is the inverse of the
    encoder on every frame it accepts. *)
Theorem decoded_frame_reencodes :
  forall (m : manager) (f : format) (full_data : bytes) (vs : list value),
    connected_output_datatype m = Some f ->
    connected_datatype_size m = Some (calcsize f) ->
    latest_recvd m = Some full_data ->
    Forall is_byte full_data ->
    fst (get_latest_received m) = Some vs ->
    Forall (fits f) vs
    /\ encode_frame (endian_specifier m) f vs = Some full_data.
Proof.
  intros m f full_data vs Hdt Hsize Hslot Hbytes Hfst.
  destruct (get_latest_received m) as [r m'] eqn:Hget. cbn [fst] in Hfst. subst r.
  destruct (get_latest_received_inv m f Hdt Hsize _ _ _ Hslot Hget)
    as (p & c & -> & -> & Hmod & _).
  pose proof (calcsize_pos f) as Hpos.
  assert (Hlen : length p = (length p / calcsize f * calcsize f)%nat).
  { pose proof (Nat.div_mod_eq (length p) (calcsize f)). lia. }
  destruct (get_latest_received_valid m f Hdt Hsize p _ Hslot Hlen)
    as (vs' & Hget' & _ & Hcanon).
  rewrite Hget in Hget'. injection Hget' as -> _.
  apply Hcanon. apply Forall_app in Hbytes. tauto.
Qed.

Lemma decoded_frame_reencodes_witness :
  Forall (fits fmt_b) [VInt 5; VInt (-7)]
  /\ encode_frame
       (endian_specifier (set_latest_recvd (Some [5; 249; 252]) server_ready))
       fmt_b [VInt 5; VInt (-7)]
     = Some [5; 249; 252].
Proof.
  apply (decoded_frame_reencodes
           (set_latest_recvd (Some [5; 249; 252]) server_ready)
           fmt_b [5; 249; 252] [VInt 5; VInt (-7)]); try reflexivity.
  repeat constructor; cbn; lia.
Defined.

(** ** What the XOR checksum lets through *)

Lemma flip_at_nth_same l : forall i bit,
  (i < length l)%nat ->
  nth i (flip_at i bit l) 0 = Z.lxor (nth i l 0) (2 ^ bit).
Proof.
  induction l as [|b l IH]; intros [|i] bit Hi; cbn [length] in Hi;
    try lia; cbn [flip_at nth]; [reflexivity|].
  apply IH. lia.
Qed.

Lemma flip_at_nth_other l : forall i j bit,
  i <> j -> nth i (flip_at j bit l) 0 = nth i l 0.
Proof.
  induction l as [|b l IH]; intros [|i] [|j] bit Hij; cbn [flip_at nth];
    try reflexivity; try contradiction.
  apply IH. congruence.
Qed.

Lemma flip_at_is_byte l : forall i bit,
  0 <= bit < 8 -> Forall is_byte l -> Forall is_byte (flip_at i bit l).
Proof.
  intros i bit Hbit Hl. revert i.
  induction Hl as [|b l Hb Hl IH]; intros [|i]; cbn [flip_at];
    constructor; auto.
  apply lxor_is_byte; [assumption|]. unfold is_byte. split.
  - apply Z.pow_nonneg. lia.
  - change 256 with (2 ^ 8). apply Z.pow_lt_mono_r; lia.
Qed.

(** X3. Two flips of the same bit position in two payload bytes of an
    encoded frame cancel in the checksum: [get_latest_received] accepts the
    frame and hands out an array of the right length that is not the one
    that was sent. *)
Theorem double_bit_flip_undetected :
  forall (m : manager) (f : format) (vs : list value) (frame : bytes)
         (i j : nat) (bit : Z),
    connected_output_datatype m = Some f ->
    connected_datatype_size m = Some (calcsize f) ->
    Forall (fits f) vs ->
    encode_frame (endian_specifier m) f vs = Some frame ->
    (i < j < length frame - 1)%nat ->
    0 <= bit < 8 ->
    latest_recvd m = Some (flip_at i bit (flip_at j bit frame)) ->
    exists vs',
      get_latest_received m = (Some vs', set_latest_recvd None m)
      /\ length vs' = length vs
      /\ vs' <> vs.
Proof.
  intros m f vs frame i j bit Hdt Hsize Hfits Henc Hij Hbit Hslot.
  destruct (pack_carries (endian_specifier m) f vs vs
              (Forall_fits_carries f vs Hfits))
    as (p & Hp & Hlen & Hbytes & _).
  destruct (encode_frame_carries (endian_specifier m) f vs vs
              (Forall_fits_carries f vs Hfits))
    as (p' & Hp' & Henc' & _).
  rewrite Hp in Hp'. injection Hp' as <-.
  rewrite Henc in Henc'. injection Henc' as ->.
  rewrite length_app in Hij. cbn [length] in Hij.
  set (p1 := flip_at j bit p). set (p2 := flip_at i bit p1).
  assert (Hl1 : length p1 = length p) by apply flip_at_length.
  assert (Hl2 : length p2 = length p)
    by (unfold p2; now rewrite flip_at_length).
  assert (Hflip : flip_at i bit (flip_at j bit (p ++ [compute_checksum p]))
                  = p2 ++ [compute_checksum p2]).
  { rewrite flip_at_app.
    destruct (Nat.ltb_spec j (length p)); [|lia].
    rewrite flip_at_app. fold p1.
    destruct (Nat.ltb_spec i (length p1)); [|lia].
    fold p2. do 2 f_equal. unfold p2, p1.
    rewrite !compute_checksum_flip_at by (rewrite ?flip_at_length; lia).
    now rewrite Z.lxor_assoc, Z.lxor_nilpotent, Z.lxor_0_r. }
  rewrite Hflip in Hslot.
  assert (Hlen2 : length p2 = (length vs * calcsize f)%nat) by lia.
  destruct (get_latest_received_valid m f Hdt Hsize p2 _ Hslot Hlen2)
    as (vs' & Hget & Hn & Hcanon).
  exists vs'. split; [exact Hget|]. split; [exact Hn|].
  intros ->.
  destruct Hcanon as [_ Henc2].
  { unfold p2, p1. apply flip_at_is_byte; [assumption|].
    now apply flip_at_is_byte. }
  rewrite Henc in Henc2. injection Henc2 as Heq.
  apply app_inj_tail in Heq. destruct Heq as [Heq _].
  assert (Hnth : nth i p2 0 = nth i p 0) by now rewrite <- Heq.
  unfold p2 in Hnth. rewrite flip_at_nth_same in Hnth by lia.
  unfold p1 in Hnth. rewrite flip_at_nth_other in Hnth by lia.
  now apply lxor_pow2_neq in Hnth.
Qed.

Lemma double_bit_flip_undetected_witness :
  exists vs',
    get_latest_received
      (set_latest_recvd (Some (flip_at 0 3 (flip_at 1 3 [5; 249; 252])))
         server_ready)
    = (Some vs',
       set_latest_recvd None
         (set_latest_recvd (Some (flip_at 0 3 (flip_at 1 3 [5; 249; 252])))
            server_ready))
    /\ length vs' = length [VInt 5; VInt (-7)]
    /\ vs' <> [VInt 5; VInt (-7)].
Proof.
  apply (double_bit_flip_undetected
           (set_latest_recvd (Some (flip_at 0 3 (flip_at 1 3 [5; 249; 252])))
              server_ready)
           fmt_b [VInt 5; VInt (-7)] [5; 249; 252] 0%nat 1%nat 3);
    try reflexivity.
  - repeat constructor; cbn; lia.
  - cbn. lia.
  - lia.
Defined.

Lemma compute_checksum_permutation p p' :
  Permutation p p' -> compute_checksum p = compute_checksum p'.
Proof.
  induction 1 as [|b l l' _ IH|a b l|l l' l'' _ IH1 _ IH2].
  - reflexivity.
  - rewrite !compute_checksum_cons. now rewrite IH.
  - rewrite !compute_checksum_cons.
    rewrite <- !Z.lxor_assoc. f_equal. apply Z.lxor_comm.
  - congruence.
Qed.

(** X4. The checksum does not depend on the order of the payload bytes:
    a frame whose payload bytes arrive in any other order is accepted and
    decoded to an array of the same length. *)
Theorem reordered_payload_undetected :
  forall (m : manager) (f : format) (p p' : bytes),
    connected_output_datatype m = Some f ->
    connected_datatype_size m = Some (calcsize f) ->
    (length p mod calcsize f = 0)%nat ->
    Permutation p p' ->
    latest_recvd m = Some (p' ++ [compute_checksum p]) ->
    exists vs',
      get_latest_received m = (Some vs', set_latest_recvd None m)
      /\ (length vs' * calcsize f)%nat = length p.
Proof.
  intros m f p p' Hdt Hsize Hmod Hperm Hslot.
  rewrite (compute_checksum_permutation p p' Hperm) in Hslot.
  pose proof (Permutation_length Hperm) as Hlen.
  pose proof (calcsize_pos f) as Hpos.
  assert (Hp' : length p' = (length p' / calcsize f * calcsize f)%nat).
  { pose proof (Nat.div_mod_eq (length p') (calcsize f)).
    rewrite <- Hlen in *. lia. }
  destruct (get_latest_received_valid m f Hdt Hsize p' _ Hslot Hp')
    as (vs' & Hget & Hn & _).
  exists vs'. split; [exact Hget|]. rewrite Hn, Hlen. lia.
Qed.

Lemma reordered_payload_undetected_witness :
  exists vs',
    get_latest_received (set_latest_recvd (Some [249; 5; 252]) server_ready)
    = (Some vs',
       set_latest_recvd None
         (set_latest_recvd (Some [249; 5; 252]) server_ready))
    /\ (length vs' * calcsize fmt_b)%nat = length [5; 249].
Proof.
  apply (reordered_payload_undetected
           (set_latest_recvd (Some [249; 5; 252]) server_ready)
           fmt_b [5; 249] [249; 5]); try reflexivity.
  apply perm_swap.
Defined.

(** ** What the receiver hands out *)

Lemma continuous_data_receiver_frame rs : forall m,
  endian_specifier (continuous_data_receiver m rs) = endian_specifier m
  /\ connected_output_datatype (continuous_data_receiver m rs)
     = connected_output_datatype m
  /\ connected_datatype_size (continuous_data_receiver m rs)
     = connected_datatype_size m.
Proof.
  unfold continuous_data_receiver.
  induction rs as [|r rs IH]; intros m; cbn [fold_left]; [auto|].
  destruct (IH (receiver_turn m r)) as (H1 & H2 & H3).
  destruct (receiver_turn_frame m r) as (G1 & G2 & G3 & _).
  repeat split; congruence.
Qed.

(** X5. After a handshake that set [recv_bytes] for [n] inbound elements,
    every array that [get_latest_received] returns after the receiver loop
    has run has exactly [n] elements, whatever the peer sent. *)
Theorem delivered_array_length :
  forall (m : manager) (f : format) (n : Z) (rs : list recv_result)
         (vs : list value) (m' : manager),
    latest_recvd m = None ->
    connected_output_datatype m = Some f ->
    connected_datatype_size m = Some (calcsize f) ->
    recv_bytes m
    = Some (Z.of_nat (calcsize f) * n + Z.of_nat checksum_format_size) ->
    get_latest_received (continuous_data_receiver m rs) = (Some vs, m') ->
    Z.of_nat (length vs) = n.
Proof.
  intros m f n rs vs m' Hnone Hdt Hsize Hrecv Hget.
  destruct (continuous_data_receiver_frame rs m) as (_ & Hd & Hs).
  destruct (get_latest_received_some _ _ _ Hget) as [Hocc _].
  destruct (continuous_data_receiver_slot rs m)
    as [Hsame | (d & a & _ & Hlen & Hslot)].
  { rewrite Hsame, Hnone in Hocc. contradiction. }
  rewrite Hdt in Hd. rewrite Hsize in Hs.
  destruct (get_latest_received_inv _ f Hd Hs _ _ _ Hslot Hget)
    as (p & c & -> & _ & Hmod & Hu).
  apply unpack_chunks_length in Hu.
  pose proof (calcsize_pos f) as Hpos.
  assert (Hp : length p = (length p / calcsize f * calcsize f)%nat).
  { pose proof (Nat.div_mod_eq (length p) (calcsize f)). lia. }
  rewrite Hp, range_step_exact, length_map, length_seq in Hu by assumption.
  rewrite Hrecv in Hlen. injection Hlen as Hlen.
  rewrite length_app in Hlen. cbn [length] in Hlen.
  unfold checksum_format_size in Hlen.
  assert (Hz : Z.of_nat (calcsize f) * n
               = Z.of_nat (calcsize f) * Z.of_nat (length vs)).
  { rewrite Hu. rewrite <- Nat2Z.inj_mul. lia. }
  apply Z.mul_reg_l in Hz; lia.
Qed.

Lemma delivered_array_length_witness :
  Z.of_nat (length [VInt 5; VInt (-7)]) = 2.
Proof.
  apply (delivered_array_length server_ready fmt_b 2
           [RecvData [1; 2] ("10.0.0.2", 40000)%string;
            RecvData [5; 249; 252] ("10.0.0.2", 40000)%string;
            RecvError]
           [VInt 5; VInt (-7)]
           (set_latest_recvd None
              (continuous_data_receiver server_ready
                 [RecvData [1; 2] ("10.0.0.2", 40000)%string;
                  RecvData [5; 249; 252] ("10.0.0.2", 40000)%string;
                  RecvError])));
    vm_compute; reflexivity.
Defined.

(** ** What [send_data] does not check *)



Lemma pack_In_None e f v : forall data,
  In v data -> pack_one e f v = None -> pack e f data = None.
Proof.
  induction data as [|x data IH]; intros Hin Hv; [contradiction|].
  cbn [pack]. destruct Hin as [->|Hin].
  - now rewrite Hv.
  - rewrite (IH Hin Hv). now destruct (pack_one e f x).
Qed.

(** X7. With the 1-byte integer encoding, an array that holds a float or
    an integer outside [-128, 127] makes [send_data] raise: nothing is
    sent and the object is unchanged. *)
Theorem send_data_rejects_unfit_value :
  forall (m : manager) (w : world) (data : list value) (v : value),
    local_output_datatype m = Some fmt_b ->
    In v data ->
    ~ fits fmt_b v ->
    send_data data m w = Raised m w.
Proof.
  intros m w data v Hdt Hin Hunfit.
  assert (Hv : pack_one (endian_specifier m) fmt_b v = None).
  { destruct v as [n|bits]; cbn [pack_one fits] in *; [|reflexivity].
    destruct (Z.leb_spec (-128) n), (Z.leb_spec n 127); cbn; try reflexivity.
    lia. }
  unfold send_data, bind, self, the, ret, raise, encode_frame.
  rewrite Hdt. now rewrite (pack_In_None _ _ v data Hin Hv).
Qed.

Lemma send_data_rejects_unfit_value_witness :
  send_data [VInt 5; VInt 128] client_ready (world_of client_session)
  = Raised client_ready (world_of client_session).
Proof.
  apply (send_data_rejects_unfit_value client_ready (world_of client_session)
           [VInt 5; VInt 128] (VInt 128)).
  - reflexivity.
  - right. left. reflexivity.
  - cbn. lia.
Defined.

(** ** Where a datagram server sends *)

(** A turn of the receiver changes the slot and the peer address and
    nothing else. *)
Lemma receiver_turn_footprint m r :
  receiver_turn m r
  = set_latest_recvd (latest_recvd (receiver_turn m r))
      (set_connected_addr (connected_addr (receiver_turn m r)) m).
Proof.
  unfold receiver_turn, receive_data.
  destruct m as [e st np ? ? ? ls ? ? ? ? ? ? cs ? ? ? ? ? ? ? rb ?].
  cbn.
  destruct np as [[|]|], st as [[|]|], cs, ls, rb as [n|], r as [[|b d] a|];
    cbn; try (destruct (n <? 0)); cbn;
    try (destruct (negb _)); cbn; reflexivity.
Qed.

(** X8. A datagram server takes the source of every datagram as the
    peer, before it looks at the size: after one datagram from an address
    [src], of whatever content, [send_data] sends its frames to [src]; a
    datagram of the wrong size is dropped all the same. *)
Theorem stray_datagram_redirects_send :
  forall (m : manager) (w : world) (f : format) (data : list value)
         (junk : bytes) (src : address) (l : sock) (n : Z),
    network_protocol m = Some UDP ->
    socket_type m = Some Server ->
    local_socket m = Some l ->
    recv_bytes m = Some n ->
    0 <= n ->
    local_output_datatype m = Some f ->
    Forall (fits f) data ->
    let m1 := receiver_turn m (RecvData junk src) in
    (Z.of_nat (length junk) <> n -> latest_recvd m1 = latest_recvd m)
    /\ exists frame,
         send_data data m1 w
         = Returned frame m1 (log_call (SendTo l frame src) w).
Proof.
  intros m w f data junk src l n Hp Hs Hl Hn Hpos Hdt Hfits m1. split.
  - intros Hlen. apply receiver_turn_rejected.
    now apply receive_data_wrong_size with n.
  - assert (Haddr : connected_addr m1 = Some src)
      by now apply receiver_turn_refreshes_peer with n l.
    destruct (encode_frame_carries (endian_specifier m) f data data
                (Forall_fits_carries f data Hfits))
      as (packed & _ & Henc & _).
    exists (packed ++ [compute_checksum packed]).
    unfold send_data, bind, self, the, ret, env.
    rewrite Haddr. subst m1. rewrite receiver_turn_footprint.
    cbn [local_output_datatype endian_specifier network_protocol local_socket
         set_latest_recvd set_connected_addr].
    now rewrite Hdt, Henc, Hp, Hl.
Qed.

Lemma stray_datagram_redirects_send_witness :
  let m := manager_of (tcp_to_udp 64 server_ready (world_of server_session)) in
  let w := world_of (tcp_to_udp 64 server_ready (world_of server_session)) in
  let m1 := receiver_turn m (RecvData [7] ("10.9.9.9", 1234)%string) in
  (Z.of_nat (length [7]) <> 3 -> latest_recvd m1 = latest_recvd m)
  /\ exists frame,
       send_data [VFloat 0; VFloat 0; VFloat 0] m1 w
       = Returned frame m1
           (log_call (SendTo 2%nat frame ("10.9.9.9", 1234)%string) w).
Proof.
  intros m w.
  apply (stray_datagram_redirects_send m w fmt_d [VFloat 0; VFloat 0; VFloat 0]
           [7] ("10.9.9.9", 1234)%string 2%nat 3); try reflexivity.
  - lia.
  - repeat constructor; cbn; lia.
Defined.

(** ** Shutdown *)

(** X9. [close_socket] closes [local_socket] and nothing else (in a
    server the accepted connection stays open) and leaves the attribute
    set: a later [setup_socket] finds "socket already made", opens
    nothing and still returns [True]. *)
Theorem close_socket_keeps_attribute :
  forall (m : manager) (w : world) (l : sock) (addr : string)
         (port id ins outs : Z) (role_name : string),
    local_socket m = Some l ->
    role_name = "client"%string \/ role_name = "server"%string ->
    close_socket m w = Returned tt m (log_call (Close l) w)
    /\ trace (log_call (Close l) w) = trace w ++ [Close l]
    /\ exists m',
         setup_socket addr port id ins outs role_name m (log_call (Close l) w)
         = Returned true m' (log_call (Close l) w)
         /\ local_socket m' = Some l
         /\ connected_socket m' = connected_socket m.
Proof.
  intros m w l addr port id ins outs role_name Hl Hrole.
  split; [|split; [reflexivity|]].
  - unfold close_socket, bind, self, env. now rewrite Hl.
  - destruct Hrole as [-> | ->]; eexists;
      unfold setup_socket, setup_socket_client, setup_socket_server,
             bind, assign, self, ret;
      cbn [String.eqb Ascii.eqb Bool.eqb local_socket set_local_id_number
           set_local_num_inputs set_local_num_outputs];
      rewrite Hl; repeat split; try reflexivity; exact Hl.
Qed.

Lemma close_socket_keeps_attribute_witness :
  close_socket server_ready (world_of server_session)
  = Returned tt server_ready (log_call (Close 0%nat) (world_of server_session))
  /\ trace (log_call (Close 0%nat) (world_of server_session))
     = trace (world_of server_session) ++ [Close 0%nat]
  /\ exists m',
       setup_socket "10.0.0.1" 5111 0 2 3 "server" server_ready
         (log_call (Close 0%nat) (world_of server_session))
       = Returned true m' (log_call (Close 0%nat) (world_of server_session))
       /\ local_socket m' = Some 0%nat
       /\ connected_socket m' = connected_socket server_ready.
Proof.
  apply (close_socket_keeps_attribute server_ready (world_of server_session)
           0%nat "10.0.0.1" 5111 0 2 3 "server").
  - reflexivity.
  - now right.
Defined.

(** ** More on the handshake *)

(** X10. [_prepare_extra_args] always gives exactly [num_extra_args]
    integers: the keyword values in the order they were given, cut off
    after [num_extra_args], and zeros where there are fewer. *)
Theorem prepare_extra_args_spec :
  forall (kwargs : list (string * Z)) (n i : nat),
    length (prepare_extra_args kwargs n) = n
    /\ ((i < n)%nat ->
        nth i (prepare_extra_args kwargs n) 0 = nth i (map snd kwargs) 0).
Proof.
  intros kwargs n i. split; [apply prepare_extra_args_length|].
  intros Hi. unfold prepare_extra_args.
  set (values := map snd kwargs).
  destruct (Nat.lt_ge_cases i (length values)) as [Hin|Hout].
  - rewrite app_nth1 by (rewrite length_firstn; lia).
    apply nth_firstn_lt || (rewrite nth_firstn;
      destruct (Nat.ltb_spec i n); [reflexivity | lia]).
  - rewrite (nth_overflow values) by lia.
    destruct (Nat.lt_ge_cases i (length (firstn n values))) as [H1|H1].
    + rewrite length_firstn in H1. lia.
    + rewrite app_nth2 by lia.
      destruct (nth_in_or_default (i - length (firstn n values))
                  (repeat 0 (n - length (firstn n values))) 0) as [Hx|Hx];
        [now apply repeat_spec in Hx | exact Hx].
Qed.

Lemma prepare_extra_args_spec_witness :
  nth 1 (prepare_extra_args [("loop_frequency", 20)]%string 3) 0
  = nth 1 (map snd [("loop_frequency", 20)]%string) 0.
Proof.
  apply (prepare_extra_args_spec [("loop_frequency", 20)]%string 3 1). lia.
Defined.

Lemma datatype_encoding_int local_datatype :
  datatype_encoding_get datatype_encoding local_datatype 1 = 0
  <-> local_datatype = "int"%string.
Proof.
  unfold datatype_encoding, datatype_encoding_get.
  destruct (String.eqb_spec "int" local_datatype) as [<-|Hne].
  - tauto.
  - destruct (String.eqb "double" local_datatype); split; intros H;
      try discriminate; congruence.
Qed.

(** X11. A server and a client of this class whose counts mirror each
    other, neither with the identity of "Mevea" and both with the same
    number of extra arguments, complete the handshake against each other:
    each receives the other's extra arguments, each decodes with the
    encoding the other sends with, and the frame size one side sends is
    the frame size the other side expects. The encoding of a side is the
    1-byte integer exactly when it asked for ['int']. *)
Theorem two_managers_interoperate :
  forall (ms mc : manager) (ws wc : world) (sid cid a b : Z) (cs cc cl : sock)
         (dts dtc : string) (n : nat) (kws kwc : list (string * Z)),
    socket_type ms = Some Server ->
    connected_socket ms = Some cs ->
    local_id_number ms = Some sid ->
    local_num_inputs ms = Some a ->
    local_num_outputs ms = Some b ->
    socket_type mc = Some Client ->
    connected_socket mc = Some cc ->
    local_socket mc = Some cl ->
    local_id_number mc = Some cid ->
    local_num_inputs mc = Some b ->
    local_num_outputs mc = Some a ->
    fits_i sid = true /\ fits_i cid = true /\ fits_i a = true /\ fits_i b = true ->
    Forall (fun kv => fits_i (snd kv) = true) kws ->
    Forall (fun kv => fits_i (snd kv) = true) kwc ->
    String.eqb (id_numbers_get id_numbers sid "Undefined") "Mevea" = false ->
    String.eqb (id_numbers_get id_numbers cid "Undefined") "Mevea" = false ->
    inbox ws
    = client_hello cid b a (datatype_encoding_get datatype_encoding dtc 1) kwc n ->
    inbox wc
    = [sid; a; b; datatype_encoding_get datatype_encoding dts 1]
      ++ prepare_extra_args kws n ->
    exists ms' ws' mc' wc' fs fc,
      handshake dts n kws ms ws
      = Returned (HsDone fc (Some (prepare_extra_args kwc n))) ms' ws'
      /\ handshake dtc n kwc mc wc
         = Returned (HsDone fs (Some (prepare_extra_args kws n))) mc' wc'
      /\ trace ws' = trace ws ++ [SendInts cs (inbox wc)]
      /\ trace wc' = trace wc ++ [SendInts cl (inbox ws)]
      /\ inbox ws' = [] /\ inbox wc' = []
      /\ local_output_datatype ms' = Some fs
      /\ connected_output_datatype mc' = Some fs
      /\ local_output_datatype mc' = Some fc
      /\ connected_output_datatype ms' = Some fc
      /\ send_bytes ms' = recv_bytes mc'
      /\ send_bytes mc' = recv_bytes ms'
      /\ (fs = fmt_b <-> dts = "int"%string)
      /\ (fc = fmt_b <-> dtc = "int"%string).
Proof.
  intros ms mc ws wc sid cid a b cs cc cl dts dtc n kws kwc
         Hsrole Hscs Hsid Hsin Hsout Hcrole Hccc Hccl Hcid Hcin Hcout
         (Fsid & Fcid & Fa & Fb) Hkws Hkwc Hsname Hcname Hws Hwc.
  set (code_s := datatype_encoding_get datatype_encoding dts 1) in *.
  set (code_c := datatype_encoding_get datatype_encoding dtc 1) in *.
  set (fs := if code_s =? 0 then fmt_b else fmt_d).
  set (fc := if code_c =? 0 then fmt_b else fmt_d).
  assert (Hs : exists ms', handshake dts n kws ms ws
                 = Returned (HsDone fc (Some (prepare_extra_args kwc n))) ms'
                     (log_call
                        (SendInts cs ([sid; a; b; code_s]
                                      ++ prepare_extra_args kws n))
                        (set_inbox [] ws))
               /\ local_output_datatype ms' = Some fs
               /\ connected_output_datatype ms' = Some fc
               /\ send_bytes ms'
                  = Some (Z.of_nat (calcsize fs) * b
                          + Z.of_nat checksum_format_size)
               /\ recv_bytes ms'
                  = Some (Z.of_nat (calcsize fc) * a
                          + Z.of_nat checksum_format_size)).
  { unfold handshake. unfold bind at 1, assign. unfold bind at 1, self.
    cbn [socket_type set_local_output_datatype]. rewrite Hsrole.
    unfold bind at 1.
    erewrite (handshake_server_other (set_local_output_datatype _ ms) ws
                sid a b cs Hscs Hsid Hsin Hsout (conj Fsid (conj Fa Fb))
                code_s n kws cid code_c (prepare_extra_args kwc n) []);
      [| rewrite app_nil_r; exact Hws | apply prepare_extra_args_length
       | exact Hcname | apply local_datatype_code_fits | exact Hkws].
    erewrite handshake_sizes_ok;
      [| exact Hsout | reflexivity | reflexivity | reflexivity].
    eexists. repeat split; reflexivity. }
  assert (Hc : exists mc', handshake dtc n kwc mc wc
                 = Returned (HsDone fs (Some (prepare_extra_args kws n))) mc'
                     (set_inbox []
                        (log_call
                           (SendInts cl (client_hello cid b a code_c kwc n)) wc))
               /\ local_output_datatype mc' = Some fc
               /\ connected_output_datatype mc' = Some fs
               /\ send_bytes mc'
                  = Some (Z.of_nat (calcsize fc) * a
                          + Z.of_nat checksum_format_size)
               /\ recv_bytes mc'
                  = Some (Z.of_nat (calcsize fs) * b
                          + Z.of_nat checksum_format_size)).
  { unfold handshake. unfold bind at 1, assign. unfold bind at 1, self.
    cbn [socket_type set_local_output_datatype]. rewrite Hcrole.
    unfold bind at 1.
    erewrite (handshake_client_other (set_local_output_datatype _ mc) wc
                cid b a cc cl Hccc Hccl Hcid Hcin Hcout (conj Fcid (conj Fb Fa))
                code_c n kwc (local_datatype_code_fits dtc) Hkwc
                sid a b code_s (prepare_extra_args kws n) []);
      [| rewrite app_nil_r; exact Hwc | apply prepare_extra_args_length
       | exact Hsname].
    cbn [snd].
    erewrite handshake_sizes_ok;
      [| exact Hcout | reflexivity | reflexivity | reflexivity].
    eexists. repeat split; reflexivity. }
  destruct Hs as (ms' & Hsrun & Hs1 & Hs2 & Hs3 & Hs4).
  destruct Hc as (mc' & Hcrun & Hc1 & Hc2 & Hc3 & Hc4).
  do 6 eexists.
  split; [exact Hsrun|]. split; [exact Hcrun|].
  split; [now rewrite Hwc|]. split; [now rewrite Hws|].
  repeat split; try assumption; try congruence.
  - unfold fs. destruct (Z.eqb_spec code_s 0) as [H0|H0]; [|discriminate].
    intros _. now apply datatype_encoding_int.
  - intros H. apply datatype_encoding_int in H. unfold fs. fold code_s in H.
    now rewrite H.
  - unfold fc. destruct (Z.eqb_spec code_c 0) as [H0|H0]; [|discriminate].
    intros _. now apply datatype_encoding_int.
  - intros H. apply datatype_encoding_int in H. unfold fc. fold code_c in H.
    now rewrite H.
Qed.

Lemma two_managers_interoperate_witness :
  let ms := manager_of mismatch_server_setup in
  let mc := manager_of mismatch_client_setup in
  let ws := set_inbox [2; 2; 3; 0; 50; 100; 0] (world_of mismatch_server_setup) in
  let wc := set_inbox [0; 2; 3; 1; 20; 0; 0] (world_of mismatch_client_setup) in
  let kws := [("loop_frequency", 20)]%string in
  let kwc := [("loop_frequency", 50); ("int_scale", 100)]%string in
  exists ms' ws' mc' wc' fs fc,
    handshake "double" 3 kws ms ws
    = Returned (HsDone fc (Some (prepare_extra_args kwc 3))) ms' ws'
    /\ handshake "int" 3 kwc mc wc
       = Returned (HsDone fs (Some (prepare_extra_args kws 3))) mc' wc'
    /\ trace ws' = trace ws ++ [SendInts 1%nat (inbox wc)]
    /\ trace wc' = trace wc ++ [SendInts 0%nat (inbox ws)]
    /\ inbox ws' = [] /\ inbox wc' = []
    /\ local_output_datatype ms' = Some fs
    /\ connected_output_datatype mc' = Some fs
    /\ local_output_datatype mc' = Some fc
    /\ connected_output_datatype ms' = Some fc
    /\ send_bytes ms' = recv_bytes mc'
    /\ send_bytes mc' = recv_bytes ms'
    /\ (fs = fmt_b <-> "double"%string = "int"%string)
    /\ (fc = fmt_b <-> "int"%string = "int"%string).
Proof.
  intros ms mc ws wc kws kwc.
  apply (two_managers_interoperate ms mc ws wc 0 2 2 3 1%nat 0%nat 0%nat
           "double" "int" 3 kws kwc); try reflexivity.
  - repeat split.
  - repeat constructor.
  - repeat constructor.
Defined.

(** [__receive_extra_args] on a peer that has sent too little. *)
Lemma receive_extra_args_short n : forall m w c,
  connected_socket m = Some c ->
  (length (inbox w) < n)%nat ->
  exists w', receive_extra_args n m w = Raised m w' /\ trace w' = trace w.
Proof.
  induction n as [|n IH]; intros m w c Hc Hn; [lia|].
  cbn [receive_extra_args]. unfold bind at 1, self. unfold bind at 1.
  destruct (inbox w) as [|x rest] eqn:Hin.
  - unfold recv_ints, bind, the, ret. rewrite Hc, Hin. cbn.
    eexists. split; reflexivity.
  - rewrite (recv_ints_ok _ c 1 m w Hc) by (rewrite Hin; cbn; lia).
    rewrite Hin. cbn [firstn skipn]. unfold bind at 1.
    destruct (IH m (set_inbox rest w) c Hc) as (w' & Hrun & Htrace).
    { cbn [inbox set_inbox]. cbn [length] in Hn. lia. }
    rewrite Hrun. eexists. split; [reflexivity | exact Htrace].
Qed.

(** X12. A server sends nothing to a peer whose handshake is incomplete:
    when fewer than the three integers arrive, or, for a peer other than
    "Mevea" with matching counts, fewer than the datatype code and the
    [num_extra_args] extra arguments, [handshake] raises, no response has
    been sent and no frame size has been set. *)
Theorem server_never_answers_incomplete_handshake :
  forall (m : manager) (w : world) (lin lout : Z) (c : sock)
         (local_datatype : string) (n : nat) (kwargs : list (string * Z)),
    socket_type m = Some Server ->
    connected_socket m = Some c ->
    local_num_inputs m = Some lin ->
    local_num_outputs m = Some lout ->
    (length (inbox w) < 3)%nat
    \/ (exists id rest,
          inbox w = id :: lin :: lout :: rest
          /\ String.eqb (id_numbers_get id_numbers id "Undefined") "Mevea" = false
          /\ (length rest < 1 + n)%nat) ->
    exists m' w',
      handshake local_datatype n kwargs m w = Raised m' w'
      /\ trace w' = trace w
      /\ send_bytes m' = send_bytes m
      /\ recv_bytes m' = recv_bytes m.
Proof.
  intros m w lin lout c local_datatype n kwargs Hrole Hc Hin Hout Hshort.
  unfold handshake. unfold bind at 1, assign. unfold bind at 1, self.
  cbn [socket_type set_local_output_datatype]. rewrite Hrole.
  unfold bind at 1. unfold handshake_server.
  unfold bind at 1, self. unfold bind at 1.
  cbn [connected_socket set_local_output_datatype].
  destruct Hshort as [Hlt | (id & rest & Hinbox & Hname & Hrest)].
  - unfold recv_ints, bind, the, ret. rewrite Hc.
    destruct (Nat.leb_spec 3 (length (inbox w))); [lia|].
    do 2 eexists. repeat split; reflexivity.
  - match goal with
    | |- context [recv_ints ?s 3 ?m' w] =>
        rewrite (recv_ints_ok s c 3 m' w Hc) by (rewrite Hinbox; cbn; lia)
    end.
    rewrite Hinbox. cbn [firstn skipn]. rewrite Hname.
    unfold bind at 1, assign. unfold bind at 1. unfold bind at 1.
    unfold bind at 1, self.
    cbn [recvd_num_inputs recvd_num_outputs local_num_outputs local_num_inputs
         set_recvd_id_number set_recvd_num_outputs set_recvd_num_inputs
         set_local_output_datatype].
    rewrite Hout, Hin. cbn [py_eq]. rewrite !Z.eqb_refl. cbn [andb negb].
    unfold bind at 1. unfold bind at 1.
    unfold receive_datatype_and_extra_args.
    unfold bind at 1, self. unfold bind at 1.
    destruct rest as [|peer_code rest'].
    + unfold recv_ints, bind, the, ret.
      cbn [connected_socket set_recvd_id_number set_recvd_num_outputs
           set_recvd_num_inputs set_local_output_datatype].
      rewrite Hc. cbn.
      do 2 eexists. repeat split; reflexivity.
    + match goal with
      | |- context [recv_ints ?s 1 ?m' ?w'] =>
          rewrite (recv_ints_ok s c 1 m' w') by (try exact Hc; cbn; lia)
      end.
      cbn [inbox set_inbox firstn skipn].
      unfold bind at 1, assign.
      match goal with
      | |- context [receive_extra_args n ?m' ?w'] =>
          destruct (receive_extra_args_short n m' w' c Hc)
            as (w'' & Hrun & Htrace);
            [cbn [inbox set_inbox]; cbn [length] in Hrest; lia|];
            rewrite Hrun
      end.
      do 2 eexists. repeat split; try reflexivity.
      rewrite Htrace. reflexivity.
Qed.

Lemma server_never_answers_incomplete_handshake_witness :
  exists m' w',
    handshake "double" 3 [("loop_frequency", 20)]%string
      (manager_of mismatch_server_setup)
      (set_inbox [2; 2; 3; 0; 50] (world_of mismatch_server_setup))
    = Raised m' w'
    /\ trace w'
       = trace (set_inbox [2; 2; 3; 0; 50] (world_of mismatch_server_setup))
    /\ send_bytes m' = send_bytes (manager_of mismatch_server_setup)
    /\ recv_bytes m' = recv_bytes (manager_of mismatch_server_setup).
Proof.
  apply (server_never_answers_incomplete_handshake
           (manager_of mismatch_server_setup)
           (set_inbox [2; 2; 3; 0; 50] (world_of mismatch_server_setup))
           2 3 1%nat "double" 3 [("loop_frequency", 20)]%string);
    try reflexivity.
  right. exists 2, [0; 50]. repeat split. cbn. lia.
Defined.

(** ** The saver on entries it cannot write *)

Lemma record_of_floats e ts vals fs :
  Forall2 (fun v x => to_float v = Some x) vals fs ->
  pack e fmt_d (VInt ts :: map VFloat fs) = record_of e (ts, vals).
Proof.
  intros Hconv. unfold record_of. cbn [fst snd pack].
  now rewrite (pack_d_floats e vals fs Hconv).
Qed.

Lemma save_loop_records e buf : forall acc,
  Forall (fun entry_ => Forall numeric (snd entry_)) buf ->
  save_loop e buf acc = (acc ++ records_of e buf, [], false).
Proof.
  induction buf as [|[ts vals] buf IH]; intros acc Hall.
  - cbn. now rewrite app_nil_r.
  - inversion Hall as [|x l Hvals Hrest]; subst. cbn [snd] in Hvals.
    destruct (floats_numeric vals Hvals) as (fs & Hfs & Hconv).
    cbn [save_loop]. rewrite Hfs, (record_of_floats e ts vals fs Hconv).
    unfold records_of. cbn [flat_map]. fold (records_of e buf).
    destruct (record_of e (ts, vals)) as [record|].
    + rewrite IH by assumption. now rewrite <- app_assoc.
    + now rewrite IH by assumption.
Qed.

(** X13. [__save_buffer] on a queue of numeric arrays drains all of it
    and appends, in one block and in the order of the queue, the records
    of the entries that [struct.pack] accepts. An entry is left out,
    without a trace in the file, exactly when its timestamp is beyond the
    range of a double. *)
Theorem save_buffer_skips_unpackable :
  forall (m : manager) (w : world),
    Forall (fun entry_ => Forall numeric (snd entry_)) (data_buffer m) ->
    save_buffer m w
    = Returned tt (set_data_buffer [] m)
        (set_log_file
           (log_file w ++ [records_of (endian_specifier m) (data_buffer m)]) w)
    /\ forall entry_,
         In entry_ (data_buffer m) ->
         (record_of (endian_specifier m) entry_ = None
          <-> float_of_int (fst entry_) = None).
Proof.
  intros m w Hall. split.
  - unfold save_buffer, bind, self, assign.
    now rewrite (save_loop_records _ _ [] Hall).
  - intros [ts vals] Hin. cbn [fst].
    assert (Hvals : Forall numeric vals).
    { rewrite Forall_forall in Hall. exact (Hall _ Hin). }
    destruct (pack_d_total (endian_specifier m) vals Hvals) as (packed & Hp & _).
    unfold record_of. cbn [fst snd pack pack_one to_float]. rewrite Hp.
    destruct (float_of_int ts); split; intros H; congruence.
Qed.

Lemma save_buffer_skips_unpackable_witness :
  let m := set_data_buffer
             [(1, [VInt 5]); (2 ^ 1024, [VInt 6]); (3, [VInt 7])] server_ready in
  save_buffer m (world_of server_session)
  = Returned tt (set_data_buffer [] m)
      (set_log_file
         (log_file (world_of server_session)
          ++ [records_of (endian_specifier m) (data_buffer m)])
         (world_of server_session))
  /\ forall entry_,
       In entry_ (data_buffer m) ->
       (record_of (endian_specifier m) entry_ = None
        <-> float_of_int (fst entry_) = None).
Proof.
  intros m.
  apply (save_buffer_skips_unpackable m (world_of server_session)).
  repeat constructor; vm_compute; reflexivity.
Defined.

(** The timestamp 2^1024 of the second entry is refused: two records are
    written. *)
Example records_of_overflowing_timestamp :
  length (records_of Little
            [(1, [VInt 5]); (2 ^ 1024, [VInt 6]); (3, [VInt 7])]) = 2%nat.
Proof. vm_compute. reflexivity. Qed.

Lemma floats_In_None v : forall vals,
  In v vals -> to_float v = None -> floats vals = None.
Proof.
  induction vals as [|x vals IH]; intros Hin Hv; [contradiction|].
  cbn [floats]. destruct Hin as [->|Hin].
  - now rewrite Hv.
  - rewrite (IH Hin Hv). now destruct (to_float x).
Qed.

Lemma save_loop_raises e good ts vals rest : forall acc,
  Forall (fun entry_ => Forall numeric (snd entry_)) good ->
  floats vals = None ->
  save_loop e (good ++ (ts, vals) :: rest) acc
  = (acc ++ records_of e good, rest, true).
Proof.
  induction good as [|[ts' vals'] good IH]; intros acc Hall Hbad.
  - cbn [app save_loop records_of flat_map]. rewrite Hbad.
    now rewrite app_nil_r.
  - inversion Hall as [|x l Hvals Hrest]; subst. cbn [snd] in Hvals.
    destruct (floats_numeric vals' Hvals) as (fs & Hfs & Hconv).
    cbn [app save_loop]. rewrite Hfs, (record_of_floats e ts' vals' fs Hconv).
    unfold records_of. cbn [flat_map]. fold (records_of e good).
    destruct (record_of e (ts', vals')) as [record|].
    + rewrite IH by assumption. now rewrite <- app_assoc.
    + now rewrite IH by assumption.
Qed.

(** X14. An integer in a queued array that is beyond the range of a
    double makes [float] raise an [OverflowError], which [__save_buffer]
    does not catch: the method raises, the file is not written, and the
    entries popped so far, the offending one included, are gone from the
    queue. *)
Theorem save_buffer_overflow_loses_entries :
  forall (m : manager) (w : world) (good rest : list entry) (ts : Z)
         (vals : list value) (v : value),
    data_buffer m = good ++ (ts, vals) :: rest ->
    Forall (fun entry_ => Forall numeric (snd entry_)) good ->
    In v vals ->
    to_float v = None ->
    save_buffer m w = Raised (set_data_buffer rest m) w.
Proof.
  intros m w good rest ts vals v Hbuf Hgood Hin Hv.
  unfold save_buffer, bind, self, assign, raise.
  rewrite Hbuf.
  now rewrite (save_loop_raises _ good ts vals rest []
                 Hgood (floats_In_None v vals Hin Hv)).
Qed.

Lemma save_buffer_overflow_loses_entries_witness :
  let m := set_data_buffer
             [(1, [VInt 5]); (2, [VInt (2 ^ 1024)]); (3, [VInt 7])] server_ready in
  save_buffer m (world_of server_session)
  = Raised (set_data_buffer [(3, [VInt 7])] m) (world_of server_session).
Proof.
  intros m.
  apply (save_buffer_overflow_loses_entries m (world_of server_session)
           [(1, [VInt 5])] [(3, [VInt 7])] 2 [VInt (2 ^ 1024)] (VInt (2 ^ 1024))).
  - reflexivity.
  - repeat constructor; vm_compute; reflexivity.
  - now left.
  - vm_compute. reflexivity.
Defined.

(** ** Producer and saver *)

Lemma feed_keeps data : forall k t m,
  buffer_size (feed k t data m) = buffer_size m
  /\ saving_running (feed k t data m) = saving_running m.
Proof.
  induction k as [|k IH]; intros t m; cbn [feed]; [auto|].
  destruct (IH (t + 1) (fst (add_data_to_buffer t data m))) as [H1 H2].
  rewrite H1, H2. split; reflexivity.
Qed.

(** X15. Entries stay in the queue until there are [buffer_size] of
    them: starting from an empty queue, no call of [add_data_to_buffer]
    before the [buffer_size]-th notifies the saver and that one does;
    below the threshold a turn of the running saver waits without
    touching queue or file. A saver that has been told to stop leaves
    whatever is queued unwritten. *)
Theorem saver_idle_below_threshold :
  forall (m : manager) (w : world) (k : nat) (t : Z) (data : list value),
    data_buffer m = [] ->
    (k < buffer_size m)%nat ->
    let m' := feed k t data m in
    (forall j t', (j < k)%nat ->
                  snd (add_data_to_buffer t' data (feed j t data m)) = false)
    /\ (forall t',
          snd (add_data_to_buffer t' data (feed (buffer_size m - 1) t data m))
          = true)
    /\ length (data_buffer m') = k
    /\ (saving_running m = true ->
        run_saving_thread_turn m' w = Returned Waiting m' w)
    /\ (saving_running m = false ->
        run_saving_thread_turn m' w = Returned Stopped m' w).
Proof.
  intros m w k t data Hempty Hk m'.
  assert (Hlen : forall j, length (data_buffer (feed j t data m)) = j).
  { intros j. rewrite feed_length, Hempty. reflexivity. }
  split; [|split; [|split; [apply Hlen|split]]].
  - intros j t' Hj.
    destruct (add_data_to_buffer_notifies t' data (feed j t data m)) as [_ Hn].
    destruct (snd (add_data_to_buffer t' data (feed j t data m))) eqn:Hs;
      [|reflexivity].
    destruct Hn as [Hn _]. specialize (Hn eq_refl).
    rewrite Hlen in Hn. destruct (feed_keeps data j t m) as [Hb _].
    rewrite Hb in Hn. lia.
  - intros t'.
    destruct (add_data_to_buffer_notifies t' data
                (feed (buffer_size m - 1) t data m)) as [_ Hn].
    apply Hn. rewrite Hlen.
    destruct (feed_keeps data (buffer_size m - 1) t m) as [Hb _].
    rewrite Hb. lia.
  - intros Hrun. destruct (feed_keeps data k t m) as [Hb Hr].
    unfold run_saving_thread_turn, bind, self, ret. fold m'.
    unfold m' at 1 2. rewrite Hr, Hrun. cbn [negb].
    unfold m' at 1 2. rewrite Hlen, Hb.
    destruct (Nat.ltb_spec k (buffer_size m)); [reflexivity | lia].
  - intros Hrun. destruct (feed_keeps data k t m) as [_ Hr].
    unfold run_saving_thread_turn, bind, self, ret. fold m'.
    unfold m' at 1. rewrite Hr, Hrun. reflexivity.
Qed.

Lemma saver_idle_below_threshold_witness :
  let m := set_saving_running true server_ready in
  let m' := feed 5 1700000000000000 [VInt 5; VInt (-7)] m in
  length (data_buffer m') = 5%nat
  /\ run_saving_thread_turn m' (world_of server_session)
     = Returned Waiting m' (world_of server_session).
Proof.
  intros m.
  destruct (saver_idle_below_threshold m (world_of server_session) 5
              1700000000000000 [VInt 5; VInt (-7)])
    as (_ & _ & Hlen & Hwait & _).
  - reflexivity.
  - cbn. lia.
  - split; [exact Hlen | apply Hwait; reflexivity].
Defined.

(** ** Reading the log back *)

Lemma unpack_doubles_total e count chunk :
  length chunk = (count * calcsize fmt_d)%nat ->
  exists data, unpack_doubles e count chunk = Some data /\ length data = count.
Proof.
  intros Hlen. unfold unpack_doubles. rewrite Hlen, Nat.eqb_refl.
  destruct (unpack_chunks_total e fmt_d count chunk [] [] 0%nat Hlen eq_refl)
    as (data & Hdata & Hn & _).
  cbn [app] in Hdata. rewrite app_nil_r in Hdata.
  rewrite range_step_exact by (cbn; lia).
  exists data. split; assumption.
Qed.

(** The read loop, turn by turn. *)
Lemma read_loop_spec e count : (0 < count)%nat ->
  forall fuel content,
    (length content < fuel)%nat ->
    let size := (count * calcsize fmt_d)%nat in
    length (fst (read_loop fuel e count content)) = (length content / size)%nat
    /\ (snd (read_loop fuel e count content) = true
        <-> (length content mod size <> 0)%nat)
    /\ Forall (fun data => length data = count)
         (fst (read_loop fuel e count content)).
Proof.
  intros Hcount fuel. cbv zeta.
  set (size := (count * calcsize fmt_d)%nat).
  assert (Hsize : (0 < size)%nat) by (unfold size; cbn; lia).
  induction fuel as [|fuel IH]; intros content Hfuel; [lia|].
  cbn [read_loop]. fold size.
  destruct (firstn size content) as [|b chunk] eqn:Hchunk.
  - assert (Hnil : content = []).
    { destruct content; [reflexivity|].
      destruct size; [lia | discriminate]. }
    subst content. cbn [fst snd length].
    rewrite Nat.Div0.div_0_l, Nat.Div0.mod_0_l.
    repeat split; try constructor; try discriminate; try lia.
  - destruct (Nat.lt_ge_cases (length content) size) as [Hshort|Hfull].
    + assert (Hnone : unpack_doubles e count (b :: chunk) = None).
      { unfold unpack_doubles. fold size.
        rewrite <- Hchunk, length_firstn.
        destruct (Nat.eqb_spec (Nat.min size (length content)) size);
          [lia | reflexivity]. }
      rewrite Hnone. cbn [fst snd length].
      rewrite Nat.div_small, Nat.mod_small by assumption.
      assert (Hne : (length content <> 0)%nat).
      { destruct content; [rewrite firstn_nil in Hchunk; discriminate | cbn; lia]. }
      split; [reflexivity|]. split; [tauto | constructor].
    + assert (Hlen : length (b :: chunk) = size)
        by (rewrite <- Hchunk, length_firstn; lia).
      destruct (unpack_doubles_total e count (b :: chunk) Hlen)
        as (data & Hdata & Hn).
      rewrite Hdata.
      destruct (IH (skipn size content)) as (Hcnt & Hraise & Hall).
      { rewrite length_skipn. lia. }
      destruct (read_loop fuel e count (skipn size content)) as [printed raised].
      cbn [fst snd length] in *.
      rewrite length_skipn in Hcnt, Hraise.
      assert (Hsplit : length content = (length content - size + 1 * size)%nat)
        by lia.
      split; [|split].
      * rewrite Hsplit at 1. rewrite Nat.div_add by lia. lia.
      * rewrite Hsplit at 1. now rewrite Nat.Div0.mod_add.
      * now constructor.
Qed.

(** X16. [print_bin_file(num_values)] prints one tuple of
    [num_values + 1] floats for every complete record of
    [8 * (num_values + 1)] bytes in the file, and raises at the end
    exactly when bytes are left over that do not fill a record; a missing
    file prints nothing. The chunks are not checked against the number of
    values the records were written with. *)
Theorem print_bin_file_counts :
  forall (m : manager) (num_values : nat) (content : bytes),
    let size := (8 * (num_values + 1))%nat in
    print_bin_file m num_values None = ([], false)
    /\ length (fst (print_bin_file m num_values (Some content)))
       = (length content / size)%nat
    /\ (snd (print_bin_file m num_values (Some content)) = true
        <-> (length content mod size <> 0)%nat)
    /\ Forall (fun data => length data = (num_values + 1)%nat)
         (fst (print_bin_file m num_values (Some content))).
Proof.
  intros m num_values content size. split; [reflexivity|].
  unfold print_bin_file.
  destruct (read_loop_spec (endian_specifier m) (num_values + 1) ltac:(lia)
              (S (length content)) content ltac:(lia)) as (H1 & H2 & H3).
  replace ((num_values + 1) * calcsize fmt_d)%nat with size in *
    by (unfold size; cbn; lia).
  auto.
Qed.

Lemma numeric_carries v : numeric v -> exists v', carries fmt_d v v'.
Proof.
  destruct v as [n|bits]; cbn [numeric]; intros H.
  - destruct (float_of_int_finite n H) as (bits & Hb).
    exists (VFloat bits). now apply carries_d_int.
  - exists (VFloat bits). split; [reflexivity | exact H].
Qed.

Lemma numeric_all_carry vals :
  Forall numeric vals -> exists tup, Forall2 (carries fmt_d) vals tup.
Proof.
  induction 1 as [|v vals Hv _ (tup & Htup)].
  - exists []. constructor.
  - destruct (numeric_carries v Hv) as (v' & Hv').
    exists (v' :: tup). now constructor.
Qed.

(** The record of a loggable entry is read back as the floats of its
    timestamp and values. *)
Lemma record_read_back e entry_ record n :
  loggable entry_ ->
  length (snd entry_) = n ->
  is_record e entry_ record ->
  exists tup,
    length record = ((n + 1) * calcsize fmt_d)%nat
    /\ unpack_doubles e (n + 1) record = Some tup
    /\ Forall2 (carries fmt_d) (VInt (fst entry_) :: snd entry_) tup.
Proof.
  intros [Hts Hvals] Hn [Hpack Hlen].
  destruct (numeric_all_carry (VInt (fst entry_) :: snd entry_))
    as (tup & Htup); [constructor; assumption|].
  destruct (pack_carries e fmt_d _ _ Htup) as (packed & Hp & Hplen & _ & Hchunks).
  rewrite Hpack in Hp. injection Hp as <-.
  cbn [length] in Hplen. rewrite Hn in Hplen.
  assert (Hsize : length record = ((n + 1) * calcsize fmt_d)%nat) by lia.
  exists tup. split; [exact Hsize|]. split; [|exact Htup].
  unfold unpack_doubles. rewrite Hsize, Nat.eqb_refl.
  rewrite range_step_exact by (cbn; lia).
  specialize (Hchunks [] [] 0%nat eq_refl).
  cbn [app length] in Hchunks. rewrite app_nil_r, Hn in Hchunks.
  replace (S n) with (n + 1)%nat in Hchunks by lia. exact Hchunks.
Qed.

Lemma read_loop_records e count : (0 < count)%nat ->
  forall records tuples,
    Forall2 (fun record tup =>
               length record = (count * calcsize fmt_d)%nat
               /\ unpack_doubles e count record = Some tup) records tuples ->
    forall fuel,
      (length (concat records) < fuel)%nat ->
      read_loop fuel e count (concat records) = (tuples, false).
Proof.
  intros Hcount records tuples Hall.
  induction Hall as [|record tup records tuples [Hlen Hun] _ IH];
    intros fuel Hfuel.
  - destruct fuel; [cbn in Hfuel; lia|]. cbn [concat read_loop].
    now rewrite firstn_nil.
  - destruct fuel; [lia|]. cbn [concat read_loop].
    cbn [concat] in Hfuel. rewrite length_app in Hfuel.
    rewrite <- Hlen. rewrite firstn_app, firstn_all, Nat.sub_diag, firstn_0,
      app_nil_r.
    rewrite skipn_app, skipn_all, Nat.sub_diag, skipn_0. cbn [app].
    destruct record as [|b chunk]; [cbn in Hlen; lia|].
    rewrite Hun, IH by (cbn [length] in Hfuel; lia). reflexivity.
Qed.

(** X17. What the saver writes, the reader reads: after [clear_file], a
    flush of a queue of loggable entries with [n] values each, and
    [print_bin_file(n)], the tuples printed are, entry for entry and in
    the order of the queue, the timestamp and the values as floats; the
    reader does not raise. *)
Theorem log_round_trip :
  forall (m : manager) (w : world) (n : nat),
    Forall loggable (data_buffer m) ->
    Forall (fun entry_ => length (snd entry_) = n) (data_buffer m) ->
    exists (w' : world) (printed : list (list value)),
      (clear_file ;; save_buffer) m w = Returned tt (set_data_buffer [] m) w'
      /\ print_bin_file (set_data_buffer [] m) n (Some (file_content w'))
         = (printed, false)
      /\ Forall2 (fun entry_ tup =>
                    Forall2 (carries fmt_d) (VInt (fst entry_) :: snd entry_) tup)
           (data_buffer m) printed.
Proof.
  intros m w n Hlog Hn.
  destruct (save_loop_loggable (endian_specifier m) (data_buffer m) [] Hlog)
    as (records & Hloop & Hrecs).
  assert (Htuples : exists printed,
             Forall2 (fun record tup =>
                        length record = ((n + 1) * calcsize fmt_d)%nat
                        /\ unpack_doubles (endian_specifier m) (n + 1) record
                           = Some tup) records printed
             /\ Forall2 (fun entry_ tup =>
                           Forall2 (carries fmt_d)
                             (VInt (fst entry_) :: snd entry_) tup)
                  (data_buffer m) printed).
  { clear Hloop. induction Hrecs as [|entry_ record buf records Hrec _ IH].
    - exists []. split; constructor.
    - inversion Hlog as [|x l Hl Hlog']; subst.
      inversion Hn as [|x l Hx Hn']; subst.
      destruct (IH Hlog' Hn') as (printed & H1 & H2).
      destruct (record_read_back _ _ _ _ Hl eq_refl Hrec) as (tup & Ha & Hb & Hc).
      exists (tup :: printed). split; constructor; auto. }
  destruct Htuples as (printed & Hread & Hrel).
  exists (set_log_file [records] w), printed.
  split; [|split; [|exact Hrel]].
  - unfold clear_file, save_buffer, bind, self, assign, env.
    rewrite Hloop. reflexivity.
  - unfold print_bin_file, file_content.
    cbn [log_file set_log_file concat endian_specifier set_data_buffer].
    rewrite app_nil_r.
    assert (Hpos : (0 < n + 1)%nat) by lia.
    apply (read_loop_records (endian_specifier m) (n + 1) Hpos records printed
             Hread).
    lia.
Qed.

Lemma log_round_trip_witness :
  let m := feed 3 1700000000000000 [VInt 5; VFloat 0x3FF0000000000000]
             server_ready in
  exists (w' : world) (printed : list (list value)),
    (clear_file ;; save_buffer) m (world_of server_session)
    = Returned tt (set_data_buffer [] m) w'
    /\ print_bin_file (set_data_buffer [] m) 2 (Some (file_content w'))
       = (printed, false)
    /\ Forall2 (fun entry_ tup =>
                  Forall2 (carries fmt_d) (VInt (fst entry_) :: snd entry_) tup)
         (data_buffer m) printed.
Proof.
  intros m.
  apply (log_round_trip m (world_of server_session) 2).
  - subst m. apply feed_loggable.
    + repeat constructor; vm_compute; try reflexivity; discriminate.
    + constructor.
    + lia.
    + vm_compute. reflexivity.
  - vm_compute. repeat constructor.
Defined.

(** ** Sending after the switch *)

(** X18. After [tcp_to_udp], [send_data] sends on the new datagram socket
    to the peer address of the setup: for a client the server's address,
    for a server (until a datagram has arrived) the address the stream
    connection was accepted from. *)
Theorem send_after_switch :
  forall (m : manager) (w : world) (socket_buffer_size : Z) (f : format)
         (data : list value) (role_ : role) (a peer_addr : address),
    socket_type m = Some role_ ->
    local_addr m = Some a \/ role_ = Client ->
    connected_addr m = Some peer_addr ->
    local_output_datatype m = Some f ->
    Forall (fits f) data ->
    exists m1 w1 frame,
      tcp_to_udp socket_buffer_size m w = Returned true m1 w1
      /\ send_data data m1 w1
         = Returned frame m1 (log_call (SendTo (next_sock w) frame peer_addr) w1).
Proof.
  intros m w sz f data role_ a peer_addr Hrole Haddr Hpeer Hdt Hfits.
  destruct (encode_frame_carries (endian_specifier m) f data data
              (Forall_fits_carries f data Hfits))
    as (packed & _ & Henc & _).
  assert (Hrun : exists m1 w1,
             tcp_to_udp sz m w = Returned true m1 w1
             /\ local_output_datatype m1 = Some f
             /\ endian_specifier m1 = endian_specifier m
             /\ network_protocol m1 = Some UDP
             /\ local_socket m1 = Some (next_sock w)
             /\ connected_addr m1 = Some peer_addr).
  { unfold tcp_to_udp, bind, self, env, assign, new_socket, the, ret.
    rewrite Hrole.
    destruct role_.
    - destruct Haddr as [Ha | Hc]; [|discriminate]. rewrite Ha.
      destruct (connected_socket m), (local_socket m);
        do 2 eexists; repeat split; cbn; assumption.
    - rewrite Hpeer.
      destruct (connected_socket m), (local_socket m);
        do 2 eexists; repeat split; cbn; assumption. }
  destruct Hrun as (m1 & w1 & Hswitch & Hdt1 & He1 & Hp1 & Hl1 & Ha1).
  exists m1, w1, (packed ++ [compute_checksum packed]).
  split; [exact Hswitch|].
  unfold send_data, bind, self, the, ret, env.
  now rewrite Hdt1, He1, Henc, Hp1, Hl1, Ha1.
Qed.

Lemma send_after_switch_witness :
  exists m1 w1 frame,
    tcp_to_udp 64 server_ready (world_of server_session) = Returned true m1 w1
    /\ send_data [VFloat 0; VFloat 0; VFloat 0] m1 w1
       = Returned frame m1
           (log_call (SendTo (next_sock (world_of server_session)) frame
                        ("10.0.0.2", 40000)%string) w1).
Proof.
  apply (send_after_switch server_ready (world_of server_session) 64 fmt_d
           [VFloat 0; VFloat 0; VFloat 0] Server
           ("10.0.0.1", 5111)%string ("10.0.0.2", 40000)%string);
    try reflexivity.
  - now left.
  - repeat constructor; cbn; lia.
Defined.

(** ** The caller *)

Lemma tcp_to_udp_server_returns m w sz a :
  socket_type m = Some Server ->
  local_addr m = Some a ->
  exists m' w',
    tcp_to_udp sz m w = Returned true m' w'
    /\ network_protocol m' = Some UDP.
Proof.
  intros Hrole Ha.
  unfold tcp_to_udp, bind, self, env, assign, new_socket, the, ret.
  rewrite Hrole, Ha.
  destruct (connected_socket m), (local_socket m);
    do 2 eexists; split; reflexivity.
Qed.

(** The object of the script after [setup_socket]. *)
Lemma script_setup w :
  exists m1 w1,
    setup_socket "192.168.0.136" 5111 0 20 0 "server" init w = Returned true m1 w1
    /\ socket_type m1 = Some Server
    /\ connected_socket m1 = Some (S (next_sock w))
    /\ local_id_number m1 = Some 0
    /\ local_num_inputs m1 = Some 20
    /\ local_num_outputs m1 = Some 0
    /\ local_addr m1 = Some ("192.168.0.136"%string, 5111)
    /\ inbox w1 = inbox w.
Proof.
  unfold setup_socket, setup_socket_server, bind, assign, self, ret,
         new_socket, env.
  cbn [String.eqb Ascii.eqb Bool.eqb local_socket set_local_id_number
       set_local_num_inputs set_local_num_outputs init].
  do 2 eexists. split; [reflexivity|]. repeat split.
Qed.

(** X19. The start of the script, as far as the socket manager goes,
    never ends with one of its own two error messages. With a peer whose
    counts do not mirror (inputs=20, outputs=0), [handshake] returns
    [False] and the tuple assignment raises a [TypeError]; with the peer
    "Mevea" and matching counts the extra arguments are [None] and
    [extra_args[0]] raises a [TypeError]; with another peer, matching
    counts, a datatype code and three extra arguments, the socket is
    brought up and switched to datagrams, with the first two extra
    arguments as loop frequency and integer scale. *)
Theorem script_bring_up_outcomes :
  forall (w : world),
    let result := fst (fst (bring_up w)) in
    result <> CouldNotSetUpSocket
    /\ result <> CouldNotMakeHandshake
    /\ (forall id outs ins rest,
           inbox w = id :: outs :: ins :: rest ->
           ~ (ins = 0 /\ outs = 20) ->
           result = UnpackTypeError)
    /\ (forall id rest,
           inbox w = id :: 20 :: 0 :: rest ->
           id_numbers_get id_numbers id "Undefined" = "Mevea"%string ->
           result = SubscriptTypeError)
    /\ (forall id code e1 e2 e3 rest,
           inbox w = id :: 20 :: 0 :: code :: e1 :: e2 :: e3 :: rest ->
           String.eqb (id_numbers_get id_numbers id "Undefined") "Mevea" = false ->
           result = BroughtUp e1 e2
           /\ network_protocol (snd (fst (bring_up w))) = Some UDP).
Proof.
  intros w result.
  destruct (script_setup w)
    as (m1 & w1 & Hsetup & Hrole & Hc & Hid & Hin & Hout & Haddr & Hinbox).
  subst result. unfold bring_up. rewrite Hsetup.
  split; [|split; [|split; [|split]]].
  - destruct (handshake _ _ _ m1 w1) as [[| |dt [[|a [|b l]]|]] m2 w2|m2 w2];
      cbn [fst negb format_truth]; try discriminate.
    destruct (tcp_to_udp 64 m2 w2); discriminate.
  - destruct (handshake _ _ _ m1 w1) as [[| |dt [[|a [|b l]]|]] m2 w2|m2 w2];
      cbn [fst negb format_truth]; try discriminate.
    destruct (tcp_to_udp 64 m2 w2); discriminate.
  - intros id outs ins rest Hw Hmis.
    destruct (server_handshake_rejects_mismatch m1 w1 20 0 (S (next_sock w))
                "double" 3 [("example_arg_you_could_send_here", 69)]%string
                id outs ins rest Hrole Hc Hin Hout)
      as (m2 & Hrun & _); [congruence | tauto |].
    now rewrite Hrun.
  - intros id rest Hw Hname.
    unfold handshake. unfold bind at 1, assign. unfold bind at 1, self.
    cbn [socket_type set_local_output_datatype]. rewrite Hrole.
    unfold bind at 1.
    erewrite (handshake_server_mevea (set_local_output_datatype _ m1) w1
                0 20 0 (S (next_sock w)) Hc Hid Hin Hout);
      [| repeat split | rewrite Hinbox; exact Hw | exact Hname].
    erewrite handshake_sizes_ok;
      [| exact Hout | reflexivity | reflexivity | reflexivity].
    reflexivity.
  - intros id code e1 e2 e3 rest Hw Hname.
    assert (Hrun : exists dt m2 w2,
               handshake "double" 3
                 [("example_arg_you_could_send_here", 69)]%string m1 w1
               = Returned (HsDone dt (Some [e1; e2; e3])) m2 w2
               /\ socket_type m2 = Some Server
               /\ local_addr m2 = Some ("192.168.0.136"%string, 5111)).
    { unfold handshake. unfold bind at 1, assign. unfold bind at 1, self.
      cbn [socket_type set_local_output_datatype]. rewrite Hrole.
      unfold bind at 1.
      erewrite (handshake_server_other (set_local_output_datatype _ m1) w1
                  0 20 0 (S (next_sock w)) Hc Hid Hin Hout
                  (conj eq_refl (conj eq_refl eq_refl))
                  _ 3 _ id code [e1; e2; e3] rest);
        [| rewrite Hinbox; exact Hw | reflexivity | exact Hname
         | reflexivity | repeat constructor].
      erewrite handshake_sizes_ok;
        [| exact Hout | reflexivity | reflexivity | reflexivity].
      do 3 eexists. split; [reflexivity|]. split; cbn; assumption. }
    destruct Hrun as (dt & m2 & w2 & Hrun & Hrole2 & Haddr2).
    rewrite Hrun. cbn [format_truth negb].
    destruct (tcp_to_udp_server_returns m2 w2 64 _ Hrole2 Haddr2)
      as (m3 & w3 & Hswitch & Hudp).
    rewrite Hswitch. split; [reflexivity | exact Hudp].
Qed.

Lemma script_bring_up_outcomes_witness :
  fst (fst (bring_up
              (mkWorld [] 0%nat ("192.168.0.10", 50000)%string [1; 5; 0] [])))
  = UnpackTypeError
  /\ fst (fst (bring_up
                 (mkWorld [] 0%nat ("192.168.0.10", 50000)%string [1; 20; 0] [])))
     = SubscriptTypeError.
Proof.
  split.
  - destruct (script_bring_up_outcomes
                (mkWorld [] 0%nat ("192.168.0.10", 50000)%string [1; 5; 0] []))
      as (_ & _ & Hmis & _).
    apply (Hmis 1 5 0 []); [reflexivity | lia].
  - destruct (script_bring_up_outcomes
                (mkWorld [] 0%nat ("192.168.0.10", 50000)%string [1; 20; 0] []))
      as (_ & _ & _ & Hmevea & _).
    apply (Hmevea 1 []); reflexivity.
Defined.

Lemma states_get_set_same states : forall i v d,
  states_get (states_set states i v) i d = v.
Proof.
  induction states as [|[k x] states IH]; intros i v d; cbn [states_set states_get].
  - now rewrite Z.eqb_refl.
  - destruct (Z.eqb_spec k i) as [->|Hne]; cbn [states_get].
    + now rewrite Z.eqb_refl.
    + destruct (Z.eqb_spec k i); [contradiction | apply IH].
Qed.

Lemma states_get_set_other states : forall i j v d,
  i <> j -> states_get (states_set states j v) i d = states_get states i d.
Proof.
  induction states as [|[k x] states IH]; intros i j v d Hij;
    cbn [states_set states_get].
  - destruct (Z.eqb_spec j i); [congruence | reflexivity].
  - destruct (Z.eqb_spec k j) as [->|Hne]; cbn [states_get].
    + destruct (Z.eqb_spec j i); [congruence | reflexivity].
    + destruct (Z.eqb_spec k i); [reflexivity | now apply IH].
Qed.

Lemma check_buttons_other_keep calls threshold i : forall states,
  Forall (fun call => fst call <> i) calls ->
  states_get (snd (check_buttons calls threshold states)) i false
  = states_get states i false.
Proof.
  induction calls as [|[j v] calls IH]; intros states Hall; [reflexivity|].
  inversion Hall as [|x l Hj Hrest]; subst. cbn [fst] in Hj.
  cbn [check_buttons]. unfold check_button.
  destruct (check_buttons calls threshold _) as [answers states''] eqn:Hrun.
  cbn [snd].
  replace states'' with (snd (check_buttons calls threshold
                                (states_set states j (float_gt v threshold))))
    by now rewrite Hrun.
  rewrite IH by assumption. apply states_get_set_other. congruence.
Qed.

(** X20. [check_button] answers [True] exactly on a change from not
    pressed to pressed: the answer for a button depends on its value now
    and its value at its previous check only, whatever other buttons were
    checked in between; a button that was never checked counts as not
    pressed, and a button held down answers [True] once. *)
Theorem check_button_rising_edge :
  forall (states : button_states) (threshold : Z) (i v1 v2 : Z)
         (others : list (Z * Z)),
    Forall (fun call => fst call <> i) others ->
    let s1 := snd (check_button i v1 threshold states) in
    let s2 := snd (check_buttons others threshold s1) in
    fst (check_button i v2 threshold s2)
    = float_gt v2 threshold && negb (float_gt v1 threshold)
    /\ (states_get states i false = false ->
        fst (check_button i v1 threshold states) = float_gt v1 threshold)
    /\ (float_gt v1 threshold = true ->
        fst (check_button i v2 threshold s2) = false).
Proof.
  intros states threshold i v1 v2 others Hothers s1 s2.
  assert (Hprev : states_get s2 i false = float_gt v1 threshold).
  { subst s2. rewrite check_buttons_other_keep by assumption.
    subst s1. cbn [check_button snd]. apply states_get_set_same. }
  split; [|split].
  - unfold check_button. cbn [fst]. now rewrite Hprev.
  - intros Hnew. unfold check_button. cbn [fst]. rewrite Hnew.
    now rewrite andb_true_r.
  - intros Hheld. unfold check_button. cbn [fst]. rewrite Hprev, Hheld.
    now rewrite andb_false_r.
Qed.

Lemma check_button_rising_edge_witness :
  let s1 := snd (check_button 8 0x3FF0000000000000 threshold_default []) in
  let s2 := snd (check_buttons [(9, 0); (10, 0x3FF0000000000000)]
                   threshold_default s1) in
  fst (check_button 8 0x3FF0000000000000 threshold_default s2)
  = float_gt 0x3FF0000000000000 threshold_default
    && negb (float_gt 0x3FF0000000000000 threshold_default)
  /\ (states_get [] 8 false = false ->
      fst (check_button 8 0x3FF0000000000000 threshold_default [])
      = float_gt 0x3FF0000000000000 threshold_default)
  /\ (float_gt 0x3FF0000000000000 threshold_default = true ->
      fst (check_button 8 0x3FF0000000000000 threshold_default s2) = false).
Proof.
  apply (check_button_rising_edge [] threshold_default 8
           0x3FF0000000000000 0x3FF0000000000000
           [(9, 0); (10, 0x3FF0000000000000)]).
  repeat constructor; cbn; lia.
Defined.

Example float_gt_examples :
  float_gt 0x3FF0000000000000 threshold_default = true      (* 1.0 > 0.8 *)
  /\ float_gt 0x3FE0000000000000 threshold_default = false  (* 0.5 > 0.8 *)
  /\ float_gt 0xBFF0000000000000 threshold_default = false  (* -1.0 > 0.8 *)
  /\ float_gt 0x7FF8000000000000 threshold_default = false  (* nan > 0.8 *)
  /\ float_gt 0 0x8000000000000000 = false                  (* 0.0 > -0.0 *)
  /\ float_gt 0x7FF0000000000000 threshold_default = true.  (* inf > 0.8 *)
Proof. vm_compute. repeat split. Qed.

(** ** The identity of "Mevea" on an instance of this class *)

(** X21. The identity number 1 is for the peer "Mevea" only. When a
    server of this class carries it, a client of this class takes the
    server for "Mevea": it reads the three integers, leaves the server's
    datatype code and extra arguments unread in the stream and decodes
    doubles. If the server asked for ['int'] and has outputs, the frames it
    sends have not the size the client expects, although both handshakes
    have completed. *)
Theorem mevea_identity_on_server_breaks_session :
  forall (ms mc : manager) (ws wc : world) (sid cid a b : Z) (cs cc cl : sock)
         (dtc : string) (n : nat) (kws kwc : list (string * Z)),
    socket_type ms = Some Server ->
    connected_socket ms = Some cs ->
    local_id_number ms = Some sid ->
    local_num_inputs ms = Some a ->
    local_num_outputs ms = Some b ->
    socket_type mc = Some Client ->
    connected_socket mc = Some cc ->
    local_socket mc = Some cl ->
    local_id_number mc = Some cid ->
    local_num_inputs mc = Some b ->
    local_num_outputs mc = Some a ->
    fits_i sid = true /\ fits_i cid = true /\ fits_i a = true /\ fits_i b = true ->
    Forall (fun kv => fits_i (snd kv) = true) kws ->
    Forall (fun kv => fits_i (snd kv) = true) kwc ->
    id_numbers_get id_numbers sid "Undefined" = "Mevea"%string ->
    String.eqb (id_numbers_get id_numbers cid "Undefined") "Mevea" = false ->
    b <> 0 ->
    inbox ws
    = client_hello cid b a (datatype_encoding_get datatype_encoding dtc 1) kwc n ->
    inbox wc = [sid; a; b; 0] ++ prepare_extra_args kws n ->
    exists ms' ws' mc' wc' fc,
      handshake "int" n kws ms ws
      = Returned (HsDone fc (Some (prepare_extra_args kwc n))) ms' ws'
      /\ handshake dtc n kwc mc wc = Returned (HsDone fmt_d None) mc' wc'
      /\ trace ws' = trace ws ++ [SendInts cs (inbox wc)]
      /\ inbox wc' = 0 :: prepare_extra_args kws n
      /\ send_bytes ms' <> recv_bytes mc'.
Proof.
  intros ms mc ws wc sid cid a b cs cc cl dtc n kws kwc
         Hsrole Hscs Hsid Hsin Hsout Hcrole Hccc Hccl Hcid Hcin Hcout
         (Fsid & Fcid & Fa & Fb) Hkws Hkwc Hsname Hcname Hb Hws Hwc.
  set (code_c := datatype_encoding_get datatype_encoding dtc 1) in *.
  set (fc := if code_c =? 0 then fmt_b else fmt_d).
  assert (Hs : exists ms', handshake "int" n kws ms ws
                 = Returned (HsDone fc (Some (prepare_extra_args kwc n))) ms'
                     (log_call
                        (SendInts cs ([sid; a; b; 0] ++ prepare_extra_args kws n))
                        (set_inbox [] ws))
               /\ send_bytes ms'
                  = Some (Z.of_nat (calcsize fmt_b) * b
                          + Z.of_nat checksum_format_size)).
  { unfold handshake. unfold bind at 1, assign. unfold bind at 1, self.
    cbn [socket_type set_local_output_datatype]. rewrite Hsrole.
    unfold bind at 1.
    erewrite (handshake_server_other (set_local_output_datatype _ ms) ws
                sid a b cs Hscs Hsid Hsin Hsout (conj Fsid (conj Fa Fb))
                _ n kws cid code_c (prepare_extra_args kwc n) []);
      [| rewrite app_nil_r; exact Hws | apply prepare_extra_args_length
       | exact Hcname | reflexivity | exact Hkws].
    erewrite handshake_sizes_ok;
      [| exact Hsout | reflexivity | reflexivity | reflexivity].
    eexists. split; reflexivity. }
  assert (Hc : exists mc', handshake dtc n kwc mc wc
                 = Returned (HsDone fmt_d None) mc'
                     (set_inbox (0 :: prepare_extra_args kws n)
                        (log_call
                           (SendInts cl (client_hello cid b a code_c kwc n)) wc))
               /\ recv_bytes mc'
                  = Some (Z.of_nat (calcsize fmt_d) * b
                          + Z.of_nat checksum_format_size)).
  { unfold handshake. unfold bind at 1, assign. unfold bind at 1, self.
    cbn [socket_type set_local_output_datatype]. rewrite Hcrole.
    unfold bind at 1.
    erewrite (handshake_client_mevea (set_local_output_datatype _ mc) wc
                cid b a cc cl Hccc Hccl Hcid Hcin Hcout (conj Fcid (conj Fb Fa))
                code_c n kwc (local_datatype_code_fits dtc) Hkwc
                sid a b (0 :: prepare_extra_args kws n));
      [| exact Hwc | exact Hsname].
    cbn [snd].
    erewrite handshake_sizes_ok;
      [| exact Hcout | reflexivity | reflexivity | reflexivity].
    eexists. split; reflexivity. }
  destruct Hs as (ms' & Hsrun & Hsend).
  destruct Hc as (mc' & Hcrun & Hrecv).
  do 5 eexists.
  split; [exact Hsrun|]. split; [exact Hcrun|].
  split; [now rewrite Hwc|]. split; [reflexivity|].
  rewrite Hsend, Hrecv. intros Heq.
  assert (Hz : Z.of_nat (calcsize fmt_b) * b + Z.of_nat checksum_format_size
               = Z.of_nat (calcsize fmt_d) * b + Z.of_nat checksum_format_size)
    by congruence.
  change (Z.of_nat (calcsize fmt_b)) with 1 in Hz.
  change (Z.of_nat (calcsize fmt_d)) with 8 in Hz.
  lia.
Qed.

Lemma mevea_identity_on_server_breaks_session_witness :
  let ms := manager_of (setup_socket "10.0.0.1" 5111 1 2 3 "server" init
                          mismatch_server_world) in
  let mc := manager_of mismatch_client_setup in
  let ws := set_inbox [2; 2; 3; 0; 50; 100; 0]
              (world_of (setup_socket "10.0.0.1" 5111 1 2 3 "server" init
                           mismatch_server_world)) in
  let wc := set_inbox [1; 2; 3; 0; 20; 0; 0] (world_of mismatch_client_setup) in
  let kws := [("loop_frequency", 20)]%string in
  let kwc := [("loop_frequency", 50); ("int_scale", 100)]%string in
  exists ms' ws' mc' wc' fc,
    handshake "int" 3 kws ms ws
    = Returned (HsDone fc (Some (prepare_extra_args kwc 3))) ms' ws'
    /\ handshake "int" 3 kwc mc wc = Returned (HsDone fmt_d None) mc' wc'
    /\ trace ws' = trace ws ++ [SendInts 1%nat (inbox wc)]
    /\ inbox wc' = 0 :: prepare_extra_args kws 3
    /\ send_bytes ms' <> recv_bytes mc'.
Proof.
  intros ms mc ws wc kws kwc.
  apply (mevea_identity_on_server_breaks_session ms mc ws wc 1 2 2 3
           1%nat 0%nat 0%nat "int" 3 kws kwc); try reflexivity.
  - repeat split.
  - repeat constructor.
  - repeat constructor.
  - lia.
Defined.
